(** * PaperBanana: the refinement-loop orchestrator

    A shallow embedding of the diagram pipeline of
    [skills/paper-banana/scripts]: [orchestrate.py] (the orchestrator and
    its command line), [generate_image.py] (the image renderer with its
    retry loop), [critic.py] (the quality critic) and the declaration of
    [run_retriever] in [retriever.py].

    Python values that travel through dictionaries and JSON documents are
    values of [json]; dictionaries are finite maps from strings.  Effects
    (the file system, the calls to the generation service, [time.sleep],
    exceptions and [sys.exit]) are threaded through a state-and-outcome
    monad [M].  The generation service itself is a parameter
    ([services]): its replies may depend on the whole history of the run.
    Console output is not modelled, except where printing can raise. *)

From stdpp Require Import gmap strings list fin_maps pretty.
From Stdlib Require Import ZArith Lia.

#[local] Open Scope string_scope.
#[local] Open Scope Z_scope.
#[local] Open Scope list_scope.
#[local] Set Warnings "-register-all".

(** ** Values *)

Module Py.

(** JSON documents, which are also the Python values the orchestrator
    stores in its dictionaries.  Numbers are integers: the rubric asks for
    scores from 1 to 10. *)
Inductive json : Type :=
| JNull
| JBool (b : bool)
| JNum (z : Z)
| JStr (s : string)
| JList (l : list json)
| JObj (m : gmap string json).

Abbreviation dict := (gmap string json).

(** [bool(v)]: Python truth value testing. *)
Definition truthy (v : json) : bool :=
  match v with
  | JNull => false
  | JBool b => b
  | JNum z => negb (z =? 0)
  | JStr s => match s with EmptyString => false | String _ _ => true end
  | JList l => match l with [] => false | _ :: _ => true end
  | JObj m => negb (bool_decide (m = ∅))
  end.

(** [d.get(key, dflt)] *)
Definition get (d : dict) (key : string) (dflt : json) : json :=
  default dflt (d !! key).

(** Exception classes that occur in the sources, with [OtherError] for
    every class of the service and of the libraries that is an
    [Exception] but not a [RuntimeError]. *)
Inductive exn_class : Type :=
| RuntimeError
| TypeError
| KeyError
| AttributeError
| JSONDecodeError
| OtherError (name : string).

#[global] Instance exn_class_eq_dec : EqDecision exn_class.
Proof. solve_decision. Defined.

(** An exception: its class, [str(e)] and [e.__cause__]. *)
Inductive exn : Type :=
| Exn (cls : exn_class) (msg : string) (cause : option exn).

Definition exn_cls (e : exn) : exn_class := let 'Exn c _ _ := e in c.
Definition exn_str (e : exn) : string := let 'Exn _ m _ := e in m.
Definition exn_cause (e : exn) : option exn := let 'Exn _ _ c := e in c.

(** How a computation ends: it returns, raises, or leaves the process
    through [sys.exit(code)]. *)
Inductive outcome (A : Type) : Type :=
| Ret (a : A)
| Raise (e : exn)
| Exit (code : Z).
Arguments Ret {A} a.
Arguments Raise {A} e.
Arguments Exit {A} code.

(** *** Strings *)

Definition ascii_lower (c : Ascii.ascii) : Ascii.ascii :=
  let n := Ascii.nat_of_ascii c in
  if (Nat.leb 65 n && Nat.leb n 90)%bool
  then Ascii.ascii_of_nat (n + 32) else c.

(** [s.lower()] on ASCII text *)
Fixpoint lower (s : string) : string :=
  match s with
  | EmptyString => EmptyString
  | String c s' => String (ascii_lower c) (lower s')
  end.

(** [s.startswith(p)] *)
Definition startswith (s p : string) : bool := String.prefix p s.

(** [s.endswith(x)] *)
Definition endswith (s x : string) : bool :=
  String.prefix (String.rev x) (String.rev s).

(** [os.path.join] / [Path.__truediv__] on plain relative names *)
Definition path_join (d name : string) : string := d +:+ "/" +:+ name.

(** *** Calls

    Binding of the arguments of a call to the parameters of a [def], in
    the order CPython reports errors: keywords first, then the number of
    positional arguments, then missing parameters. *)

Record param := { p_name : string; p_default : option json }.

Definition required (name : string) : param :=
  {| p_name := name; p_default := None |}.

Definition bind_positional (params : list param) (args : list json)
  : list (string * json) :=
  zip (p_name <$> params) args.

Fixpoint bind_keywords (fname : string) (params : list param)
    (bound : list (string * json)) (kwargs : list (string * json))
  : exn + list (string * json) :=
  match kwargs with
  | [] => inr bound
  | (k, v) :: rest =>
      if bool_decide (k ∈ p_name <$> params) then
        if bool_decide (k ∈ bound.*1) then
          inl (Exn TypeError
                 (fname +:+ "() got multiple values for argument '" +:+ k +:+ "'")
                 None)
        else bind_keywords fname params (bound ++ [(k, v)]) rest
      else
        inl (Exn TypeError
               (fname +:+ "() got an unexpected keyword argument '" +:+ k +:+ "'")
               None)
  end.

Fixpoint bind_defaults (fname : string) (params : list param)
    (bound : list (string * json)) : exn + list (string * json) :=
  match params with
  | [] => inr []
  | p :: rest =>
      match list_find (λ kv, kv.1 = p_name p) bound, p_default p with
      | Some (_, kv), _ =>
          match bind_defaults fname rest bound with
          | inr l => inr (kv :: l)
          | inl e => inl e
          end
      | None, Some d =>
          match bind_defaults fname rest bound with
          | inr l => inr ((p_name p, d) :: l)
          | inl e => inl e
          end
      | None, None =>
          inl (Exn TypeError
                 (fname +:+ "() missing 1 required positional argument: '"
                        +:+ p_name p +:+ "'")
                 None)
      end
  end.

Definition bind_arguments (fname : string) (params : list param)
    (args : list json) (kwargs : list (string * json))
  : exn + list (string * json) :=
  match bind_keywords fname params (bind_positional params args) kwargs with
  | inl e => inl e
  | inr bound =>
      if bool_decide (length params < length args)%nat then
        inl (Exn TypeError
               (fname +:+ "() takes " +:+ pretty (length params)
                      +:+ " positional arguments but " +:+ pretty (length args)
                      +:+ " were given")
               None)
      else bind_defaults fname params bound
  end.

End Py.
Export Py.


(** ** Effects *)

Module Eff.

(** Contents of a file: a JSON document written by [json.dump], a PNG
    written by [Image.save] (named by the payload it was decoded from), or
    plain text. *)
Inductive file : Type :=
| FJson (doc : json)
| FPng (payload : string)
| FText (text : string).

(** A part of a response candidate; [inline_data] is [None] on text parts. *)
Record blob := { mime_type : string; data : string }.
Record part := { inline_data : option blob }.

(** What [client.models.generate_content] does in [generate_image]: it
    raises, or returns a response with its candidates, each given by the
    parts of its content.  A response whose traversal raises (a candidate
    without content, say) is a [GenRaise] of that exception: the call and
    the traversal sit in the same [try]. *)
Inductive gen_reply : Type :=
| GenRaise (e : exn)
| GenResponse (candidates : list (list part)).

(** What the critic's model call does: it raises, or returns a text; the
    text is represented by what [json.loads] makes of it once the fences
    are stripped ([None]: [json.loads] raises). *)
Inductive vlm_reply : Type :=
| VlmRaise (e : exn)
| VlmText (parsed : option json).

(** The multimodal request of [run_critic]: the image part and the fields
    that [build_critic_prompt] formats into the text part. *)
Record critic_request := {
  cr_image : file;
  cr_mime_type : string;
  cr_methodology : string;
  cr_styled_description : json;
  cr_caption : json;
  cr_rubric : string;
}.

(** The trace of a run.  The first three events are the orchestrator's
    calls of the renderer and of the critic, tagged with the loop variable
    [iteration] at the call site; the others are the calls that leave the
    process. *)
Inductive event : Type :=
| CallGenerateImage (iteration : nat) (prompt output_path aspect_ratio : string)
| CallRunCritic (iteration : nat) (image_path : string) (stylist_output : dict)
| ReturnRunCritic (iteration : nat) (critic_output : dict)
| ApiImage (model prompt : string) (reply : gen_reply)
| Sleep (seconds : Z)
| ApiCritic (request : critic_request) (reply : vlm_reply).

Record state := { fs : gmap string file; trace : list event }.

Definition M (A : Type) : Type := state → outcome A * state.

Definition ret {A} (a : A) : M A := λ s, (Ret a, s).

Definition bind {A B} (m : M A) (k : A → M B) : M B :=
  λ s, match m s with
       | (Ret a, s') => k a s'
       | (Raise e, s') => (Raise e, s')
       | (Exit c, s') => (Exit c, s')
       end.

Definition raise {A} (e : exn) : M A := λ s, (Raise e, s).

(** [sys.exit(code)] *)
Definition sys_exit {A} (code : Z) : M A := λ s, (Exit code, s).

(** [try: m  except Exception as e: h e] *)
Definition try_except {A} (m : M A) (h : exn → M A) : M A :=
  λ s, match m s with
       | (Raise e, s') => h e s'
       | r => r
       end.

(** [try: m  except RuntimeError as e: h e] *)
Definition try_except_RuntimeError {A} (m : M A) (h : exn → M A) : M A :=
  try_except m (λ e, if decide (exn_cls e = RuntimeError) then h e else raise e).

Definition emit (ev : event) : M unit :=
  λ s, (Ret tt, {| fs := fs s; trace := trace s ++ [ev] |}).

Definition write_file (path : string) (f : file) : M unit :=
  λ s, (Ret tt, {| fs := <[path := f]> (fs s); trace := trace s |}).

Definition read_file (path : string) : M (option file) :=
  λ s, (Ret (fs s !! path), s).

Definition get_trace : M (list event) := λ s, (Ret (trace s), s).

(** Kinds of events, for counting them in a trace. *)
Definition is_render (ev : event) : bool :=
  match ev with CallGenerateImage _ _ _ _ => true | _ => false end.

Definition is_render_of (i : nat) (ev : event) : bool :=
  match ev with CallGenerateImage j _ _ _ => Nat.eqb i j | _ => false end.

Definition is_evaluation (ev : event) : bool :=
  match ev with CallRunCritic _ _ _ => true | _ => false end.

Definition is_api_image (ev : event) : bool :=
  match ev with ApiImage _ _ _ => true | _ => false end.

Definition is_api_critic (ev : event) : bool :=
  match ev with ApiCritic _ _ => true | _ => false end.

Definition count (p : event → bool) (evs : list event) : nat :=
  length (List.filter p evs).

End Eff.
Export Eff.

Declare Scope py_scope.
Delimit Scope py_scope with py.
Notation "x <- m ;; k" := (bind m (λ x, k))
  (at level 100, m at next level, right associativity) : py_scope.
Notation "m ;;; k" := (bind m (λ _, k))
  (at level 100, right associativity) : py_scope.
#[local] Open Scope py_scope.

(** The world outside the process. *)
Record services := {
  (** the environment variable [GOOGLE_API_KEY] *)
  GOOGLE_API_KEY : option string;
  (** the image model behind [generate_image], given the trace so far,
      the model name and the prompt *)
  image_model : list event → string → string → gen_reply;
  (** the vision model behind [run_critic] *)
  critic_model : list event → critic_request → vlm_reply;
  (** [Image.open]: the pixel size of a payload that decodes *)
  Image_open : string → option (nat * nat);
  (** the text of [references/EVALUATION-RUBRIC.md], empty if absent *)
  rubric_text : string;
  (** the body of [run_retriever] past its plot-mode shortcut, and the
      planner and stylist stages *)
  retriever_stage : string → M dict;
  run_planner : string → string → dict → M dict;
  run_stylist : dict → M dict;
  (** the [main] of plot_generator.py, given the paths of [--config] and
      [--output] *)
  plot_main : string → string → M unit;
  (** [round(time.time() - start_time, 1)] *)
  elapsed_seconds : json;
  (** [Path(p).parent], [str.strip] and [json.dumps] *)
  path_parent : string → string;
  str_strip : string → string;
  json_dumps : json → string;
}.

(** ** generate_image.py *)

Module GenerateImage.

Definition ASPECT_RATIOS : list string :=
  ["16:9"; "3:2"; "1:1"; "21:9"; "9:16"; "2:3"].
Definition DEFAULT_MODEL : string := "gemini-3-pro-image-preview".
Definition DEFAULT_ASPECT_RATIO : string := "16:9".
Definition MAX_RETRIES : nat := 3.
Definition RETRY_BASE_DELAY : Z := 2.

Definition quality_prefix : string :=
  "High-resolution academic illustration for a top-tier ML conference paper. "
  +:+ "Clean white or very light background. "
  +:+ "All text must be perfectly legible in clear sans-serif font. "
  +:+ "Professional publication quality. "
  +:+ "No watermarks, signatures, or decorative borders. "
  +:+ "No figure number or caption text within the image. ".

(** [build_prompt]: [quality_prefix + description] raises a [TypeError]
    unless [description] is a string. *)
Definition build_prompt (description : json) (aspect_ratio : string) : M string :=
  match description with
  | JStr d => ret (quality_prefix +:+ d)
  | _ => raise (Exn TypeError "can only concatenate str to str" None)
  end.

Definition no_image_error : exn :=
  Exn RuntimeError "No image data in API response" None.

Definition exhausted_error (last_error : exn) : exn :=
  Exn RuntimeError
      ("Image generation failed after " +:+ pretty MAX_RETRIES +:+ " attempts. "
       +:+ "Last error: " +:+ exn_str last_error)
      (Some last_error).

(** The first part that carries an image, as the [for part in ...] scan
    finds it. *)
Definition is_image_part (p : part) : option blob :=
  match inline_data p with
  | Some b => if startswith (mime_type b) "image/" then Some b else None
  | None => None
  end.

Fixpoint first_image (parts : list part) : option blob :=
  match parts with
  | [] => None
  | p :: rest =>
      match is_image_part p with
      | Some b => Some b
      | None => first_image rest
      end
  end.

(** The path the image is saved under. *)
Definition png_path (output_path : string) : string :=
  if negb (endswith (lower output_path) ".png")
  then output_path +:+ ".png" else output_path.

Section WithServices.
Variable svc : services.

(** [get_api_key] *)
Definition get_api_key : M string :=
  match GOOGLE_API_KEY svc with
  | Some key => if truthy (JStr key) then ret key else sys_exit 1
  | None => sys_exit 1
  end.

(** The body of the [try] of one attempt: it returns the saved path or
    raises. *)
Definition attempt_body (prompt output_path model : string) : M string :=
  history <- get_trace ;;
  let reply := image_model svc history model prompt in
  emit (ApiImage model prompt reply) ;;;
  match reply with
  | GenRaise e => raise e
  | GenResponse [] => raise no_image_error
  | GenResponse (parts :: _) =>
      match first_image parts with
      | Some b =>
          match Image_open svc (data b) with
          | Some _ =>
              let output_path := png_path output_path in
              write_file output_path (FPng (data b)) ;;;
              ret output_path
          | None =>
              raise (Exn (OtherError "UnidentifiedImageError")
                         "cannot identify image file" None)
          end
      | None => raise no_image_error
      end
  end.

(** [for attempt in range(MAX_RETRIES)], over the attempts still to make;
    falling off the loop returns [None]. *)
Fixpoint retry_loop (attempts : list nat) (prompt output_path model : string)
  : M (option string) :=
  match attempts with
  | [] => ret None
  | attempt :: rest =>
      try_except
        (p <- attempt_body prompt output_path model ;; ret (Some p))
        (λ e,
           let last_error := e in
           if bool_decide (attempt < MAX_RETRIES - 1)%nat then
             let delay := RETRY_BASE_DELAY * 2 ^ Z.of_nat attempt in
             emit (Sleep delay) ;;;
             retry_loop rest prompt output_path model
           else raise (exhausted_error last_error))
  end.

Definition generate_image (prompt output_path model aspect_ratio : string)
  : M (option string) :=
  api_key <- get_api_key ;;
  let aspect_ratio :=
    if bool_decide (aspect_ratio ∈ ASPECT_RATIOS)
    then aspect_ratio else DEFAULT_ASPECT_RATIO in
  retry_loop (seq 0 MAX_RETRIES) prompt output_path model.

End WithServices.
End GenerateImage.

(** ** critic.py *)

Module Critic.
Section WithServices.
Variable svc : services.

(** [get_api_key] of critic.py *)
Definition get_api_key : M string :=
  match GOOGLE_API_KEY svc with
  | Some key => if truthy (JStr key) then ret key else sys_exit 1
  | None => sys_exit 1
  end.

(** [scores.get(...)] in the summary: only a dictionary has [get]. *)
Definition print_scores (result : dict) : M unit :=
  match get result "scores" (JObj ∅) with
  | JObj _ => ret tt
  | _ => raise (Exn AttributeError "object has no attribute 'get'" None)
  end.

(** [suggestion[:100]] *)
Definition print_suggestion (suggestion : json) : M unit :=
  match suggestion with
  | JStr _ | JList _ => ret tt
  | _ => raise (Exn TypeError "object is not subscriptable" None)
  end.

Fixpoint print_each (suggestions : list json) : M unit :=
  match suggestions with
  | [] => ret tt
  | x :: rest => print_suggestion x ;;; print_each rest
  end.

(** [for suggestion in result.get("critic_suggestions", [])]: a list is
    walked element by element; a string or a dictionary yields strings;
    nothing else is iterable. *)
Definition print_suggestions (result : dict) : M unit :=
  match get result "critic_suggestions" (JList []) with
  | JList l => print_each l
  | JStr _ | JObj _ => ret tt
  | _ => raise (Exn TypeError "object is not iterable" None)
  end.

Definition run_critic (image_path methodology : string)
    (stylist_output : dict) (iteration : nat) : M dict :=
  let styled_description := get stylist_output "styled_description" (JStr "") in
  let caption := get stylist_output "caption" (JStr "") in
  let rubric := rubric_text svc in
  api_key <- get_api_key ;;
  img <- read_file image_path ;;
  match img with
  | None => sys_exit 1
  | Some img_bytes =>
      let mime_type :=
        if endswith (lower image_path) ".png" then "image/png" else "image/jpeg" in
      let request :=
        {| cr_image := img_bytes; cr_mime_type := mime_type;
           cr_methodology := methodology;
           cr_styled_description := styled_description;
           cr_caption := caption; cr_rubric := rubric |} in
      history <- get_trace ;;
      let reply := critic_model svc history request in
      emit (ApiCritic request reply) ;;;
      match reply with
      | VlmRaise e => raise e
      | VlmText None => raise (Exn JSONDecodeError "Expecting value" None)
      | VlmText (Some (JObj result)) =>
          let result := <["iteration" := JNum (Z.of_nat iteration)]> result in
          print_scores result ;;;
          print_suggestions result ;;;
          ret result
      | VlmText (Some _) =>
          raise (Exn TypeError "object does not support item assignment" None)
      end
  end.

End WithServices.
End Critic.

(** ** retriever.py: the declaration of [run_retriever] *)

Module Retriever.

(** [def run_retriever(methodology: str, mode: str) -> dict] *)
Definition run_retriever_params : list param :=
  [required "methodology"; required "mode"].

Definition plot_sentinel : dict :=
  <["category" := JStr "plot"]>
  (<["visual_intent" := JStr "statistical_plot"]>
  (<["domain_signals" := JList []]>
  (<["selected_references" := JList []]> ∅))).

(** [v == s] for a string literal [s] *)
Definition str_eq (v : json) (s : string) : bool :=
  match v with
  | JStr x => String.eqb x s
  | _ => false
  end.

Definition lookup_arg (bound : list (string * json)) (name : string) : json :=
  default JNull (snd <$> (snd <$> list_find (λ kv, kv.1 = name) bound)).

Section WithServices.
Variable svc : services.

(** The body of [run_retriever] on its bound parameters. *)
Definition run_retriever_body (bound : list (string * json)) : M dict :=
  if str_eq (lookup_arg bound "mode") "plot" then ret plot_sentinel
  else
    match lookup_arg bound "methodology" with
    | JStr methodology => retriever_stage svc methodology
    | _ => raise (Exn TypeError "methodology is not a string" None)
    end.

(** A call of [run_retriever] with positional arguments [args] and
    keyword arguments [kwargs], the function being declared with the
    parameters [params]. *)
Definition call_run_retriever (params : list param)
    (args : list json) (kwargs : list (string * json)) : M dict :=
  match bind_arguments "run_retriever" params args kwargs with
  | inl e => raise e
  | inr bound => run_retriever_body bound
  end.

End WithServices.
End Retriever.

(** ** orchestrate.py *)

Module Orchestrate.
Import GenerateImage Critic Retriever.

Definition MAX_REFINEMENTS : nat := 3.

Definition aspect_mapping : gmap string string :=
  <["Pipeline/Flow" := "16:9"]>
  (<["Framework Overview" := "16:9"]>
  (<["Detailed Module" := "3:2"]>
  (<["Architecture Diagram" := "3:2"]> ∅))).

(** [determine_aspect_ratio]: [mapping.get(visual_intent, "16:9")]; a list
    or a dictionary is not hashable. *)
Definition determine_aspect_ratio (visual_intent : json) : M string :=
  match visual_intent with
  | JStr s => ret (default "16:9" (aspect_mapping !! s))
  | JList _ | JObj _ => raise (Exn TypeError "unhashable type" None)
  | _ => ret "16:9"
  end.

(** [save_intermediate] *)
Definition save_intermediate (data : dict) (name work_dir : string) : M string :=
  let path := path_join work_dir (name +:+ ".json") in
  write_file path (FJson (JObj data)) ;;;
  ret path.

(** [results["iterations"].append(critic_output)] *)
Definition append_iteration (results critic_output : dict) : M dict :=
  match results !! "iterations" with
  | Some (JList l) => ret (<["iterations" := JList (l ++ [JObj critic_output])]> results)
  | Some _ => raise (Exn AttributeError "object has no attribute 'append'" None)
  | None => raise (Exn KeyError "'iterations'" None)
  end.

(** The variables the loop of [run_diagram_pipeline] reads and assigns. *)
Record loop_vars := {
  results : dict;
  current_description : json;
  stylist_output : dict;
}.

Inductive flow : Type := Continue | Break.

(** [for x in xs: body], where the body ends in [break] or runs through. *)
Fixpoint for_each {A V : Type} (xs : list A) (body : A → V → M (flow * V))
    (v : V) : M V :=
  match xs with
  | [] => ret v
  | x :: rest =>
      r <- body x v ;;
      match r with
      | (Break, v') => ret v'
      | (Continue, v') => for_each rest body v'
      end
  end.

(** [range(a, b)] *)
Definition range (a b : nat) : list nat := seq a (b - a).

(** The acceptance test of line 156. *)
Definition primary_pass (critic_output : dict) : bool :=
  truthy (get critic_output "primary_pass" (JBool false)).

Definition accept (results critic_output : dict) : dict :=
  <["final_scores" := get critic_output "scores" (JObj ∅)]>
  (<["accepted" := JBool true]> results).

Section WithServices.
Variable svc : services.

Section Loop.
Variables (methodology output_path work_dir : string).

(** Lines 155-182: what the loop does with a verdict. *)
Definition evaluate (iteration : nat) (critic_output : dict) (v : loop_vars)
  : M (flow * loop_vars) :=
  if primary_pass critic_output then
    ret (Break, {| results := accept (results v) critic_output;
                   current_description := current_description v;
                   stylist_output := stylist_output v |})
  else if bool_decide (MAX_REFINEMENTS ≤ iteration)%nat then
    ret (Break, {| results := <["max_refinements_reached" := JBool true]>
                                (accept (results v) critic_output);
                   current_description := current_description v;
                   stylist_output := stylist_output v |})
  else
    let revised := get critic_output "revised_description" JNull in
    if truthy revised then
      let stylist_output := <["styled_description" := revised]> (stylist_output v) in
      save_intermediate stylist_output
        ("stylist_output_revised_iter" +:+ pretty iteration) work_dir ;;;
      ret (Continue, {| results := results v;
                        current_description := revised;
                        stylist_output := stylist_output |})
    else
      ret (Break, {| results := accept (results v) critic_output;
                     current_description := current_description v;
                     stylist_output := stylist_output v |}).

(** Lines 122-182: one pass through the body of the loop. *)
Definition loop_body (aspect_ratio : string) (iteration : nat) (v : loop_vars)
  : M (flow * loop_vars) :=
  full_prompt <- build_prompt (current_description v) aspect_ratio ;;
  let iter_output :=
    if bool_decide (iteration = 1%nat) then output_path
    else output_path +:+ ".iter" +:+ pretty iteration +:+ ".png" in
  rendered <-
    try_except_RuntimeError
      (emit (CallGenerateImage iteration full_prompt output_path aspect_ratio) ;;;
       result_path <- generate_image svc full_prompt output_path DEFAULT_MODEL
                        aspect_ratio ;;
       ret (inr result_path))
      (λ e, ret (inl (exn_str e))) ;;
  match rendered with
  | inl message =>
      ret (Break, {| results := <["error" := JStr message]> (results v);
                     current_description := current_description v;
                     stylist_output := stylist_output v |})
  | inr result_path =>
      emit (CallRunCritic iteration output_path (stylist_output v)) ;;;
      critic_output <- run_critic svc output_path methodology (stylist_output v)
                         iteration ;;
      emit (ReturnRunCritic iteration critic_output) ;;;
      save_intermediate critic_output
        ("critic_output_iter" +:+ pretty iteration) work_dir ;;;
      results' <- append_iteration (results v) critic_output ;;
      evaluate iteration critic_output
        {| results := results';
           current_description := current_description v;
           stylist_output := stylist_output v |}
  end.

(** Lines 117-189: phases 4 and 5 and the summary fields. *)
Definition visualizer_critic_loop (results : dict) (stylist_output : dict)
  : M dict :=
  match stylist_output !! "styled_description" with
  | None => raise (Exn KeyError "'styled_description'" None)
  | Some current_description =>
      aspect_ratio <- determine_aspect_ratio (get results "visual_intent" (JStr "")) ;;
      v <- for_each (range 1 (MAX_REFINEMENTS + 1)) (loop_body aspect_ratio)
             {| results := results;
                current_description := current_description;
                stylist_output := stylist_output |} ;;
      ret (<["work_dir" := JStr work_dir]>
           (<["elapsed_seconds" := elapsed_seconds svc]>
           (<["output_path" := JStr output_path]> (Orchestrate.results v))))
  end.

End Loop.

(** Lines 91-189 of [run_diagram_pipeline], for a [run_retriever] declared
    with the parameters [retriever_params]. *)
Definition run_diagram_pipeline_with (retriever_params : list param)
    (methodology caption output_path work_dir : string) (references_dir : json)
  : M dict :=
  let results : dict :=
    <["iterations" := JList []]> (<["mode" := JStr "diagram"]> ∅) in
  retriever_output <-
    call_run_retriever svc retriever_params [JStr methodology]
      [("mode", JStr "diagram"); ("references_dir", references_dir)] ;;
  save_intermediate retriever_output "retriever_output" work_dir ;;;
  let results := <["category" := get retriever_output "category" (JStr "")]> results in
  let results :=
    <["visual_intent" := get retriever_output "visual_intent" (JStr "")]> results in
  planner_output <- run_planner svc methodology caption retriever_output ;;
  save_intermediate planner_output "planner_output" work_dir ;;;
  stylist_output <- run_stylist svc planner_output ;;
  save_intermediate stylist_output "stylist_output" work_dir ;;;
  visualizer_critic_loop methodology output_path work_dir results stylist_output.

(** [run_diagram_pipeline], calling [run_retriever] as retriever.py
    declares it. *)
Definition run_diagram_pipeline : string → string → string → string → json → M dict :=
  run_diagram_pipeline_with run_retriever_params.

(** [run_plot_pipeline]; [plot_main] is the [main] of plot_generator.py
    run on the rewritten [sys.argv]. *)
Definition run_plot_pipeline (data_path : option string)
    (intent output_path work_dir : string) : M dict :=
  let manual : dict :=
    <["mode" := JStr "plot"]>
    (<["output_path" := JStr output_path]>
    (<["method" := JStr "manual"]>
    (<["note" := JStr "Plot mode requires code generation. Use plot_generator.py with a JSON config or generate custom matplotlib code."]> ∅))) in
  match data_path with
  | Some data_path =>
      present <- read_file data_path ;;
      if (truthy (JStr data_path) && bool_decide (is_Some present))%bool then
        try_except
          (plot_main svc data_path output_path ;;;
           ret (<["mode" := JStr "plot"]>
                (<["output_path" := JStr output_path]>
                (<["method" := JStr "plot_generator"]> ∅))))
          (λ e, ret manual)
      else ret manual
  | None => ret manual
  end.

(** [print_summary], as far as it can raise: [len] of the iterations and
    [scores.get] on non-empty final scores. *)
Definition print_summary (results : dict) : M unit :=
  if str_eq (get results "mode" JNull) "diagram" then
    match get results "iterations" (JList []) with
    | JNull | JBool _ | JNum _ =>
        raise (Exn TypeError "object has no len()" None)
    | _ =>
        let scores := get results "final_scores" (JObj ∅) in
        if truthy scores then
          match scores with
          | JObj _ => ret tt
          | _ => raise (Exn AttributeError "object has no attribute 'get'" None)
          end
        else ret tt
    end
  else ret tt.

(** The command line, as [argparse] delivers it. *)
Inductive mode : Type := Diagram | Plot.

Record cli_args := {
  a_mode : mode;
  a_methodology : option string;
  a_methodology_file : option string;
  a_caption : string;
  a_data : option string;
  a_intent : string;
  a_output : string;
  a_work_dir : option string;
  a_references_dir : option string;
}.

Definition opt_json (o : option string) : json :=
  match o with
  | Some s => JStr s
  | None => JNull
  end.

(** [Path.read_text] *)
Definition read_text (f : file) : M string :=
  match f with
  | FText t => ret t
  | FJson doc => ret (json_dumps svc doc)
  | FPng _ => raise (Exn (OtherError "UnicodeDecodeError") "invalid start byte" None)
  end.

(** Lines 313-321: the working directory. *)
Definition main_work_dir (args : cli_args) : string :=
  if truthy (opt_json (a_work_dir args)) then default "" (a_work_dir args)
  else path_join (path_parent svc (a_output args)) "work".

(** Lines 323-342: the preconditions of the chosen mode and its pipeline. *)
Definition main_dispatch (retriever_params : list param) (args : cli_args)
  : M dict :=
  let work_dir := main_work_dir args in
  match a_mode args with
  | Diagram =>
      methodology <-
        (if truthy (opt_json (a_methodology_file args)) then
           let path := default "" (a_methodology_file args) in
           content <- read_file path ;;
           match content with
           | None => sys_exit 1
           | Some f => text <- read_text f ;; ret (str_strip svc text)
           end
         else if truthy (opt_json (a_methodology args)) then
           ret (default "" (a_methodology args))
         else sys_exit 1) ;;
      run_diagram_pipeline_with retriever_params methodology (a_caption args)
        (a_output args) work_dir (opt_json (a_references_dir args))
  | Plot =>
      if negb (truthy (opt_json (a_data args))) then sys_exit 1
      else run_plot_pipeline (a_data args) (a_intent args) (a_output args) work_dir
  end.

(** [main], for a [run_retriever] declared with [retriever_params]. *)
Definition main_with (retriever_params : list param) (args : cli_args) : M unit :=
  results <- main_dispatch retriever_params args ;;
  save_intermediate results "pipeline_results" (main_work_dir args) ;;;
  print_summary results.

Definition main : cli_args → M unit := main_with run_retriever_params.

End WithServices.

(** The exit status of the process: 0 when [main] returns, the argument of
    [sys.exit], and 1 when an exception escapes. *)
Definition exit_status {A} (o : outcome A) : Z :=
  match o with
  | Ret _ => 0
  | Raise _ => 1
  | Exit code => code
  end.

End Orchestrate.

(** ** Vocabulary of the statements *)

Module Run.
Import GenerateImage Critic Retriever Orchestrate.

(** The iteration an orchestrator event is tagged with. *)
Definition iteration_of (ev : event) : option nat :=
  match ev with
  | CallGenerateImage i _ _ _ | CallRunCritic i _ _ | ReturnRunCritic i _ => Some i
  | ApiImage _ _ _ | Sleep _ | ApiCritic _ _ => None
  end.

(** Events below the orchestrator: calls of the service and pauses. *)
Definition quiet (evs : list event) : Prop :=
  Forall (λ ev, iteration_of ev = None) evs.

Definition failed {A} (o : outcome A) : Prop :=
  match o with
  | Ret _ => False
  | Raise _ | Exit _ => True
  end.

(** What [evaluate] decides, without its writes to the working directory. *)
Definition decision (iteration : nat) (critic_output : dict) (v : loop_vars)
  : flow * loop_vars :=
  if primary_pass critic_output then
    (Break, {| results := accept (results v) critic_output;
               current_description := current_description v;
               stylist_output := stylist_output v |})
  else if bool_decide (MAX_REFINEMENTS ≤ iteration)%nat then
    (Break, {| results := <["max_refinements_reached" := JBool true]>
                            (accept (results v) critic_output);
               current_description := current_description v;
               stylist_output := stylist_output v |})
  else if truthy (get critic_output "revised_description" JNull) then
    (Continue, {| results := results v;
                  current_description := get critic_output "revised_description" JNull;
                  stylist_output :=
                    <["styled_description" := get critic_output "revised_description" JNull]>
                      (stylist_output v) |})
  else
    (Break, {| results := accept (results v) critic_output;
               current_description := current_description v;
               stylist_output := stylist_output v |}).

Definition record_verdict (critic_output : dict) (l : list json) (v : loop_vars)
  : loop_vars :=
  {| results := <["iterations" := JList (l ++ [JObj critic_output])]> (results v);
     current_description := current_description v;
     stylist_output := stylist_output v |}.

Definition record_error (message : string) (v : loop_vars) : loop_vars :=
  {| results := <["error" := JStr message]> (results v);
     current_description := current_description v;
     stylist_output := stylist_output v |}.

(** The ways one pass through the loop body can go, with the events it
    adds to the trace. *)
Inductive body_spec (output_path aspect_ratio : string) (i : nat)
    (v : loop_vars) (s : state) : outcome (flow * loop_vars) → state → Prop :=
| body_no_prompt e :
    (∀ d, current_description v ≠ JStr d) →
    body_spec output_path aspect_ratio i v s (Raise e) s
| body_render_abort d inner o s' :
    current_description v = JStr d → quiet inner → failed o →
    trace s' = trace s
      ++ CallGenerateImage i (quality_prefix +:+ d) output_path aspect_ratio :: inner →
    body_spec output_path aspect_ratio i v s o s'
| body_render_error d inner message s' :
    current_description v = JStr d → quiet inner →
    trace s' = trace s
      ++ CallGenerateImage i (quality_prefix +:+ d) output_path aspect_ratio :: inner →
    body_spec output_path aspect_ratio i v s (Ret (Break, record_error message v)) s'
| body_critic_abort d inner inner' o s' :
    current_description v = JStr d → quiet inner → quiet inner' → failed o →
    trace s' = trace s
      ++ CallGenerateImage i (quality_prefix +:+ d) output_path aspect_ratio :: inner
      ++ CallRunCritic i output_path (stylist_output v) :: inner' →
    body_spec output_path aspect_ratio i v s o s'
| body_append_abort d inner inner' verdict o s' :
    current_description v = JStr d → quiet inner → quiet inner' → failed o →
    (∀ l, results v !! "iterations" ≠ Some (JList l)) →
    trace s' = trace s
      ++ CallGenerateImage i (quality_prefix +:+ d) output_path aspect_ratio :: inner
      ++ CallRunCritic i output_path (stylist_output v) :: inner'
      ++ [ReturnRunCritic i verdict] →
    body_spec output_path aspect_ratio i v s o s'
| body_verdict d inner inner' verdict l sc s' :
    current_description v = JStr d → quiet inner → quiet inner' →
    results v !! "iterations" = Some (JList l) →
    get verdict "scores" (JObj ∅) = JObj sc →
    trace s' = trace s
      ++ CallGenerateImage i (quality_prefix +:+ d) output_path aspect_ratio :: inner
      ++ CallRunCritic i output_path (stylist_output v) :: inner'
      ++ [ReturnRunCritic i verdict] →
    body_spec output_path aspect_ratio i v s
      (Ret (decision i verdict (record_verdict verdict l v))) s'.

(** The exception the [try] of an attempt ends with on a reply, if any. *)
Definition attempt_error (svc : services) (reply : gen_reply) : option exn :=
  match reply with
  | GenRaise e => Some e
  | GenResponse [] => Some no_image_error
  | GenResponse (parts :: _) =>
      match first_image parts with
      | None => Some no_image_error
      | Some b =>
          match Image_open svc (data b) with
          | Some _ => None
          | None => Some (Exn (OtherError "UnidentifiedImageError")
                              "cannot identify image file" None)
          end
      end
  end.

(** A reply without an image payload. *)
Definition no_image_payload (reply : gen_reply) : Prop :=
  match reply with
  | GenRaise _ => False
  | GenResponse [] => True
  | GenResponse (parts :: _) => first_image parts = None
  end.

(** The state after [time.sleep(d)]. *)
Definition slept (d : Z) (s : state) : state :=
  {| fs := fs s; trace := trace s ++ [Sleep d] |}.

(** The events of a pass that reaches the critic's verdict. *)
Definition pass_events (i : nat) (d output_path aspect_ratio : string)
    (stylist_output verdict : dict) (inner inner' : list event) : list event :=
  CallGenerateImage i (quality_prefix +:+ d) output_path aspect_ratio :: inner
    ++ CallRunCritic i output_path stylist_output :: inner'
    ++ [ReturnRunCritic i verdict].

(** A verdict after which the loop stops: the critic's primary_pass is
    true, or the iterations are used up, or there is no revision. *)
Definition final_verdict (i : nat) (verdict : dict) : Prop :=
  primary_pass verdict = true
  ∨ (MAX_REFINEMENTS ≤ i)%nat
  ∨ truthy (get verdict "revised_description" JNull) = false.

(** The verdict of iteration [i] is the last event, and the only verdict
    of that iteration: nothing was called after it. *)
Definition ends_with_verdict (new : list event) (i : nat) (verdict : dict) : Prop :=
  ∃ pre, new = pre ++ [ReturnRunCritic i verdict]
         ∧ ∀ w, ¬ In (ReturnRunCritic i w) pre.

(** The results once the loop has stopped on a verdict. *)
Definition closing (i : nat) (verdict res : dict) : dict :=
  if primary_pass verdict then accept res verdict
  else if bool_decide (MAX_REFINEMENTS ≤ i)%nat
       then <["max_refinements_reached" := JBool true]> (accept res verdict)
       else accept res verdict.

(** Lines 184-187: the fields added after the loop. *)
Definition summary (svc : services) (output_path work_dir : string) (r : dict)
  : dict :=
  <["work_dir" := JStr work_dir]>
  (<["elapsed_seconds" := elapsed_seconds svc]>
  (<["output_path" := JStr output_path]> r)).

(** The acceptance rule in the words of the specification: faithfulness and
    readability are both at least 7. *)
Definition thresholds_met (critic_output : dict) : Prop :=
  ∃ sc f r, critic_output !! "scores" = Some (JObj sc)
            ∧ sc !! "faithfulness" = Some (JNum f)
            ∧ sc !! "readability" = Some (JNum r)
            ∧ 7 ≤ f ∧ 7 ≤ r.

(** The revised description is null: the field is absent or [None]. *)
Definition revision_null (critic_output : dict) : Prop :=
  get critic_output "revised_description" JNull = JNull.

(** What [print_summary] relies on. *)
Definition summarisable (results : dict) : Prop :=
  (∃ l, results !! "iterations" = Some (JList l))
  ∧ (results !! "final_scores" = None
     ∨ ∃ sc, results !! "final_scores" = Some (JObj sc)).

Definition is_png (f : file) : bool :=
  match f with
  | FPng _ => true
  | _ => false
  end.

(** The images on disk. *)
Definition images_on_disk (s : state) : list (string * file) :=
  List.filter (λ kv, is_png kv.2) (map_to_list (fs s)).

End Run.

(** ** Sample worlds

    Concrete services, for running the model: the image model answers its
    k-th call with [images k], the critic model its k-th call with
    [verdicts k]. *)

Module Sample.
Import GenerateImage Critic Retriever Orchestrate.

Definition image_part (payload : string) : part :=
  {| inline_data := Some {| mime_type := "image/png"; data := payload |} |}.

Definition text_part : part := {| inline_data := None |}.

Definition scores (faithfulness readability conciseness aesthetics : Z) : json :=
  JObj (<["faithfulness" := JNum faithfulness]>
       (<["readability" := JNum readability]>
       (<["conciseness" := JNum conciseness]>
       (<["aesthetics" := JNum aesthetics]> ∅)))).

(** A critic response in the format the prompt asks for. *)
Definition response (sc primary_pass revised_description : json) : dict :=
  <["scores" := sc]>
  (<["primary_pass" := primary_pass]>
  (<["overall_pass" := primary_pass]>
  (<["critic_suggestions" := JList [JStr "Enlarge the labels"]]>
  (<["revised_description" := revised_description]> ∅)))).

Definition retrieved : dict :=
  <["category" := JStr "Generative & Learning"]>
  (<["visual_intent" := JStr "Pipeline/Flow"]>
  (<["selected_references" := JList []]> ∅)).

Definition styled (description : string) : dict :=
  <["styled_description" := JStr description]>
  (<["caption" := JStr "Figure 1: Autoencoder overview"]> ∅).

Definition world (images : nat → gen_reply) (verdicts : nat → vlm_reply) : services :=
  {| GOOGLE_API_KEY := Some "key";
     image_model := λ history _ _, images (count is_api_image history);
     critic_model := λ history _, verdicts (count is_api_critic history);
     Image_open := λ _, Some (1024%nat, 576%nat);
     rubric_text := "";
     retriever_stage := λ _, ret retrieved;
     run_planner := λ _ _ _, ret (<["description" := JStr "An encoder and a decoder."]> ∅);
     run_stylist := λ _, ret (styled "An encoder maps X to Z; a decoder maps Z to X.");
     plot_main := λ _ _, ret tt;
     elapsed_seconds := JNum 12;
     path_parent := λ _, "output";
     str_strip := λ t, t;
     json_dumps := λ _, "" |}.

(** Every render yields an image named after its call number. *)
Definition images_ok (k : nat) : gen_reply :=
  GenResponse [[text_part; image_part ("image " +:+ pretty k)]].

(** Every call of the image model fails. *)
Definition images_down (k : nat) : gen_reply :=
  GenRaise (Exn (OtherError "ServerError") ("503 on call " +:+ pretty k) None).

Definition initial : state := {| fs := ∅; trace := [] |}.

(** The results as phases 1 to 3 leave them. *)
Definition initial_results : dict :=
  <["visual_intent" := JStr "Pipeline/Flow"]>
  (<["category" := JStr "Generative & Learning"]>
  (<["iterations" := JList []]> (<["mode" := JStr "diagram"]> ∅))).


Definition pass_with_high_scores : dict :=
  response (scores 9 8 7 7) (JBool true) JNull.

Definition fail_without_revision : dict :=
  response (scores 4 5 6 6) (JBool false) JNull.

Definition fail_with_revision (k : nat) : dict :=
  response (scores 4 5 6 6) (JBool false) (JStr ("Revision " +:+ pretty k)).

(** A response with faithfulness and readability at 9 that carries no
    [primary_pass] field, and a revision. *)
Definition high_scores_unflagged : dict :=
  <["scores" := scores 9 9 8 8]>
  (<["critic_suggestions" := JList [JStr "Enlarge the labels"]]>
  (<["revised_description" := JStr "Larger labels"]> ∅)).

(** A response as [run_critic] returns it in iteration [i]. *)
Definition verdict_of (i : nat) (r : dict) : dict :=
  <["iteration" := JNum (Z.of_nat i)]> r.

Definition says (r : dict) : vlm_reply := VlmText (Some (JObj r)).

(** The loop run from the styled description "A" in the empty state. *)
Definition loop_run (images : nat → gen_reply) (verdicts : nat → vlm_reply)
  : outcome dict * state :=
  visualizer_critic_loop (world images verdicts) "An autoencoder." "out.png" "work"
    initial_results (styled "A") initial.



(** The critic never passes the image and always revises. *)
Definition run_never_passes : outcome dict * state :=
  loop_run images_ok (λ k, says (fail_with_revision k)).

(** The critic fails the image and gives no revision. *)
Definition run_no_revision : outcome dict * state :=
  loop_run images_ok (λ _, says fail_without_revision).

(** The critic revises once and passes the second image. *)
Definition run_two_iterations : outcome dict * state :=
  loop_run images_ok
    (λ k, match k with
          | O => says (fail_with_revision 0)
          | S _ => says pass_with_high_scores
          end).

(** The images the critic was shown, in order. *)
Definition images_shown (evs : list event) : list file :=
  omap (λ ev, match ev with
              | ApiCritic request _ => Some (cr_image request)
              | _ => None
              end) evs.

(** The paths the renderer was asked to write, in order. *)
Definition render_paths (evs : list event) : list (nat * string) :=
  omap (λ ev, match ev with
              | CallGenerateImage i _ output_path _ => Some (i, output_path)
              | _ => None
              end) evs.

(** The run returned. *)
Definition is_ret {A} (o : outcome A) : bool :=
  match o with
  | Ret _ => true
  | Raise _ | Exit _ => false
  end.

(** The dictionary a run returned. *)
Definition returned (o : outcome dict) : dict :=
  match o with
  | Ret r => r
  | Raise _ | Exit _ => ∅
  end.

(** A declaration of [run_retriever] that takes [references_dir]. *)
Definition accepting_params : list param :=
  [required "methodology"; required "mode";
   {| p_name := "references_dir"; p_default := Some JNull |}].

Definition diagram_args : cli_args :=
  {| a_mode := Diagram;
     a_methodology := Some "An encoder maps X to Z; a decoder maps Z to X.";
     a_methodology_file := None;
     a_caption := "Figure 1: Autoencoder overview";
     a_data := None; a_intent := "";
     a_output := "output/diagram.png";
     a_work_dir := None; a_references_dir := None |}.

End Sample.

(** ** What a run leaves behind *)

Module Observe.
Import GenerateImage Critic Retriever Orchestrate Run.

(** The payload the [try] of an attempt saves on a reply, if any: the data
    of the first image part of the first candidate, when it decodes. *)
Definition saved_payload (svc : services) (reply : gen_reply) : option string :=
  match reply with
  | GenRaise _ => None
  | GenResponse [] => None
  | GenResponse (parts :: _) =>
      match first_image parts with
      | None => None
      | Some b =>
          match Image_open svc (data b) with
          | Some _ => Some (data b)
          | None => None
          end
      end
  end.

(** The events of the renderer: calls of the image model and pauses. *)
Definition render_event (ev : event) : Prop :=
  match ev with
  | ApiImage _ _ _ | Sleep _ => True
  | _ => False
  end.

(** The request [run_critic] sends for an image it has read. *)
Definition critic_request_for (svc : services) (img : file)
    (image_path methodology : string) (stylist_output : dict) : critic_request :=
  {| cr_image := img;
     cr_mime_type :=
       if endswith (lower image_path) ".png" then "image/png" else "image/jpeg";
     cr_methodology := methodology;
     cr_styled_description := get stylist_output "styled_description" (JStr "");
     cr_caption := get stylist_output "caption" (JStr "");
     cr_rubric := rubric_text svc |}.

(** [GOOGLE_API_KEY] is set and not empty. *)
Definition api_key_set (svc : services) : bool :=
  match GOOGLE_API_KEY svc with
  | Some key => truthy (JStr key)
  | None => false
  end.

(** The verdicts the critic returned to the orchestrator, in the order of
    the trace, and the iterations they are tagged with. *)
Definition verdicts (evs : list event) : list dict :=
  omap (λ ev, match ev with
              | ReturnRunCritic _ critic_output => Some critic_output
              | _ => None
              end) evs.

Definition verdict_iterations (evs : list event) : list nat :=
  omap (λ ev, match ev with
              | ReturnRunCritic i _ => Some i
              | _ => None
              end) evs.

(** A verdict carries the iteration it was returned in. *)
Definition numbered (ev : event) : Prop :=
  match ev with
  | ReturnRunCritic i critic_output =>
      critic_output !! "iteration" = Some (JNum (Z.of_nat i))
  | _ => True
  end.

(** A call of the renderer or of the critic is made for [output_path], a
    render with [aspect_ratio] and a prompt that starts with the quality
    prefix. *)
Definition call_for (output_path aspect_ratio : string) (ev : event) : Prop :=
  match ev with
  | CallGenerateImage _ prompt path ratio =>
      path = output_path ∧ ratio = aspect_ratio
      ∧ startswith prompt quality_prefix = true
  | CallRunCritic _ path _ => path = output_path
  | _ => True
  end.

(** The critic is called, in iteration [i], with a stylist output whose
    styled description is the description [d] the render call of the same
    iteration was given, and whose other fields are those of the stylist
    output the loop started from. *)
Definition told_what_was_rendered (output_path : string) (stylist_output : dict)
    (evs : list event) : Prop :=
  ∀ i path so,
    In (CallRunCritic i path so) evs →
    ∃ d aspect_ratio,
      so !! "styled_description" = Some (JStr d)
      ∧ In (CallGenerateImage i (quality_prefix +:+ d) output_path aspect_ratio) evs
      ∧ ∀ k, k ≠ "styled_description" → so !! k = stylist_output !! k.

(** The stylist output the loop carries along: its styled description is
    the current description, its other fields are those it started with. *)
Definition carries (stylist_output0 : dict) (v : loop_vars) : Prop :=
  stylist_output v !! "styled_description" = Some (current_description v)
  ∧ ∀ k, k ≠ "styled_description" → stylist_output v !! k = stylist_output0 !! k.

(** The fields of the results the loop and its summary assign. *)
Definition loop_fields : list string :=
  ["iterations"; "error"; "accepted"; "final_scores"; "max_refinements_reached";
   "output_path"; "elapsed_seconds"; "work_dir"].

(** The files [save_intermediate] writes in the loop. *)
Definition critic_output_path (work_dir : string) (i : nat) : string :=
  path_join work_dir (("critic_output_iter" +:+ pretty i) +:+ ".json").

Definition revised_stylist_path (work_dir : string) (i : nat) : string :=
  path_join work_dir (("stylist_output_revised_iter" +:+ pretty i) +:+ ".json").

(** Every request to the critic's model comes right after the call of
    [run_critic] for [output_path], which comes right after a reply of the
    image model that was saved, and the request carries that image. *)
Definition judged_fresh (svc : services) (output_path : string)
    (evs : list event) : Prop :=
  ∀ k request reply,
    evs !! k = Some (ApiCritic request reply) →
    ∃ k' model prompt r i so payload,
      k = S (S k')
      ∧ evs !! k' = Some (ApiImage model prompt r)
      ∧ evs !! S k' = Some (CallRunCritic i output_path so)
      ∧ saved_payload svc r = Some payload
      ∧ cr_image request = FPng payload.

End Observe.

(** ** The stages before the loop

    [run_retriever], [run_planner] and [run_stylist] as retriever.py,
    planner.py and stylist.py define them, and the command line of
    generate_image.py.  The model calls of these stages are parameters, as
    the calls of the loop are; they are not recorded in the trace, which
    belongs to the loop. *)

(** *** Operations on Python values *)

Module PyOps.

(** A computation that returns or raises, without touching the state. *)
Definition and_then {A B} (x : exn + A) (k : A → exn + B) : exn + B :=
  match x with
  | inl e => inl e
  | inr a => k a
  end.

Definition lift {A} (x : exn + A) : M A :=
  match x with
  | inl e => raise e
  | inr a => ret a
  end.

Definition characters (s : string) : list json :=
  (λ c, JStr (String c EmptyString)) <$> String.list_ascii_of_string s.

(** [for x in v]: a list yields its elements, a string its characters, a
    dictionary its keys (here in the order of the keys, not of insertion);
    nothing else is iterable. *)
Definition iterate (v : json) : exn + list json :=
  match v with
  | JList l => inr l
  | JStr s => inr (characters s)
  | JObj m => inr (JStr <$> (map_to_list m).*1)
  | JNull | JBool _ | JNum _ => inl (Exn TypeError "object is not iterable" None)
  end.

(** [v[key]] for a string [key] *)
Definition subscript (v : json) (key : string) : exn + json :=
  match v with
  | JObj m =>
      match m !! key with
      | Some x => inr x
      | None => inl (Exn KeyError ("'" +:+ key +:+ "'") None)
      end
  | JStr _ | JList _ => inl (Exn TypeError "indices must be integers" None)
  | JNull | JBool _ | JNum _ => inl (Exn TypeError "object is not subscriptable" None)
  end.

(** [v.get(key, dflt)] *)
Definition get_attr (v : json) (key : string) (dflt : json) : exn + json :=
  match v with
  | JObj m => inr (get m key dflt)
  | _ => inl (Exn AttributeError "object has no attribute 'get'" None)
  end.

Definition hashable (v : json) : bool :=
  match v with
  | JList _ | JObj _ => false
  | _ => true
  end.

(** [a == b] on hashable values: [True == 1] and [False == 0]. *)
Definition as_number (v : json) : option Z :=
  match v with
  | JBool b => Some (if b then 1 else 0)
  | JNum z => Some z
  | _ => None
  end.

Definition key_eqb (a b : json) : bool :=
  match a, b with
  | JNull, JNull => true
  | JStr x, JStr y => String.eqb x y
  | _, _ =>
      match as_number a, as_number b with
      | Some x, Some y => x =? y
      | _, _ => false
      end
  end.

(** A dictionary with arbitrary hashable keys, in insertion order:
    [d[k] = v] and [d.get(k)]. *)
Fixpoint dict_set (d : list (json * json)) (k v : json) : list (json * json) :=
  match d with
  | [] => [(k, v)]
  | (k', v') :: rest =>
      if key_eqb k' k then (k', v) :: rest else (k', v') :: dict_set rest k v
  end.

Definition dict_get (d : list (json * json)) (k : json) : option json :=
  snd <$> List.find (λ kv, key_eqb kv.1 k) d.

(** What a model call that answers with text does: it raises (also when
    [response.text] is [None]), or returns the text. *)
Inductive text_reply : Type :=
| TextRaise (e : exn)
| TextReply (text : string).

End PyOps.

(** *** retriever.py *)

Module RetrieverStage.
Import Retriever Orchestrate PyOps.

(** The prompt of the retriever, by the values formatted into it. *)
Record retriever_request := {
  rr_methodology : string;
  rr_candidates : list (json * json * json);
  rr_categories_text : string;
}.

(** [format_candidates]: the id, category and caption of every entry. *)
Fixpoint format_entries (entries : list json) : exn + list (json * json * json) :=
  match entries with
  | [] => inr []
  | entry :: rest =>
      and_then (subscript entry "id") (λ id,
      and_then (subscript entry "category") (λ category,
      and_then (subscript entry "caption") (λ caption,
      and_then (format_entries rest) (λ l,
      inr ((id, category, caption) :: l)))))
  end.

Definition format_candidates (index : json) : exn + list (json * json * json) :=
  and_then (iterate index) format_entries.

(** [{entry["id"]: entry for entry in index}] *)
Fixpoint build_lookup (entries : list json) (acc : list (json * json))
  : exn + list (json * json) :=
  match entries with
  | [] => inr acc
  | entry :: rest =>
      and_then (subscript entry "id") (λ id,
      if hashable id then build_lookup rest (dict_set acc id entry)
      else inl (Exn TypeError "unhashable type" None))
  end.

(** [ref['reason'][:80]] *)
Definition print_reason (ref : dict) : exn + unit :=
  and_then (subscript (JObj ref) "reason") (λ reason,
  match reason with
  | JStr _ | JList _ => inr tt
  | _ => inl (Exn TypeError "object is not subscriptable" None)
  end).

Fixpoint print_reasons (refs : list dict) : exn + unit :=
  match refs with
  | [] => inr tt
  | ref :: rest => and_then (print_reason ref) (λ _, print_reasons rest)
  end.

Section WithServices.
Variable svc : services.
(** [INDEX_PATH] and [CATEGORIES_PATH] *)
Variables (INDEX_PATH CATEGORIES_PATH : string).
(** [str(REFERENCES_DIR / file)] *)
Variable reference_path : string → string.
(** the model behind [run_retriever], given the trace so far *)
Variable retriever_model : list event → retriever_request → vlm_reply.

Definition get_api_key : M string :=
  match GOOGLE_API_KEY svc with
  | Some key => if truthy (JStr key) then ret key else sys_exit 1
  | None => sys_exit 1
  end.

(** [load_index]; a file that is not a JSON text makes [json.load] raise. *)
Definition load_index : M json :=
  content <- read_file INDEX_PATH ;;
  match content with
  | None => sys_exit 1
  | Some (FJson doc) => ret doc
  | Some (FText _) => raise (Exn JSONDecodeError "Expecting value" None)
  | Some (FPng _) =>
      raise (Exn (OtherError "UnicodeDecodeError") "invalid start byte" None)
  end.

Definition load_categories : M string :=
  content <- read_file CATEGORIES_PATH ;;
  match content with
  | Some f => read_text svc f
  | None => ret ""
  end.

(** One pass of the enrichment loop: the enriched reference, or [None]
    when the id is not in the index. *)
Definition enrich_ref (index_lookup : list (json * json)) (ref : json)
  : exn + option dict :=
  and_then (subscript ref "id") (λ ref_id,
  if hashable ref_id then
    match dict_get index_lookup ref_id with
    | Some entry =>
        and_then (subscript entry "file") (λ file,
        match file with
        | JStr f =>
            and_then (subscript entry "caption") (λ caption,
            and_then (get_attr entry "description" caption) (λ description,
            and_then (get_attr ref "reason" (JStr "")) (λ reason,
            inr (Some (<["id" := ref_id]>
                      (<["file" := JStr (reference_path f)]>
                      (<["caption" := caption]>
                      (<["description" := description]>
                      (<["reason" := reason]> ∅)))))))))
        | _ => inl (Exn TypeError "unsupported operand type(s) for /" None)
        end)
    | None => inr None
    end
  else inl (Exn TypeError "unhashable type" None)).

Fixpoint enrich (index_lookup : list (json * json)) (refs : list json)
  : exn + list dict :=
  match refs with
  | [] => inr []
  | ref :: rest =>
      and_then (enrich_ref index_lookup ref) (λ enriched,
      and_then (enrich index_lookup rest) (λ l,
      inr (match enriched with
           | Some d => d :: l
           | None => l
           end)))
  end.

(** [run_retriever] *)
Definition run_retriever (methodology : string) (mode : json) : M dict :=
  if str_eq mode "plot" then ret plot_sentinel
  else
    index <- load_index ;;
    categories_text <- load_categories ;;
    candidates <- lift (format_candidates index) ;;
    api_key <- get_api_key ;;
    history <- get_trace ;;
    let request :=
      {| rr_methodology := methodology; rr_candidates := candidates;
         rr_categories_text := categories_text |} in
    match retriever_model history request with
    | VlmRaise e => raise e
    | VlmText None => raise (Exn JSONDecodeError "Expecting value" None)
    | VlmText (Some result) =>
        entries <- lift (iterate index) ;;
        index_lookup <- lift (build_lookup entries []) ;;
        selected <- lift (get_attr result "selected_references" (JList [])) ;;
        refs <- lift (iterate selected) ;;
        enriched_refs <- lift (enrich index_lookup refs) ;;
        match result with
        | JObj result =>
            let result :=
              <["selected_references" := JList (JObj <$> enriched_refs)]> result in
            lift (print_reasons enriched_refs) ;;;
            ret result
        | _ => raise (Exn TypeError "object does not support item assignment" None)
        end
    end.

End WithServices.
End RetrieverStage.

(** Vocabulary for the enrichment of the selected references. *)

Module Enrichment.
Import PyOps.

(** The ids of the references the model selected. *)
Definition selected_ids (refs : list json) : list json :=
  omap (λ ref, match subscript ref "id" with
               | inr id => Some id
               | inl _ => None
               end) refs.

(** [id] is the id of an entry of the index, up to [==]. *)
Definition in_index (entries : list json) (id : json) : bool :=
  existsb (λ entry, match subscript entry "id" with
                    | inr i => key_eqb i id
                    | inl _ => false
                    end) entries.

(** An enriched reference: its id is that of an entry of the index, its
    file, caption and description are taken from that entry, and its
    reason is the one the model gave. *)
Definition enriched_from (reference_path : string → string) (entries refs : list json)
    (d : dict) : Prop :=
  ∃ entry ref ref_id f caption,
    JObj entry ∈ entries
    ∧ JObj ref ∈ refs
    ∧ ref !! "id" = Some ref_id
    ∧ (∃ id, entry !! "id" = Some id ∧ key_eqb id ref_id = true)
    ∧ entry !! "file" = Some (JStr f)
    ∧ entry !! "caption" = Some caption
    ∧ d = <["id" := ref_id]>
          (<["file" := JStr (reference_path f)]>
          (<["caption" := caption]>
          (<["description" := get entry "description" caption]>
          (<["reason" := get ref "reason" (JStr "")]> ∅)))).

(** An entry of the index as assets/references/index.json has them, and
    a selected reference as the prompt asks for them. *)
Definition index_entry (entry : json) : Prop :=
  ∃ m id file, entry = JObj m
    ∧ m !! "id" = Some (JStr id)
    ∧ is_Some (m !! "category")
    ∧ is_Some (m !! "caption")
    ∧ m !! "file" = Some (JStr file).

Definition selected_reference (ref : json) : Prop :=
  ∃ r id reason, ref = JObj r
    ∧ r !! "id" = Some (JStr id)
    ∧ get r "reason" (JStr "") = JStr reason.

End Enrichment.

(** *** planner.py *)

Module Planner.
Import Orchestrate PyOps.

(** An in-context example sent to the planner's model: the bytes of the
    reference image, its MIME type, and the id and caption its text part
    is formatted from. *)
Record example := {
  ex_image : file;
  ex_mime_type : string;
  ex_id : json;
  ex_caption : json;
}.

Record planner_request := {
  pr_examples : list example;
  pr_methodology : string;
  pr_caption : string;
  pr_category : json;
  pr_visual_intent : json;
}.

(** The image the planner loads for a selected reference: the file its
    [file] field names, when the field is a non-empty string and the file
    exists. *)
Definition reference_image (s : state) (ref : json) : option file :=
  match get_attr ref "file" (JStr "") with
  | inr (JStr p) => if truthy (JStr p) then fs s !! p else None
  | _ => None
  end.

(** [[ref["id"] for ref in selected_refs]] *)
Fixpoint reference_ids (refs : list json) : exn + list json :=
  match refs with
  | [] => inr []
  | ref :: rest =>
      and_then (subscript ref "id") (λ id,
      and_then (reference_ids rest) (λ l, inr (id :: l)))
  end.

Section WithServices.
Variable svc : services.
(** [Path(p).suffix] *)
Variable Path_suffix : string → string.
Variable planner_model : list event → planner_request → text_reply.

Definition get_api_key : M string :=
  match GOOGLE_API_KEY svc with
  | Some key => if truthy (JStr key) then ret key else sys_exit 1
  | None => sys_exit 1
  end.

(** One pass of the loop over the selected references: the example it
    appends, or [None] when the reference has no image on disk. *)
Definition load_reference (ref : json) : M (option example) :=
  ref_path <- lift (get_attr ref "file" (JStr "")) ;;
  if truthy ref_path then
    match ref_path with
    | JStr p =>
        content <- read_file p ;;
        match content with
        | Some img_bytes =>
            id <- lift (subscript ref "id") ;;
            let ext := lower (Path_suffix p) in
            let mime_type :=
              if (String.eqb ext ".jpg" || String.eqb ext ".jpeg")%bool
              then "image/jpeg" else "image/png" in
            caption <- lift (subscript ref "caption") ;;
            ret (Some {| ex_image := img_bytes; ex_mime_type := mime_type;
                         ex_id := id; ex_caption := caption |})
        | None => ret None
        end
    | _ => raise (Exn TypeError "expected str, bytes or os.PathLike object" None)
    end
  else ret None.

Fixpoint load_references (refs : list json) : M (list example) :=
  match refs with
  | [] => ret []
  | ref :: rest =>
      loaded <- load_reference ref ;;
      l <- load_references rest ;;
      ret (match loaded with
           | Some ex => ex :: l
           | None => l
           end)
  end.

(** [run_planner] *)
Definition run_planner (methodology caption : string) (references_data : dict)
  : M dict :=
  let category := get references_data "category" (JStr "Science & Applications") in
  let visual_intent := get references_data "visual_intent" (JStr "Pipeline/Flow") in
  let selected_refs := get references_data "selected_references" (JList []) in
  api_key <- get_api_key ;;
  refs <- lift (iterate selected_refs) ;;
  examples <- load_references refs ;;
  history <- get_trace ;;
  let request :=
    {| pr_examples := examples; pr_methodology := methodology;
       pr_caption := caption; pr_category := category;
       pr_visual_intent := visual_intent |} in
  match planner_model history request with
  | TextRaise e => raise e
  | TextReply text =>
      let description := str_strip svc text in
      ids <- lift (reference_ids refs) ;;
      ret (<["description" := JStr description]>
           (<["category" := category]>
           (<["visual_intent" := visual_intent]>
           (<["caption" := JStr caption]>
           (<["reference_ids" := JList ids]> ∅)))))
  end.

End WithServices.
End Planner.

(** *** stylist.py *)

Module Stylist.
Import Orchestrate PyOps.

Record stylist_request := {
  sr_description : json;
  sr_category : json;
  sr_style_guide : string;
}.

Section WithServices.
Variable svc : services.
Variable STYLE_GUIDE_PATH : string.
Variable stylist_model : list event → stylist_request → text_reply.

Definition get_api_key : M string :=
  match GOOGLE_API_KEY svc with
  | Some key => if truthy (JStr key) then ret key else sys_exit 1
  | None => sys_exit 1
  end.

Definition load_style_guide : M string :=
  content <- read_file STYLE_GUIDE_PATH ;;
  match content with
  | Some f => read_text svc f
  | None => ret ""
  end.

(** [run_stylist]; the last [print] takes [len(description)]. *)
Definition run_stylist (planner_output : dict) (category_override : json) : M dict :=
  match planner_output !! "description" with
  | None => raise (Exn KeyError "'description'" None)
  | Some description =>
      let category :=
        if truthy category_override then category_override
        else get planner_output "category" (JStr "Science & Applications") in
      style_guide <- load_style_guide ;;
      api_key <- get_api_key ;;
      history <- get_trace ;;
      let request :=
        {| sr_description := description; sr_category := category;
           sr_style_guide := style_guide |} in
      match stylist_model history request with
      | TextRaise e => raise e
      | TextReply text =>
          let styled_description := str_strip svc text in
          let result : dict :=
            <["styled_description" := JStr styled_description]>
            (<["category" := category]>
            (<["visual_intent" := get planner_output "visual_intent" (JStr "")]>
            (<["caption" := get planner_output "caption" (JStr "")]>
            (<["original_description" := description]> ∅)))) in
          match description with
          | JStr _ | JList _ | JObj _ => ret result
          | JNull | JBool _ | JNum _ =>
              raise (Exn TypeError "object has no len()" None)
          end
      end
  end.

End WithServices.
End Stylist.

(** *** The command line of generate_image.py *)

Module GenerateImageCli.
Import GenerateImage Orchestrate.

Record cli_args := {
  a_prompt : option string;
  a_prompt_file : option string;
  a_output : string;
  a_model : string;
  a_aspect_ratio : string;
}.

Section WithServices.
Variable svc : services.

(** [main] of generate_image.py *)
Definition main (args : cli_args) : M unit :=
  description <-
    (if truthy (opt_json (a_prompt_file args)) then
       let path := default "" (a_prompt_file args) in
       content <- read_file path ;;
       match content with
       | None => sys_exit 1
       | Some f => text <- read_text svc f ;; ret (JStr (str_strip svc text))
       end
     else ret (opt_json (a_prompt args))) ;;
  full_prompt <- build_prompt description (a_aspect_ratio args) ;;
  try_except_RuntimeError
    (result_path <- generate_image svc full_prompt (a_output args) (a_model args)
                      (a_aspect_ratio args) ;;
     ret tt)
    (λ e, sys_exit 1).

End WithServices.
End GenerateImageCli.

(** *** The services with their stages spelled out *)

Module Stages.
Import Orchestrate PyOps.

(** What the stages read besides the services of the loop. *)
Record stage_services := {
  INDEX_PATH : string;
  CATEGORIES_PATH : string;
  STYLE_GUIDE_PATH : string;
  reference_path : string → string;
  Path_suffix : string → string;
  retriever_model : list event → RetrieverStage.retriever_request → vlm_reply;
  planner_model : list event → Planner.planner_request → text_reply;
  stylist_model : list event → Stylist.stylist_request → text_reply;
}.

(** The services whose three stages are the functions of retriever.py,
    planner.py and stylist.py; the orchestrator calls [run_retriever] in
    diagram mode and [run_stylist] without a category override. *)
Definition with_stages (svc : services) (st : stage_services) : services :=
  {| GOOGLE_API_KEY := GOOGLE_API_KEY svc;
     image_model := image_model svc;
     critic_model := critic_model svc;
     Image_open := Image_open svc;
     rubric_text := rubric_text svc;
     retriever_stage := λ methodology,
       RetrieverStage.run_retriever svc (INDEX_PATH st) (CATEGORIES_PATH st)
         (reference_path st) (retriever_model st) methodology (JStr "diagram");
     run_planner :=
       Planner.run_planner svc (Path_suffix st) (planner_model st);
     run_stylist := λ planner_output,
       Stylist.run_stylist svc (STYLE_GUIDE_PATH st) (stylist_model st)
         planner_output JNull;
     plot_main := plot_main svc;
     elapsed_seconds := elapsed_seconds svc;
     path_parent := path_parent svc;
     str_strip := str_strip svc;
     json_dumps := json_dumps svc |}.

End Stages.

(** ** More sample runs *)

Module Scenarios.
Import GenerateImage Critic Retriever Orchestrate Sample PyOps Stages.

(** The loop asked to write to "figure", a path without the ".png"
    suffix. *)
Definition run_without_suffix : outcome dict * state :=
  visualizer_critic_loop (world images_ok (λ _, says pass_with_high_scores))
    "An autoencoder." "figure" "work" initial_results (styled "A") initial.

(** The same, with an older file at that path. *)
Definition with_old_figure : state :=
  {| fs := <["figure" := FPng "old figure"]> ∅; trace := [] |}.

Definition run_with_old_figure : outcome dict * state :=
  visualizer_critic_loop (world images_ok (λ _, says pass_with_high_scores))
    "An autoencoder." "figure" "work" initial_results (styled "A") with_old_figure.

(** A command line in diagram mode without a methodology. *)
Definition no_methodology_args : cli_args :=
  {| a_mode := Diagram;
     a_methodology := None;
     a_methodology_file := None;
     a_caption := "";
     a_data := None; a_intent := "";
     a_output := "output/diagram.png";
     a_work_dir := None; a_references_dir := None |}.

(** An index of two references, and a reply of the retriever's model that
    selects the second one and a reference the index does not have. *)
Definition index_entry_of (id category caption file : string) : dict :=
  <["id" := JStr id]>
  (<["category" := JStr category]>
  (<["caption" := JStr caption]>
  (<["file" := JStr file]> ∅))).

Definition sample_entries : list json :=
  [JObj (index_entry_of "ref_001" "Agent & Reasoning" "A planning agent" "ref_001.jpg");
   JObj (index_entry_of "ref_002" "Generative & Learning" "A diffusion model"
           "ref_002.jpg")].

Definition selected (id reason : string) : dict :=
  <["id" := JStr id]> (<["reason" := JStr reason]> ∅).

Definition sample_selection : list json :=
  [JObj (selected "ref_002" "Same family of models");
   JObj (selected "ref_404" "Not in the index")].

Definition sample_response : dict :=
  <["category" := JStr "Generative & Learning"]>
  (<["visual_intent" := JStr "Detailed Module"]>
  (<["domain_signals" := JList [JStr "autoencoder"]]>
  (<["selected_references" := JList sample_selection]> ∅))).

Definition sample_stages : stage_services :=
  {| INDEX_PATH := "assets/references/index.json";
     CATEGORIES_PATH := "references/DIAGRAM-CATEGORIES.md";
     STYLE_GUIDE_PATH := "references/DIAGRAM-STYLE-GUIDE.md";
     reference_path := λ file, "assets/references/" +:+ file;
     Path_suffix := λ _, ".jpg";
     retriever_model := λ _ _, VlmText (Some (JObj sample_response));
     planner_model := λ _ _, TextReply "An encoder and a decoder.";
     stylist_model := λ _ _, TextReply "A soft blue encoder and a mint decoder." |}.

(** The services of the loop with these stages. *)
Definition staged_world : services :=
  with_stages (world images_ok (λ _, says pass_with_high_scores)) sample_stages.

(** A state with the index and the image of the second reference. *)
Definition with_index : state :=
  {| fs := <["assets/references/index.json" := FJson (JList sample_entries)]>
           (<["assets/references/ref_002.jpg" := FPng "reference 2"]> ∅);
     trace := [] |}.

Definition retriever_run : outcome dict * state :=
  retriever_stage staged_world "An autoencoder." with_index.

Definition planner_run : outcome dict * state :=
  run_planner staged_world "An autoencoder." "Figure 1: Autoencoder overview"
    (returned retriever_run.1) with_index.

Definition stylist_run : outcome dict * state :=
  run_stylist staged_world (returned planner_run.1) planner_run.2.

End Scenarios.

(** * Properties *)

Module Facts.
Import GenerateImage Critic Retriever Orchestrate Run.

Lemma bind_ret {A B} (m : M A) (k : A → M B) s a s' :
  m s = (Ret a, s') → bind m k s = k a s'.
Proof. unfold bind. by intros ->. Qed.

Lemma quiet_app xs ys : quiet xs → quiet ys → quiet (xs ++ ys).
Proof. apply Forall_app_2. Qed.

Lemma quiet_count p xs :
  (∀ ev, p ev = true → is_Some (iteration_of ev)) → quiet xs → count p xs = 0%nat.
Proof.
  intros Hp. unfold count. induction 1 as [|ev xs Hev _ IH]; [done|].
  cbn. destruct (p ev) eqn:E; [|done].
  apply Hp in E. rewrite Hev in E. by destruct E.
Qed.

Lemma count_app p xs ys : count p (xs ++ ys) = (count p xs + count p ys)%nat.
Proof. unfold count. by rewrite List.filter_app, length_app. Qed.

Lemma count_cons p x xs :
  count p (x :: xs) = ((if p x then 1 else 0) + count p xs)%nat.
Proof. unfold count. cbn. by destruct (p x). Qed.

Lemma count_none p xs : (∀ ev, In ev xs → p ev = false) → count p xs = 0%nat.
Proof.
  induction xs as [|x xs IH]; intros H; [done|].
  rewrite count_cons, (H x) by by left. apply IH. intros ev Hev. apply H. by right.
Qed.

Lemma count_le p q xs :
  (∀ ev, p ev = true → q ev = true) → (count p xs ≤ count q xs)%nat.
Proof.
  intros H. induction xs as [|x xs IH]; [done|].
  rewrite !count_cons. destruct (p x) eqn:E; [rewrite (H _ E); lia|].
  destruct (q x); lia.
Qed.

Lemma quiet_In ev evs : quiet evs → In ev evs → iteration_of ev = None.
Proof. intros Hq Hin. eapply Forall_forall in Hq; [done|]. by apply list_elem_of_In. Qed.

(** The events one pass adds: they carry its iteration, with at most one
    call of the renderer and one of the critic. *)
Lemma body_spec_events output_path aspect_ratio i v s o s' :
  body_spec output_path aspect_ratio i v s o s' →
  ∃ new, trace s' = trace s ++ new
         ∧ (∀ ev, In ev new → iteration_of ev = None ∨ iteration_of ev = Some i)
         ∧ (count is_render new ≤ 1)%nat
         ∧ (count is_evaluation new ≤ 1)%nat.
Proof.
  assert (∀ xs, quiet xs → count is_render xs = 0%nat) as Qr.
  { intros xs. apply quiet_count. by intros []. }
  assert (∀ xs, quiet xs → count is_evaluation xs = 0%nat) as Qe.
  { intros xs. apply quiet_count. by intros []. }
  destruct 1 as [e Hd|d inner o s' Hd Q1 Hf T|d inner msg s' Hd Q1 T
                |d inner inner' o s' Hd Q1 Q2 Hf T
                |d inner inner' verdict o s' Hd Q1 Q2 Hf Hl T
                |d inner inner' verdict l sc s' Hd Q1 Q2 Hl Hsc T].
  - exists []. rewrite app_nil_r. repeat split; try done; cbn; lia.
  - eexists. split; [exact T|]. split.
    + intros ev [<-|Hin]; [by right|left; (eapply quiet_In; [|exact Hin]; done)].
    + rewrite !count_cons, Qr, Qe by done. cbn. lia.
  - eexists. split; [exact T|]. split.
    + intros ev [<-|Hin]; [by right|left; (eapply quiet_In; [|exact Hin]; done)].
    + rewrite !count_cons, Qr, Qe by done. cbn. lia.
  - eexists. split; [exact T|]. split.
    + intros ev [<-|[Hin|[<-|Hin]]%in_app_or]; try (by right); left; (eapply quiet_In; [|exact Hin]; done).
    + rewrite !count_cons, !count_app, !count_cons, !Qr, !Qe by done. cbn. lia.
  - eexists. split; [exact T|]. split.
    + intros ev [<-|[Hin|[<-|[Hin|[<-|[]]]%in_app_or]]%in_app_or];
        try (by right); left; (eapply quiet_In; [|exact Hin]; done).
    + rewrite !count_cons, !count_app, !count_cons, !count_app, !count_cons, !Qr, !Qe by done.
      cbn. lia.
  - eexists. split; [exact T|]. split.
    + intros ev [<-|[Hin|[<-|[Hin|[<-|[]]]%in_app_or]]%in_app_or];
        try (by right); left; (eapply quiet_In; [|exact Hin]; done).
    + rewrite !count_cons, !count_app, !count_cons, !count_app, !count_cons, !Qr, !Qe by done.
      cbn. lia.
Qed.

Lemma In_pass_events ev i d output_path aspect_ratio stylist_output verdict inner inner' :
  quiet inner → quiet inner' →
  In ev (pass_events i d output_path aspect_ratio stylist_output verdict inner inner') →
  ev = CallGenerateImage i (quality_prefix +:+ d) output_path aspect_ratio
  ∨ ev = CallRunCritic i output_path stylist_output
  ∨ ev = ReturnRunCritic i verdict
  ∨ iteration_of ev = None.
Proof.
  intros Q1 Q2 [<-|[Hin|[<-|[Hin|[<-|[]]]%in_app_or]]%in_app_or]; eauto using quiet_In.
Qed.

Lemma body_spec_ret output_path aspect_ratio i v s fl v' s' :
  body_spec output_path aspect_ratio i v s (Ret (fl, v')) s' →
  (∃ d inner message,
      fl = Break ∧ v' = record_error message v ∧ quiet inner
      ∧ current_description v = JStr d
      ∧ trace s' = trace s
          ++ CallGenerateImage i (quality_prefix +:+ d) output_path aspect_ratio :: inner)
  ∨ (∃ d inner inner' verdict l sc,
      (fl, v') = decision i verdict (record_verdict verdict l v)
      ∧ quiet inner ∧ quiet inner'
      ∧ current_description v = JStr d
      ∧ results v !! "iterations" = Some (JList l)
      ∧ get verdict "scores" (JObj ∅) = JObj sc
      ∧ trace s' = trace s
          ++ pass_events i d output_path aspect_ratio (stylist_output v) verdict inner inner').
Proof.
  intros Hb. remember (Ret (fl, v')) as o eqn:Ho.
  destruct Hb as [e Hd|d inner o s' Hd Q1 Hf T|d inner msg s' Hd Q1 T
                 |d inner inner' o s' Hd Q1 Q2 Hf T
                 |d inner inner' verdict o s' Hd Q1 Q2 Hf Hl T
                 |d inner inner' verdict l sc s' Hd Q1 Q2 Hl Hsc T];
    try done; try (subst o; done).
  - left. injection Ho as <- <-. by exists d, inner, msg.
  - right. injection Ho as Ho. by exists d, inner, inner', verdict, l, sc.
Qed.

Lemma body_spec_failed output_path aspect_ratio i v s o s' :
  body_spec output_path aspect_ratio i v s o s' → failed o →
  ∃ new, trace s' = trace s ++ new
         ∧ ((∀ j verdict, ¬ In (ReturnRunCritic j verdict) new)
            ∨ (∀ l, results v !! "iterations" ≠ Some (JList l))).
Proof.
  destruct 1 as [e Hd|d inner o s' Hd Q1 Hf T|d inner msg s' Hd Q1 T
                |d inner inner' o s' Hd Q1 Q2 Hf T
                |d inner inner' verdict o s' Hd Q1 Q2 Hf Hl T
                |d inner inner' verdict l sc s' Hd Q1 Q2 Hl Hsc T]; intros Hfail.
  - exists []. rewrite app_nil_r. split; [done|]. left. by intros ?? [].
  - eexists. split; [exact T|]. left.
    intros j w [?|Hin]; [done|]. by apply (quiet_In _ _ Q1) in Hin.
  - done.
  - eexists. split; [exact T|]. left.
    intros j w [?|[Hin|[?|Hin]]%in_app_or]; try done.
    + by apply (quiet_In _ _ Q1) in Hin.
    + by apply (quiet_In _ _ Q2) in Hin.
  - eexists. split; [exact T|]. by right.
  - by destruct (decision _ _ _).
Qed.

Lemma decision_continue i verdict v v1 :
  decision i verdict v = (Continue, v1) →
  ¬ final_verdict i verdict
  ∧ results v1 = results v
  ∧ current_description v1 = get verdict "revised_description" JNull.
Proof.
  unfold decision, final_verdict.
  destruct (primary_pass verdict); [done|].
  case_bool_decide; [done|].
  destruct (truthy _) eqn:E; [|done].
  intros [= <-]. split; [|done]. intros [?|[?|?]]; done.
Qed.

Lemma decision_break i verdict v v1 :
  decision i verdict v = (Break, v1) →
  final_verdict i verdict ∧ results v1 = closing i verdict (results v).
Proof.
  unfold decision, final_verdict, closing.
  destruct (primary_pass verdict); [intros [= <-]; eauto|].
  case_bool_decide; [intros [= <-]; eauto|].
  destruct (truthy _) eqn:E; [done|]. intros [= <-]; eauto.
Qed.

Lemma closing_accepted i verdict res :
  closing i verdict res !! "accepted" = Some (JBool true).
Proof.
  unfold closing, accept. destruct (primary_pass verdict); [|case_bool_decide];
    by simplify_map_eq.
Qed.

Lemma closing_final_scores i verdict res :
  closing i verdict res !! "final_scores" = Some (get verdict "scores" (JObj ∅)).
Proof.
  unfold closing, accept. destruct (primary_pass verdict); [|case_bool_decide];
    by simplify_map_eq.
Qed.

Lemma closing_iterations i verdict res :
  closing i verdict res !! "iterations" = res !! "iterations".
Proof.
  unfold closing, accept. destruct (primary_pass verdict); [|case_bool_decide];
    by simplify_map_eq.
Qed.

Lemma closing_other i verdict res k :
  k ≠ "accepted" → k ≠ "final_scores" → k ≠ "max_refinements_reached" →
  closing i verdict res !! k = res !! k.
Proof.
  intros. unfold closing, accept.
  destruct (primary_pass verdict); [|case_bool_decide]; by simplify_map_eq.
Qed.

Lemma closing_max_refinements i verdict res :
  primary_pass verdict = false → (MAX_REFINEMENTS ≤ i)%nat →
  closing i verdict res !! "max_refinements_reached" = Some (JBool true).
Proof.
  unfold closing. intros -> Hi. rewrite bool_decide_true by done. by simplify_map_eq.
Qed.

Section WithServices.
Variable svc : services.

Lemma attempt_body_trace prompt output_path model s o s' :
  attempt_body svc prompt output_path model s = (o, s') →
  ∃ reply,
    trace s' = trace s ++ [ApiImage model prompt reply]
    ∧ match attempt_error svc reply with
      | Some e => o = Raise e
      | None => o = Ret (png_path output_path)
      end.
Proof.
  unfold attempt_body, attempt_error, bind, get_trace, emit, raise, ret, write_file.
  cbn. intros H. exists (image_model svc (trace s) model prompt).
  destruct (image_model svc (trace s) model prompt) as [e|[|parts cands]];
    try (by inversion H).
  destruct (first_image parts) as [b|]; [|by inversion H].
  destruct (Image_open svc (data b)); by inversion H.
Qed.

Lemma retry_loop_step attempt rest prompt output_path model s :
  retry_loop svc (attempt :: rest) prompt output_path model s =
  match attempt_body svc prompt output_path model s with
  | (Ret p, s1) => (Ret (Some p), s1)
  | (Raise e, s1) =>
      if bool_decide (attempt < MAX_RETRIES - 1)%nat
      then retry_loop svc rest prompt output_path model
             (slept (RETRY_BASE_DELAY * 2 ^ Z.of_nat attempt) s1)
      else (Raise (exhausted_error e), s1)
  | (Exit c, s1) => (Exit c, s1)
  end.
Proof.
  cbn [retry_loop]. unfold try_except, bind at 1.
  destruct (attempt_body svc prompt output_path model s) as [[p|e|c] s1]; try done.
  case_bool_decide; done.
Qed.

Lemma get_api_key_cases s :
  (∃ key, GenerateImage.get_api_key svc s = (Ret key, s))
  ∨ GenerateImage.get_api_key svc s = (Exit 1, s).
Proof.
  unfold GenerateImage.get_api_key.
  destruct (GOOGLE_API_KEY svc) as [key|]; [|by right].
  destruct (truthy (JStr key)); [left; by eexists | by right].
Qed.


Lemma quiet_extends_refl (s : state) :
  ∃ inner, trace s = trace s ++ inner ∧ quiet inner.
Proof. exists []. rewrite app_nil_r. split; [done | constructor]. Qed.

Lemma retry_loop_quiet attempts prompt output_path model s o s' :
  retry_loop svc attempts prompt output_path model s = (o, s') →
  ∃ inner, trace s' = trace s ++ inner ∧ quiet inner.
Proof.
  revert s. induction attempts as [|attempt rest IH]; intros s Hrun.
  - inversion Hrun; subst. apply quiet_extends_refl.
  - rewrite retry_loop_step in Hrun.
    destruct (attempt_body svc prompt output_path model s) as [o0 s0] eqn:H0.
    apply attempt_body_trace in H0 as (r0 & T0 & _).
    assert (quiet [ApiImage model prompt r0]) as Q0 by by repeat constructor.
    destruct o0 as [p|e|c]; [inversion Hrun; subst; eauto | | inversion Hrun; subst; eauto].
    case_bool_decide; [|inversion Hrun; subst; eauto].
    apply IH in Hrun as (inner & T & Q). cbn [trace slept] in T.
    exists (([ApiImage model prompt r0] ++ [Sleep (RETRY_BASE_DELAY * 2 ^ Z.of_nat attempt)]) ++ inner).
    split; [by rewrite T, T0, <- !app_assoc|].
    apply quiet_app; [apply quiet_app|]; try done. by repeat constructor.
Qed.

Lemma generate_image_quiet prompt output_path model aspect_ratio s o s' :
  generate_image svc prompt output_path model aspect_ratio s = (o, s') →
  ∃ inner, trace s' = trace s ++ inner ∧ quiet inner.
Proof.
  unfold generate_image. intros Hrun.
  destruct (get_api_key_cases s) as [[key Hkey]|Hkey].
  - rewrite (bind_ret _ _ _ _ _ Hkey) in Hrun. by eapply retry_loop_quiet.
  - unfold bind in Hrun. rewrite Hkey in Hrun. inversion Hrun; subst.
    apply quiet_extends_refl.
Qed.

Lemma print_each_state l s : (print_each l s).2 = s.
Proof.
  induction l as [|x l IH]; [done|]. cbn [print_each]. unfold bind.
  destruct x; cbn; try done; by rewrite (surjective_pairing (print_each l s)), IH;
    destruct (print_each l s).1.
Qed.

Lemma print_suggestions_state result s : (print_suggestions result s).2 = s.
Proof.
  unfold print_suggestions. destruct (get _ "critic_suggestions" _); try done.
  apply print_each_state.
Qed.

Lemma run_critic_spec image_path methodology stylist_output i s o s' :
  run_critic svc image_path methodology stylist_output i s = (o, s') →
  ∃ inner, trace s' = trace s ++ inner ∧ quiet inner
           ∧ ∀ verdict, o = Ret verdict → ∃ sc, get verdict "scores" (JObj ∅) = JObj sc.
Proof.
  unfold run_critic. intros Hrun.
  assert (∀ o' : outcome dict, (o', s) = (o, s') → failed o' →
          ∃ inner, trace s' = trace s ++ inner ∧ quiet inner
           ∧ ∀ verdict, o = Ret verdict → ∃ sc, get verdict "scores" (JObj ∅) = JObj sc) as Hquit.
  { intros o' [= <- <-] Hf. destruct (quiet_extends_refl s) as (inner & ? & ?).
    exists inner. repeat split; try done. intros ? ->. done. }
  unfold bind at 1 in Hrun. unfold Critic.get_api_key in Hrun.
  destruct (GOOGLE_API_KEY svc) as [key|]; [|cbn in Hrun; by eapply Hquit].
  destruct (truthy (JStr key)); [|cbn in Hrun; by eapply Hquit].
  unfold ret at 1 in Hrun. unfold bind at 1, read_file at 1 in Hrun.
  destruct (fs s !! image_path) as [img|]; [|cbn in Hrun; by eapply Hquit].
  clear Hquit.
  unfold bind at 1, get_trace at 1, bind at 1, emit at 1 in Hrun.
  set (request := Build_critic_request _ _ _ _ _ _) in Hrun.
  remember (critic_model svc (trace s) request) as reply eqn:Hreply. clear Hreply.
  set (s1 := {| fs := fs s; trace := trace s ++ [ApiCritic request reply] |}) in Hrun.
  assert (∀ o' : outcome dict, (o', s1) = (o, s') → failed o' →
          ∃ inner, trace s' = trace s ++ inner ∧ quiet inner
           ∧ ∀ verdict, o = Ret verdict → ∃ sc, get verdict "scores" (JObj ∅) = JObj sc) as Hquit.
  { intros o' [= <- <-] Hf. exists [ApiCritic request reply].
    split; [done|]. split; [by repeat constructor|]. intros ? ->. done. }
  destruct reply as [e|[[| | | | |result]|]];
    try (unfold raise in Hrun; by eapply Hquit).
  unfold bind at 1, print_scores in Hrun.
  destruct (get (<["iteration":=JNum (Z.of_nat i)]> result) "scores" (JObj ∅))
    as [| | | | |sc] eqn:Hsc; try (unfold raise in Hrun; by eapply Hquit).
  unfold ret at 1, bind in Hrun.
  pose proof (print_suggestions_state (<["iteration":=JNum (Z.of_nat i)]> result) s1) as Hs.
  destruct (print_suggestions _ s1) as [[[]|e|c] s2]; cbn in Hs; subst s2;
    try (by eapply Hquit).
  inversion Hrun; subst. eexists. split; [reflexivity|].
  split; [by repeat constructor|]. intros ? [= <-]. eauto.
Qed.


Lemma evaluate_spec work_dir i critic_output v s :
  ∃ s', evaluate work_dir i critic_output v s = (Ret (decision i critic_output v), s')
        ∧ trace s' = trace s.
Proof.
  unfold evaluate, decision.
  destruct (primary_pass critic_output); [by eexists|].
  case_bool_decide; [by eexists|].
  destruct (truthy _); by eexists.
Qed.

Lemma append_iteration_cases results critic_output s :
  (∃ l, results !! "iterations" = Some (JList l)
        ∧ append_iteration results critic_output s
          = (Ret (<["iterations" := JList (l ++ [JObj critic_output])]> results), s))
  ∨ ((∀ l, results !! "iterations" ≠ Some (JList l))
     ∧ ∃ e, append_iteration results critic_output s = (Raise e, s)).
Proof.
  unfold append_iteration.
  destruct (results !! "iterations") as [[| | | |l|]|]; try (right; split; [done|by eexists]).
  left. by exists l.
Qed.

Lemma build_prompt_cases description aspect_ratio s :
  (∃ d, description = JStr d
        ∧ build_prompt description aspect_ratio s = (Ret (quality_prefix +:+ d), s))
  ∨ ((∀ d, description ≠ JStr d)
     ∧ ∃ e, build_prompt description aspect_ratio s = (Raise e, s)).
Proof.
  destruct description; try (right; split; [done|by eexists]).
  left. by eexists.
Qed.

Lemma loop_body_spec methodology output_path work_dir aspect_ratio i v s o s' :
  loop_body svc methodology output_path work_dir aspect_ratio i v s = (o, s') →
  body_spec output_path aspect_ratio i v s o s'.
Proof.
  unfold loop_body. intros Hrun.
  destruct (build_prompt_cases (current_description v) aspect_ratio s)
    as [(d & Hd & Hp)|(Hd & e & Hp)].
  2:{ unfold bind at 1 in Hrun. rewrite Hp in Hrun. inversion Hrun; subst.
      by constructor. }
  rewrite (bind_ret _ _ _ _ _ Hp) in Hrun.
  set (call := CallGenerateImage i (quality_prefix +:+ d) output_path aspect_ratio) in *.
  unfold bind at 1, try_except_RuntimeError, try_except, bind at 1, emit at 1,
    bind at 1 in Hrun.
  set (s0 := {| fs := fs s; trace := trace s ++ [call] |}) in Hrun.
  destruct (generate_image svc _ output_path DEFAULT_MODEL aspect_ratio s0)
    as [o1 s1] eqn:Hgen.
  apply generate_image_quiet in Hgen as (inner & T1 & Q1). cbn [trace s0] in T1.
  rewrite <- app_assoc in T1. cbn [app] in T1.
  destruct o1 as [result_path|e|c]; cbn [ret] in Hrun.
  - (* the image was rendered *)
    unfold bind at 1, emit at 1 in Hrun.
    set (s2 := {| fs := fs s1; trace := _ |}) in Hrun.
    unfold bind at 1 in Hrun.
    destruct (run_critic svc output_path methodology (stylist_output v) i s2)
      as [o3 s3] eqn:Hcr.
    apply run_critic_spec in Hcr as (inner' & T3 & Q3 & Hsc). cbn [trace s2] in T3.
    rewrite T1, <- !app_assoc in T3. cbn [app] in T3.
    destruct o3 as [verdict|e|c];
      [|inversion Hrun; subst; by eapply (body_critic_abort _ _ _ _ _ d inner inner')
       |inversion Hrun; subst; by eapply (body_critic_abort _ _ _ _ _ d inner inner')].
    destruct (Hsc verdict eq_refl) as [sc Hscores].
    unfold bind at 1, emit at 1, bind at 1, save_intermediate at 1, bind at 1,
      write_file at 1, ret at 1 in Hrun.
    set (s4 := {| fs := _; trace := _ |}) in Hrun.
    assert (trace s4 = trace s ++ call :: inner
              ++ CallRunCritic i output_path (stylist_output v) :: inner'
              ++ [ReturnRunCritic i verdict]) as T4.
    { cbn. rewrite T3, <- !app_assoc. cbn. by rewrite <- !app_assoc. }
    clearbody s4.
    destruct (append_iteration_cases (results v) verdict s4)
      as [(l & Hl & Ha)|(Hl & e & Ha)].
    + rewrite (bind_ret _ _ _ _ _ Ha) in Hrun.
      destruct (evaluate_spec work_dir i verdict (record_verdict verdict l v) s4)
        as (s5 & He & T5).
      unfold record_verdict in He. rewrite He in Hrun. inversion Hrun; subst.
      eapply (body_verdict _ _ _ _ _ d inner inner'); try done. by rewrite T5.
    + unfold bind at 1 in Hrun. rewrite Ha in Hrun. inversion Hrun; subst.
      by eapply (body_append_abort _ _ _ _ _ d inner inner').
  - (* generate_image raised *)
    destruct (decide (exn_cls e = RuntimeError)); cbn in Hrun;
      inversion Hrun; subst.
    + by eapply (body_render_error _ _ _ _ _ d inner).
    + by eapply (body_render_abort _ _ _ _ _ d inner).
  - cbn in Hrun. inversion Hrun; subst.
    by eapply (body_render_abort _ _ _ _ _ d inner).
Qed.


Lemma for_each_step {A V} (x : A) rest (body : A → V → M (flow * V)) v s :
  for_each (x :: rest) body v s =
  match body x v s with
  | (Ret (Break, v'), s') => (Ret v', s')
  | (Ret (Continue, v'), s') => for_each rest body v' s'
  | (Raise e, s') => (Raise e, s')
  | (Exit c, s') => (Exit c, s')
  end.
Proof.
  cbn [for_each]. unfold bind.
  by destruct (body x v s) as [[[[] v']|e|c] s'].
Qed.

(** Induction over the passes of the loop, each pass described by
    [body_spec]. *)
Lemma loop_ind methodology output_path work_dir aspect_ratio
    (P : nat → nat → loop_vars → state → outcome loop_vars → state → Prop) :
  (∀ a v s, P a 0%nat v s (Ret v) s) →
  (∀ a n v s v' s',
     body_spec output_path aspect_ratio a v s (Ret (Break, v')) s' →
     P a (S n) v s (Ret v') s') →
  (∀ a n v s (o : outcome (flow * loop_vars)) s' o',
     body_spec output_path aspect_ratio a v s o s' → failed o → failed o' →
     P a (S n) v s o' s') →
  (∀ a n v s v1 s1 o s',
     body_spec output_path aspect_ratio a v s (Ret (Continue, v1)) s1 →
     P (S a) n v1 s1 o s' → P a (S n) v s o s') →
  ∀ n a v s o s',
    for_each (seq a n) (loop_body svc methodology output_path work_dir aspect_ratio) v s
      = (o, s') →
    P a n v s o s'.
Proof.
  intros Hnil Hbreak Hfail Hnext. induction n as [|n IH]; intros a v s o s' Hrun.
  - inversion Hrun; subst. apply Hnil.
  - cbn [seq] in Hrun. rewrite for_each_step in Hrun.
    destruct (loop_body svc methodology output_path work_dir aspect_ratio a v s)
      as [ob sb] eqn:Hbody.
    apply loop_body_spec in Hbody.
    destruct ob as [[[] v1]|e|c].
    + eapply Hnext; [done|]. by apply IH.
    + inversion Hrun; subst. by apply Hbreak.
    + inversion Hrun; subst. by eapply Hfail.
    + inversion Hrun; subst. by eapply Hfail.
Qed.


Lemma for_each_counts methodology output_path work_dir aspect_ratio n a v s o s' :
  for_each (seq a n) (loop_body svc methodology output_path work_dir aspect_ratio) v s
    = (o, s') →
  ∃ new, trace s' = trace s ++ new
         ∧ (∀ i, count (is_render_of i) new
                 ≤ if bool_decide (a ≤ i < a + n)%nat then 1 else 0)%nat
         ∧ (count is_render new ≤ n)%nat
         ∧ (count is_evaluation new ≤ n)%nat.
Proof.
  assert (∀ i a xs,
            (∀ ev, In ev xs → iteration_of ev = None ∨ iteration_of ev = Some a) →
            (count is_render xs ≤ 1)%nat →
            (count (is_render_of i) xs ≤ if bool_decide (i = a) then 1 else 0)%nat)
    as Hone.
  { intros i b xs Htag Hr. case_bool_decide.
    - etrans; [|exact Hr]. apply count_le. by intros [].
    - rewrite count_none; [done|]. intros ev Hev.
      destruct (Htag ev Hev) as [Hn|Hs]; destruct ev; try done.
      cbn in Hs |- *. apply Nat.eqb_neq. congruence. }
  revert n a v s o s'.
  apply (loop_ind methodology output_path work_dir aspect_ratio
           (λ a n v s o s', ∃ new, trace s' = trace s ++ new
              ∧ (∀ i, count (is_render_of i) new
                      ≤ if bool_decide (a ≤ i < a + n)%nat then 1 else 0)%nat
              ∧ (count is_render new ≤ n)%nat
              ∧ (count is_evaluation new ≤ n)%nat)).
  - intros a v s. exists []. rewrite app_nil_r. repeat split; cbn; lia.
  - intros a n v s v' s' (new & T & Htag & Hr & He)%body_spec_events.
    exists new. split; [done|]. split; [|lia].
    intros i. specialize (Hone i a new Htag Hr).
    repeat case_bool_decide; lia.
  - intros a n v s o s' o' (new & T & Htag & Hr & He)%body_spec_events _ _.
    exists new. split; [done|]. split; [|lia].
    intros i. specialize (Hone i a new Htag Hr).
    repeat case_bool_decide; lia.
  - intros a n v s v1 s1 o s' (new & T & Htag & Hr & He)%body_spec_events
      (new' & T' & Hi' & Hr' & He').
    exists (new ++ new'). split; [by rewrite T', T, app_assoc|].
    rewrite !count_app. split; [|lia].
    intros i. rewrite count_app. specialize (Hone i a new Htag Hr).
    specialize (Hi' i). repeat case_bool_decide; lia.
Qed.


(** A verdict that ends the loop is the last event of the run, and the
    run returns with the verdict recorded and the results closed. *)
Lemma for_each_final_verdict methodology output_path work_dir aspect_ratio n a v s o s' :
  for_each (seq a n) (loop_body svc methodology output_path work_dir aspect_ratio) v s
    = (o, s') →
  ∃ new, trace s' = trace s ++ new
    ∧ (∀ ev j, In ev new → iteration_of ev = Some j → a ≤ j)%nat
    ∧ ((∃ l, results v !! "iterations" = Some (JList l)) →
       ∀ i verdict,
         In (ReturnRunCritic i verdict) new →
         final_verdict i verdict →
         ∃ v' l,
           o = Ret v'
           ∧ ends_with_verdict new i verdict
           ∧ results v' = closing i verdict
               (<["iterations" := JList (l ++ [JObj verdict])]> (results v))).
Proof.
  revert n a v s o s'.
  apply (loop_ind methodology output_path work_dir aspect_ratio
    (λ a n v s o s',
       ∃ new, trace s' = trace s ++ new
         ∧ (∀ ev j, In ev new → iteration_of ev = Some j → a ≤ j)%nat
         ∧ ((∃ l, results v !! "iterations" = Some (JList l)) →
            ∀ i verdict,
              In (ReturnRunCritic i verdict) new →
              final_verdict i verdict →
              ∃ v' l,
                o = Ret v'
                ∧ ends_with_verdict new i verdict
                ∧ results v' = closing i verdict
                    (<["iterations" := JList (l ++ [JObj verdict])]> (results v))))).
  - intros a v s. exists []. rewrite app_nil_r. split; [done|].
    split; [by intros ?? []|by intros _ ?? []].
  - (* the pass ends the loop *)
    intros a n v s v' s' Hb.
    destruct (body_spec_events _ _ _ _ _ _ _ Hb) as (new & T & Htag & _).
    exists new. split; [done|]. split.
    { intros ev j Hin Hj. destruct (Htag ev Hin); [congruence|]. 
      assert (j = a) as -> by congruence. done. }
    intros _ i verdict Hin Hfin.
    apply body_spec_ret in Hb
      as [(d & inner & msg & _ & _ & Q & _ & T')
         |(d & inner & inner' & w & l & sc & Hdec & Q1 & Q2 & _ & Hl & _ & T')];
      rewrite T' in T; apply app_inv_head in T; subst new.
    + destruct Hin as [?|Hin]; [done|]. by apply (quiet_In _ _ Q) in Hin.
    + apply In_pass_events in Hin as [?|[?|[[= -> ->]|?]]]; try done.
      symmetry in Hdec. apply decision_break in Hdec as [_ Hres].
      exists v', l. split; [done|]. split; [|exact Hres].
      exists (CallGenerateImage a (quality_prefix +:+ d) output_path aspect_ratio
                :: inner ++ CallRunCritic a output_path (stylist_output v) :: inner').
      split; [unfold pass_events; cbn; by rewrite <- app_assoc|].
      intros w' [?|[Hin|[?|Hin]]%in_app_or]; try done.
      * by apply (quiet_In _ _ Q1) in Hin.
      * by apply (quiet_In _ _ Q2) in Hin.
  - (* the pass fails *)
    intros a n v s o s' o' Hb Hf _.
    destruct (body_spec_events _ _ _ _ _ _ _ Hb) as (new & T & Htag & _).
    exists new. split; [done|]. split.
    { intros ev j Hin Hj. destruct (Htag ev Hin); [congruence|]. 
      assert (j = a) as -> by congruence. done. }
    intros [l Hl] i verdict Hin _.
    apply body_spec_failed in Hb as (new' & T' & Hno); [|done].
    rewrite T' in T. apply app_inv_head in T. subst new'.
    destruct Hno as [Hno|Hno]; [by apply Hno in Hin | by apply Hno in Hl].
  - (* the pass hands over to the next one *)
    intros a n v s v1 s1 o s' Hb (rest & T & Hrange & IH).
    destruct (body_spec_events _ _ _ _ _ _ _ Hb) as (new & Tb & Htag & _).
    apply body_spec_ret in Hb
      as [(d & inner & msg & ? & _)
         |(d & inner & inner' & w & l & sc & Hdec & Q1 & Q2 & _ & Hl & _ & T')];
      [done|].
    rewrite T' in Tb. apply app_inv_head in Tb. subst new.
    symmetry in Hdec. apply decision_continue in Hdec as (Hnot & Hres & _).
    eexists. split; [by rewrite T, T', <- app_assoc|]. split.
    { intros ev j [Hin|Hin]%in_app_or Hj.
      - destruct (Htag ev Hin); [congruence|]. assert (j = a) as -> by congruence. done.
      - specialize (Hrange ev j Hin Hj). lia. }
    intros _ i verdict Hin Hfin.
    apply in_app_or in Hin as [Hin|Hin].
    + apply In_pass_events in Hin as [?|[?|[[= -> ->]|?]]]; done.
    + assert (∃ l1, results v1 !! "iterations" = Some (JList l1)) as Hl1.
      { rewrite Hres. eexists. cbn. apply lookup_insert_eq. }
      destruct (IH Hl1 i verdict Hin Hfin) as (v' & l' & -> & (pre & -> & Hpre) & Hclose).
      eexists v', _. split; [done|]. split.
      * eexists. split; [by rewrite app_assoc|].
        intros w' [Hin'|Hin']%in_app_or; [|by apply Hpre in Hin'].
        destruct (Htag _ Hin') as [?|[= ->]]; [done|].
        specialize (Hrange _ a Hin eq_refl). lia.
      * rewrite Hclose, Hres. cbn. by rewrite insert_insert_eq.
Qed.

Lemma loop_cases methodology output_path work_dir results stylist_output s o s' :
  visualizer_critic_loop svc methodology output_path work_dir results stylist_output s
    = (o, s') →
  (failed o ∧ s' = s)
  ∨ ∃ d0 aspect_ratio o_loop,
      for_each (seq 1 MAX_REFINEMENTS)
        (loop_body svc methodology output_path work_dir aspect_ratio)
        {| results := results; current_description := d0;
           stylist_output := stylist_output |} s = (o_loop, s')
      ∧ match o_loop with
        | Ret v => o = Ret (summary svc output_path work_dir (Orchestrate.results v))
        | Raise e => o = Raise e
        | Exit c => o = Exit c
        end.
Proof.
  unfold visualizer_critic_loop. intros Hrun.
  destruct (stylist_output !! "styled_description") as [d0|];
    [|inversion Hrun; subst; by left].
  unfold bind at 1 in Hrun.
  destruct (determine_aspect_ratio _ s) as [oa sa] eqn:Ha.
  assert (sa = s) as ->.
  { unfold determine_aspect_ratio in Ha.
    destruct (get results "visual_intent" (JStr "")); by inversion Ha. }
  destruct oa as [aspect_ratio|e|c]; [|inversion Hrun; subst; by left..].
  right. exists d0, aspect_ratio.
  unfold bind in Hrun. change (range 1 (MAX_REFINEMENTS + 1)) with (seq 1 MAX_REFINEMENTS) in Hrun.
  destruct (for_each _ _ _ s) as [[v|e|c] sl]; inversion Hrun; subst; by eexists.
Qed.

(** C3: in every run of phases 4 and 5 the renderer is called at most
    once in each iteration, and the run makes at most [MAX_REFINEMENTS] = 3
    calls of the renderer and at most 3 calls of the critic. *)
Theorem render_once_per_iteration methodology output_path work_dir results
    stylist_output s :
  let '(o, s') :=
    visualizer_critic_loop svc methodology output_path work_dir results
      stylist_output s in
  ∃ new, trace s' = trace s ++ new
         ∧ (∀ i, count (is_render_of i) new ≤ 1)%nat
         ∧ (count is_render new ≤ MAX_REFINEMENTS)%nat
         ∧ (count is_evaluation new ≤ MAX_REFINEMENTS)%nat.
Proof.
  destruct (visualizer_critic_loop _ _ _ _ _ _ s) as [o s'] eqn:Hrun.
  apply loop_cases in Hrun as [[_ ->]|(d0 & ar & o_loop & Hloop & _)].
  - exists []. rewrite app_nil_r. repeat split; cbn; lia.
  - apply for_each_counts in Hloop as (new & T & Hi & Hr & He).
    exists new. repeat split; try done.
    intros i. specialize (Hi i). case_bool_decide; lia.
Qed.


Lemma summary_lookup output_path work_dir r k :
  k ≠ "work_dir" → k ≠ "elapsed_seconds" → k ≠ "output_path" →
  summary svc output_path work_dir r !! k = r !! k.
Proof. intros. unfold summary. by simplify_map_eq. Qed.

Lemma loop_final_verdict methodology output_path work_dir results stylist_output
    s o s' new i verdict :
  visualizer_critic_loop svc methodology output_path work_dir results stylist_output s
    = (o, s') →
  (∃ l, results !! "iterations" = Some (JList l)) →
  trace s' = trace s ++ new →
  In (ReturnRunCritic i verdict) new →
  final_verdict i verdict →
  ∃ l,
    o = Ret (summary svc output_path work_dir
               (closing i verdict
                  (<["iterations" := JList (l ++ [JObj verdict])]> results)))
    ∧ ends_with_verdict new i verdict.
Proof.
  intros Hrun Hl T Hin Hfin.
  apply loop_cases in Hrun as [[_ ->]|(d0 & ar & o_loop & Hloop & Ho)].
  { rewrite <- (app_nil_r (trace s)) in T at 1. apply app_inv_head in T. by subst. }
  apply for_each_final_verdict in Hloop as (new' & T' & _ & Hspec).
  rewrite T' in T. apply app_inv_head in T. subst new'.
  destruct (Hspec Hl i verdict Hin Hfin) as (v' & l & -> & Hends & Hclose).
  exists l. by rewrite Ho, Hclose.
Qed.

(** C5: a verdict with [primary_pass] false and no revised description
    does not stop the run with an exception.  The run returns its results
    with [accepted] set, and the verdict is the last event of the run: no
    render call follows it. *)
Theorem missing_revision_accepts_current methodology output_path work_dir results
    stylist_output s o s' new i verdict :
  visualizer_critic_loop svc methodology output_path work_dir results stylist_output s
    = (o, s') →
  (∃ l, results !! "iterations" = Some (JList l)) →
  trace s' = trace s ++ new →
  In (ReturnRunCritic i verdict) new →
  primary_pass verdict = false →
  revision_null verdict →
  ∃ r,
    o = Ret r
    ∧ r !! "accepted" = Some (JBool true)
    ∧ ends_with_verdict new i verdict.
Proof.
  intros Hrun Hl T Hin Hpp Hnull.
  destruct (loop_final_verdict _ _ _ _ _ _ _ _ _ _ _ Hrun Hl T Hin)
    as (l & -> & Hends).
  { right. right. unfold revision_null in Hnull. by rewrite Hnull. }
  eexists. split; [done|]. split; [|done].
  rewrite summary_lookup by done. apply closing_accepted.
Qed.

(** C4, as the code has it: a verdict that fails the primary test on the
    last iteration ends the run with [max_refinements_reached] set, the
    scores of the image just evaluated as final scores, and [accepted] set
    to [True]. *)
Theorem max_refinements_accepts_best methodology output_path work_dir results
    stylist_output s o s' new verdict :
  visualizer_critic_loop svc methodology output_path work_dir results stylist_output s
    = (o, s') →
  (∃ l, results !! "iterations" = Some (JList l)) →
  trace s' = trace s ++ new →
  In (ReturnRunCritic MAX_REFINEMENTS verdict) new →
  primary_pass verdict = false →
  ∃ r,
    o = Ret r
    ∧ r !! "max_refinements_reached" = Some (JBool true)
    ∧ r !! "accepted" = Some (JBool true)
    ∧ r !! "final_scores" = Some (get verdict "scores" (JObj ∅))
    ∧ ends_with_verdict new MAX_REFINEMENTS verdict.
Proof.
  intros Hrun Hl T Hin Hpp.
  destruct (loop_final_verdict _ _ _ _ _ _ _ _ _ _ _ Hrun Hl T Hin)
    as (l & -> & Hends); [right; by left|].
  eexists. split; [done|].
  rewrite !summary_lookup by done.
  split; [by apply closing_max_refinements|].
  split; [apply closing_accepted|]. split; [apply closing_final_scores|done].
Qed.

(** C10, as the code has it: a response that breaks the pairing of
    [primary_pass] and [revised_description] is consumed as data.  The run
    returns normally, the verdict goes into the history, and the image is
    recorded as accepted with the verdict's scores. *)
Theorem pairing_violation_is_consumed methodology output_path work_dir results
    stylist_output s o s' new i verdict :
  visualizer_critic_loop svc methodology output_path work_dir results stylist_output s
    = (o, s') →
  (∃ l, results !! "iterations" = Some (JList l)) →
  trace s' = trace s ++ new →
  In (ReturnRunCritic i verdict) new →
  (primary_pass verdict = false ∧ revision_null verdict)
  ∨ (primary_pass verdict = true ∧ ¬ revision_null verdict) →
  ∃ r l,
    o = Ret r
    ∧ r !! "iterations" = Some (JList (l ++ [JObj verdict]))
    ∧ r !! "accepted" = Some (JBool true)
    ∧ r !! "final_scores" = Some (get verdict "scores" (JObj ∅))
    ∧ r !! "error" = results !! "error".
Proof.
  intros Hrun Hl T Hin Hbad.
  destruct (loop_final_verdict _ _ _ _ _ _ _ _ _ _ _ Hrun Hl T Hin)
    as (l & -> & _).
  { destruct Hbad as [[_ Hnull]|[Hpp _]]; [|by left].
    right. right. unfold revision_null in Hnull. by rewrite Hnull. }
  eexists _, l. split; [done|].
  rewrite !summary_lookup by done.
  split; [rewrite closing_iterations; by simplify_map_eq|].
  split; [apply closing_accepted|]. split; [apply closing_final_scores|].
  rewrite closing_other by done. by simplify_map_eq.
Qed.


(** The render call of a pass: it is made with the current description
    behind the quality preamble, and it is made whenever the description
    is a string. *)
Lemma body_spec_calls output_path aspect_ratio i v s o s' :
  body_spec output_path aspect_ratio i v s o s' →
  ∃ new, trace s' = trace s ++ new
    ∧ (∀ ev, In ev new → iteration_of ev = None ∨ iteration_of ev = Some i)
    ∧ (∀ j p op ar, In (CallGenerateImage j p op ar) new →
         ∃ d, current_description v = JStr d ∧ p = quality_prefix +:+ d)
    ∧ (∀ d, current_description v = JStr d →
         In (CallGenerateImage i (quality_prefix +:+ d) output_path aspect_ratio) new).
Proof.
  intros Hb. destruct (body_spec_events _ _ _ _ _ _ _ Hb) as (new & T & Htag & _).
  exists new. split; [done|]. split; [done|].
  destruct Hb as [e Hd|d inner o s' Hd Q1 Hf T'|d inner msg s' Hd Q1 T'
                 |d inner inner' o s' Hd Q1 Q2 Hf T'
                 |d inner inner' verdict o s' Hd Q1 Q2 Hf Hl T'
                 |d inner inner' verdict l sc s' Hd Q1 Q2 Hl Hsc T'].
  - split; [|intros d Hd'; by apply Hd in Hd'].
    rewrite <- (app_nil_r (trace s)) in T at 1. apply app_inv_head in T. by subst.
  - rewrite T' in T. apply app_inv_head in T. subst new. split.
    + intros j p op ar [[= <- <- <- <-]|Hin]; [by exists d|].
      by apply (quiet_In _ _ Q1) in Hin.
    + intros d' Hd'. rewrite Hd in Hd'. injection Hd' as <-. by left.
  - rewrite T' in T. apply app_inv_head in T. subst new. split.
    + intros j p op ar [[= <- <- <- <-]|Hin]; [by exists d|].
      by apply (quiet_In _ _ Q1) in Hin.
    + intros d' Hd'. rewrite Hd in Hd'. injection Hd' as <-. by left.
  - rewrite T' in T. apply app_inv_head in T. subst new. split.
    + intros j p op ar [[= <- <- <- <-]|[Hin|[?|Hin]]%in_app_or]; [by exists d| |done|].
      * by apply (quiet_In _ _ Q1) in Hin.
      * by apply (quiet_In _ _ Q2) in Hin.
    + intros d' Hd'. rewrite Hd in Hd'. injection Hd' as <-. by left.
  - rewrite T' in T. apply app_inv_head in T. subst new. split.
    + intros j p op ar Hin.
      apply (In_pass_events _ i d output_path aspect_ratio (stylist_output v) verdict)
        in Hin as [[= -> -> -> ->]|[?|[?|?]]]; try done. by exists d.
    + intros d' Hd'. rewrite Hd in Hd'. injection Hd' as <-. by left.
  - rewrite T' in T. apply app_inv_head in T. subst new. split.
    + intros j p op ar Hin.
      apply (In_pass_events _ i d output_path aspect_ratio (stylist_output v) verdict)
        in Hin as [[= -> -> -> ->]|[?|[?|?]]]; try done. by exists d.
    + intros d' Hd'. rewrite Hd in Hd'. injection Hd' as <-. by left.
Qed.


Lemma get_is_str (d : dict) k x : get d k JNull = JStr x → d !! k = Some (JStr x).
Proof. unfold get. destruct (d !! k); cbn; congruence. Qed.

(** How the description travels from a verdict to the next render. *)
Lemma for_each_revision methodology output_path work_dir aspect_ratio n a v s o s' :
  for_each (seq a n) (loop_body svc methodology output_path work_dir aspect_ratio) v s
    = (o, s') →
  ∃ new, trace s' = trace s ++ new
    ∧ (∀ ev j, In ev new → iteration_of ev = Some j → a ≤ j < a + n)%nat
    ∧ (∀ p op ar, In (CallGenerateImage a p op ar) new →
         ∃ d, current_description v = JStr d ∧ p = quality_prefix +:+ d)
    ∧ (∀ d, (0 < n)%nat → current_description v = JStr d →
         In (CallGenerateImage a (quality_prefix +:+ d) output_path aspect_ratio) new)
    ∧ (∀ i verdict p op ar,
         In (ReturnRunCritic i verdict) new →
         In (CallGenerateImage (S i) p op ar) new →
         ∃ B, verdict !! "revised_description" = Some (JStr B)
              ∧ p = quality_prefix +:+ B)
    ∧ ((∃ l, results v !! "iterations" = Some (JList l)) →
       (a + n = S MAX_REFINEMENTS)%nat →
       ∀ i verdict B,
         In (ReturnRunCritic i verdict) new →
         primary_pass verdict = false → (i < MAX_REFINEMENTS)%nat →
         verdict !! "revised_description" = Some (JStr B) → B ≠ "" →
         In (CallGenerateImage (S i) (quality_prefix +:+ B) output_path aspect_ratio) new).
Proof.
  revert n a v s o s'.
  apply (loop_ind methodology output_path work_dir aspect_ratio
    (λ a n v s o s', ∃ new, trace s' = trace s ++ new
    ∧ (∀ ev j, In ev new → iteration_of ev = Some j → a ≤ j < a + n)%nat
    ∧ (∀ p op ar, In (CallGenerateImage a p op ar) new →
         ∃ d, current_description v = JStr d ∧ p = quality_prefix +:+ d)
    ∧ (∀ d, (0 < n)%nat → current_description v = JStr d →
         In (CallGenerateImage a (quality_prefix +:+ d) output_path aspect_ratio) new)
    ∧ (∀ i verdict p op ar,
         In (ReturnRunCritic i verdict) new →
         In (CallGenerateImage (S i) p op ar) new →
         ∃ B, verdict !! "revised_description" = Some (JStr B)
              ∧ p = quality_prefix +:+ B)
    ∧ ((∃ l, results v !! "iterations" = Some (JList l)) →
       (a + n = S MAX_REFINEMENTS)%nat →
       ∀ i verdict B,
         In (ReturnRunCritic i verdict) new →
         primary_pass verdict = false → (i < MAX_REFINEMENTS)%nat →
         verdict !! "revised_description" = Some (JStr B) → B ≠ "" →
         In (CallGenerateImage (S i) (quality_prefix +:+ B) output_path aspect_ratio) new))).
  - intros a v s. exists []. rewrite app_nil_r. split; [done|].
    repeat split; try (by intros; lia); try (by intros ????? []); try done.
  - (* the pass ends the loop *)
    intros a n v s v' s' Hb.
    destruct (body_spec_calls _ _ _ _ _ _ _ Hb) as (new & T & Htag & Hcall & Hmade).
    exists new. split; [done|].
    assert (∀ ev j, In ev new → iteration_of ev = Some j → j = a) as Hsame.
    { intros ev j Hin Hj. destruct (Htag ev Hin); congruence. }
    split; [intros ev j Hin Hj; rewrite (Hsame ev j Hin Hj); lia|].
    split; [eauto|]. split; [eauto|]. split.
    + intros i verdict p op ar Hr Hc.
      pose proof (Hsame _ i Hr eq_refl). pose proof (Hsame _ (S i) Hc eq_refl). lia.
    + intros _ _ i verdict B Hr Hpp Hi HB HBne.
      apply body_spec_ret in Hb
        as [(d & inner & msg & _ & _ & Q & _ & T')
           |(d & inner & inner' & w & l & sc & Hdec & Q1 & Q2 & _ & Hl & _ & T')];
        rewrite T' in T; apply app_inv_head in T; subst new.
      * destruct Hr as [?|Hin]; [done|]. by apply (quiet_In _ _ Q) in Hin.
      * apply In_pass_events in Hr as [?|[?|[[= -> ->]|?]]]; try done.
        symmetry in Hdec. apply decision_break in Hdec as [[?|[?|Hrev]] _];
          [congruence|lia|].
        unfold get in Hrev. rewrite HB in Hrev. cbn in Hrev. by destruct B.
  - (* the pass fails *)
    intros a n v s o s' o' Hb Hf _.
    destruct (body_spec_calls _ _ _ _ _ _ _ Hb) as (new & T & Htag & Hcall & Hmade).
    exists new. split; [done|].
    assert (∀ ev j, In ev new → iteration_of ev = Some j → j = a) as Hsame.
    { intros ev j Hin Hj. destruct (Htag ev Hin); congruence. }
    split; [intros ev j Hin Hj; rewrite (Hsame ev j Hin Hj); lia|].
    split; [eauto|]. split; [eauto|]. split.
    + intros i verdict p op ar Hr Hc.
      pose proof (Hsame _ i Hr eq_refl). pose proof (Hsame _ (S i) Hc eq_refl). lia.
    + intros [l Hl] _ i verdict B Hr _ _ _ _.
      apply body_spec_failed in Hb as (new' & T' & [Hno|Hno]); [| |done].
      * rewrite T' in T. apply app_inv_head in T. subst new'. by apply Hno in Hr.
      * by apply Hno in Hl.
  - (* the pass hands a revision to the next one *)
    intros a n v s v1 s1 o s' Hb (rest & T & Hrange & Hfirst & Hmade' & Hnext & Hex).
    destruct (body_spec_calls _ _ _ _ _ _ _ Hb) as (new & Tb & Htag & Hcall & Hmade).
    assert (∀ ev j, In ev new → iteration_of ev = Some j → j = a) as Hsame.
    { intros ev j Hin Hj. destruct (Htag ev Hin); congruence. }
    apply body_spec_ret in Hb
      as [(d & inner & msg & ? & _)
         |(d & inner & inner' & w & l & sc & Hdec & Q1 & Q2 & _ & Hl & _ & T')];
      [done|].
    rewrite T' in Tb. apply app_inv_head in Tb. subst new.
    symmetry in Hdec. apply decision_continue in Hdec as (Hnot & Hres & Hcur).
    exists (pass_events a d output_path aspect_ratio (stylist_output v) w inner inner'
              ++ rest).
    split; [by rewrite T, T', <- app_assoc|].
    split; [|split; [|split; [|split]]].
    + intros ev j [Hin|Hin]%in_app_or Hj.
      * rewrite (Hsame ev j Hin Hj). lia.
      * specialize (Hrange ev j Hin Hj). lia.
    + intros p op ar [Hin|Hin]%in_app_or; [eauto|].
      specialize (Hrange _ a Hin eq_refl). lia.
    + intros d' _ Hd'. apply in_or_app. left. eauto.
    + intros i verdict p op ar [Hr|Hr]%in_app_or [Hc|Hc]%in_app_or.
      * pose proof (Hsame _ i Hr eq_refl). pose proof (Hsame _ (S i) Hc eq_refl). lia.
      * apply In_pass_events in Hr as [?|[?|[[= -> ->]|?]]]; try done.
        destruct (Hfirst p op ar Hc) as (B & HB & ->).
        exists B. split; [|done]. apply get_is_str. by rewrite <- Hcur.
      * pose proof (Hsame _ (S i) Hc eq_refl).
        specialize (Hrange _ i Hr eq_refl). lia.
      * eapply Hnext; eassumption.
    + intros _ Hn i verdict B [Hr|Hr]%in_app_or Hpp Hi HB HBne; apply in_or_app; right.
      * apply In_pass_events in Hr as [?|[?|[[= -> ->]|?]]]; try done.
        apply Hmade'; [lia|]. rewrite Hcur. unfold get. by rewrite HB.
      * assert (∃ l1, results v1 !! "iterations" = Some (JList l1)) as Hl1.
        { rewrite Hres. eexists. cbn. apply lookup_insert_eq. }
        assert (S a + n = S MAX_REFINEMENTS)%nat as Hn1 by lia.
        exact (Hex Hl1 Hn1 i verdict B Hr Hpp Hi HB HBne).
Qed.


(** C6: the render call of iteration [i + 1] is built from the revised
    description [B] of the verdict of iteration [i] alone, as
    [quality_prefix + B], whatever the description before was; and when the
    verdict fails the primary test before the last iteration with a
    non-empty string [B], that call is made. *)
Theorem revision_replaces_description methodology output_path work_dir results
    stylist_output s o s' new i verdict :
  visualizer_critic_loop svc methodology output_path work_dir results stylist_output s
    = (o, s') →
  trace s' = trace s ++ new →
  In (ReturnRunCritic i verdict) new →
  (∀ prompt op ar,
      In (CallGenerateImage (S i) prompt op ar) new →
      ∃ B, verdict !! "revised_description" = Some (JStr B)
           ∧ prompt = quality_prefix +:+ B)
  ∧ (∀ B,
      (∃ l, results !! "iterations" = Some (JList l)) →
      primary_pass verdict = false → (i < MAX_REFINEMENTS)%nat →
      verdict !! "revised_description" = Some (JStr B) → B ≠ "" →
      ∃ ar, In (CallGenerateImage (S i) (quality_prefix +:+ B) output_path ar) new).
Proof.
  intros Hrun T Hin.
  apply loop_cases in Hrun as [[_ ->]|(d0 & ar & o_loop & Hloop & _)].
  { rewrite <- (app_nil_r (trace s)) in T at 1. apply app_inv_head in T. by subst. }
  apply for_each_revision in Hloop as (new' & T' & _ & _ & _ & Hnext & Hex).
  rewrite T' in T. apply app_inv_head in T. subst new'. split.
  - intros prompt op ar' Hc. by eapply Hnext.
  - intros B Hl Hpp Hi HB HBne. exists ar. by eapply Hex.
Qed.


Lemma bind_inv_ret {A B} (m : M A) (k : A → M B) s b s' :
  bind m k s = (Ret b, s') → ∃ a s1, m s = (Ret a, s1) ∧ k a s1 = (Ret b, s').
Proof.
  unfold bind. destruct (m s) as [[a|e|c] s1]; [eauto|done..].
Qed.

Lemma summarisable_insert k x (r : dict) :
  k ≠ "iterations" → k ≠ "final_scores" → summarisable r → summarisable (<[k := x]> r).
Proof.
  intros ?? [[l Hl] Hs]. split; [exists l|]; by rewrite lookup_insert_ne.
Qed.

Lemma summarisable_accept r verdict sc :
  get verdict "scores" (JObj ∅) = JObj sc → summarisable r → summarisable (accept r verdict).
Proof.
  intros Hsc [[l Hl] _]. unfold summarisable, accept. rewrite Hsc.
  simplify_map_eq. eauto.
Qed.

Lemma summarisable_closing i r verdict sc :
  get verdict "scores" (JObj ∅) = JObj sc →
  summarisable r → summarisable (closing i verdict r).
Proof.
  intros Hsc Hs. unfold closing.
  destruct (primary_pass verdict); [by eapply summarisable_accept|].
  case_bool_decide; [|by eapply summarisable_accept].
  apply summarisable_insert; [done..|]. by eapply summarisable_accept.
Qed.

Lemma for_each_summarisable methodology output_path work_dir aspect_ratio n a v s o s' :
  for_each (seq a n) (loop_body svc methodology output_path work_dir aspect_ratio) v s
    = (o, s') →
  summarisable (results v) →
  ∀ v', o = Ret v' →
        summarisable (results v') ∧ results v' !! "mode" = results v !! "mode".
Proof.
  revert n a v s o s'.
  apply (loop_ind methodology output_path work_dir aspect_ratio
    (λ a n v s o s', summarisable (results v) →
       ∀ v', o = Ret v' →
             summarisable (results v') ∧ results v' !! "mode" = results v !! "mode")).
  - by intros a v s Hs v' [= <-].
  - intros a n v s v' s' Hb Hs ? [= <-].
    apply body_spec_ret in Hb
      as [(d & inner & msg & _ & -> & _)
         |(d & inner & inner' & w & l & sc & Hdec & _ & _ & _ & Hl & Hsc & _)].
    + cbn. split; [by apply summarisable_insert|by simplify_map_eq].
    + symmetry in Hdec. apply decision_break in Hdec as [_ ->].
      assert (summarisable (results (record_verdict w l v))) as Hs'.
      { destruct Hs as [_ Hs]. split; cbn; [eexists|]; by simplify_map_eq. }
      split; [by eapply summarisable_closing|].
      rewrite closing_other by done. cbn. by rewrite lookup_insert_ne.
  - by intros a n v s o s' [] Hb Hf.
  - intros a n v s v1 s1 o s' Hb IH Hs v' ->.
    apply body_spec_ret in Hb
      as [(d & inner & msg & ? & _)
         |(d & inner & inner' & w & l & sc & Hdec & _ & _ & _ & Hl & Hsc & _)];
      [done|].
    symmetry in Hdec. apply decision_continue in Hdec as (_ & Hres & _).
    destruct (IH ltac:(rewrite Hres; destruct Hs as [_ Hs]; split; cbn;
                       [eexists|]; by simplify_map_eq) v' eq_refl) as [Hs' Hm].
    split; [done|]. rewrite Hm, Hres. cbn. by simplify_map_eq.
Qed.

Lemma print_summary_ok (r : dict) s :
  summarisable r ∨ r !! "mode" = Some (JStr "plot") →
  print_summary r s = (Ret tt, s).
Proof.
  unfold print_summary, get. intros [[[l Hl] Hs]|Hm].
  - rewrite Hl. cbn. destruct (str_eq _ _); [|done].
    destruct Hs as [->|[sc ->]]; cbn; [done|]. by destruct (negb _).
  - by rewrite Hm.
Qed.

Lemma loop_summarisable methodology output_path work_dir results stylist_output s r s' :
  visualizer_critic_loop svc methodology output_path work_dir results stylist_output s
    = (Ret r, s') →
  summarisable results → summarisable r.
Proof.
  intros Hrun Hs.
  apply loop_cases in Hrun as [[[] _]|(d0 & ar & o_loop & Hloop & Ho)].
  destruct o_loop as [v'| |]; [|done..]. injection Ho as ->.
  destruct (for_each_summarisable _ _ _ _ _ _ _ _ _ _ Hloop Hs v' eq_refl) as [Hs' _].
  unfold summary. by do 3 (apply summarisable_insert; [done..|]).
Qed.

Lemma run_diagram_pipeline_summarisable params methodology caption output_path
    work_dir references_dir s r s' :
  run_diagram_pipeline_with svc params methodology caption output_path work_dir
    references_dir s = (Ret r, s') →
  summarisable r.
Proof.
  unfold run_diagram_pipeline_with. intros Hrun.
  repeat (apply bind_inv_ret in Hrun as (? & ? & _ & Hrun)).
  eapply loop_summarisable; [exact Hrun|].
  do 2 (apply summarisable_insert; [done..|]).
  split; [exists []|left]; by simplify_map_eq.
Qed.

Lemma run_plot_pipeline_mode data_path intent output_path work_dir s r s' :
  run_plot_pipeline svc data_path intent output_path work_dir s = (Ret r, s') →
  r !! "mode" = Some (JStr "plot").
Proof.
  unfold run_plot_pipeline. cbn zeta. intros Hrun.
  destruct data_path as [data_path|];
    [|unfold ret in Hrun; injection Hrun as <- _; by simplify_map_eq].
  apply bind_inv_ret in Hrun as (present & s1 & _ & Hrun).
  destruct (_ && _);
    [|unfold ret in Hrun; injection Hrun as <- _; by simplify_map_eq].
  unfold try_except, bind, ret in Hrun.
  destruct (plot_main svc data_path output_path s1) as [[[]|e|c] s2];
    [injection Hrun as <- _; by simplify_map_eq
    |injection Hrun as <- _; by simplify_map_eq
    |done].
Qed.

(** Whatever [main_dispatch] returns, [main] saves and prints without
    failing. *)
Lemma main_returns params args s results s1 :
  main_dispatch svc params args s = (Ret results, s1) →
  ∃ s', main_with svc params args s = (Ret tt, s').
Proof.
  intros Hd. unfold main_with. rewrite (bind_ret _ _ _ _ _ Hd).
  unfold bind at 1, save_intermediate, bind at 1, write_file at 1, ret at 1.
  eexists. apply print_summary_ok.
  unfold main_dispatch in Hd. destruct (a_mode args).
  - apply bind_inv_ret in Hd as (methodology & s0 & _ & Hd). left.
    by eapply run_diagram_pipeline_summarisable.
  - destruct (negb _); [done|]. right. by eapply run_plot_pipeline_mode.
Qed.


(** A keyword that names no declared parameter makes the binding fail
    with a [TypeError], whatever else is passed. *)
Lemma bind_keywords_undeclared fname params kwargs k :
  k ∈ kwargs.*1 → k ∉ p_name <$> params →
  ∀ bound, ∃ e, bind_keywords fname params bound kwargs = inl e
                ∧ exn_cls e = TypeError.
Proof.
  intros Hk Hno. induction kwargs as [|[k' v] rest IH]; intros bound.
  - by apply elem_of_nil in Hk.
  - cbn [bind_keywords]. case_bool_decide as Hdecl; [|by eexists].
    case_bool_decide; [by eexists|].
    apply IH. cbn in Hk. apply elem_of_cons in Hk as [->|Hk]; done.
Qed.

Lemma bind_arguments_undeclared fname params args kwargs k :
  k ∈ kwargs.*1 → k ∉ p_name <$> params →
  ∃ e, bind_arguments fname params args kwargs = inl e ∧ exn_cls e = TypeError.
Proof.
  intros Hk Hno. unfold bind_arguments.
  destruct (bind_keywords_undeclared fname params kwargs k Hk Hno
              (bind_positional params args)) as (e & -> & He).
  by exists e.
Qed.

(** C1: every call of [run_diagram_pipeline] raises the [TypeError] of
    the call on line 98, [run_retriever] being declared without a
    [references_dir] parameter; the state is left as it was: no file is
    written and no stage is called.  The same holds for any declaration of
    [run_retriever] that has no parameter of that name. *)
Theorem run_diagram_pipeline_type_error methodology caption output_path work_dir
    references_dir s :
  run_diagram_pipeline svc methodology caption output_path work_dir references_dir s
  = (Raise (Exn TypeError
              "run_retriever() got an unexpected keyword argument 'references_dir'"
              None),
     s)
  ∧ ∀ params,
      "references_dir" ∉ p_name <$> params →
      ∃ e, exn_cls e = TypeError
           ∧ run_diagram_pipeline_with svc params methodology caption output_path
               work_dir references_dir s = (Raise e, s).
Proof.
  split; [reflexivity|]. intros params Hno.
  destruct (bind_arguments_undeclared "run_retriever" params [JStr methodology]
              [("mode", JStr "diagram"); ("references_dir", references_dir)]
              "references_dir") as (e & Hbind & He); [set_solver|done|].
  exists e. split; [done|].
  unfold run_diagram_pipeline_with, call_run_retriever, bind. by rewrite Hbind.
Qed.

(** In diagram mode [main] therefore ends with exit status 1 as soon as
    it has a methodology text. *)
Lemma main_diagram_exit_status args s methodology :
  a_mode args = Diagram →
  a_methodology_file args = None →
  a_methodology args = Some methodology → methodology ≠ "" →
  exit_status (main svc args s).1 = 1.
Proof.
  intros Hm Hf Ht Hne. unfold main, main_with, main_dispatch, bind.
  rewrite Hm, Hf, Ht. cbn. by destruct methodology.
Qed.


End WithServices.
End Facts.

(** * The sample runs *)

Module Examples.
Import GenerateImage Critic Retriever Orchestrate Run Sample Facts.

(** Equations that hold by running the model. *)
Ltac run := vm_compute; reflexivity.

(** The k-th event of a computed trace. *)
Ltac event_at k := apply (nth_error_In _ k); run.

Lemma returned_ret (o : outcome dict) : is_ret o = true → o = Ret (returned o).
Proof. by destruct o. Qed.

(** The run returned its dictionary. *)
Ltac returns := apply returned_ret; run.

(** Nothing was in the trace before the run. *)
Ltac fresh_trace := cbn [initial trace app]; reflexivity.

Example lower_png : lower "Out.PNG" = "out.png".
Proof. run. Qed.

Example endswith_png :
  endswith "a/b.png" ".png" = true ∧ endswith "a/b.pdf" ".png" = false
  ∧ endswith "png" ".png" = false.
Proof. repeat split; run. Qed.

(** A run accepted on the first image makes one render call. *)
Example accepted_at_first_iteration :
  let run := loop_run images_ok (λ _, says pass_with_high_scores) in
  render_paths (trace run.2) = [(1%nat, "out.png")]
  ∧ run.1 = Ret (returned run.1)
  ∧ returned run.1 !! "accepted" = Some (JBool true).
Proof. split; [run|]. split; [returns|run]. Qed.

(** Three failed attempts: pauses of 2 and 4 seconds, and the error of the
    last attempt as the cause. *)
Example three_failures :
  let run := generate_image (world images_down (λ _, says pass_with_high_scores))
               "prompt" "out.png" DEFAULT_MODEL "16:9" initial in
  List.filter (λ ev, negb (is_api_image ev)) (trace run.2) = [Sleep 2; Sleep 4]
  ∧ count is_api_image (trace run.2) = 3%nat
  ∧ run.1 = Raise (exhausted_error
                     (Exn (OtherError "ServerError") "503 on call 2" None)).
Proof. repeat split; run. Qed.

(** With a [run_retriever] that takes [references_dir], a run that uses
    up its iterations ends with status 0. *)
Example exhausted_exit_status :
  let svc := world images_ok (λ k, says (fail_with_revision k)) in
  returned (main_dispatch svc accepting_params diagram_args initial).1
    !! "max_refinements_reached" = Some (JBool true)
  ∧ exit_status (main_with svc accepting_params diagram_args initial).1 = 0.
Proof. split; run. Qed.

(** A render failure is caught: the pipeline returns and the process
    ends with status 0 as well. *)
Example render_failure_exit_status :
  let svc := world images_down (λ _, says pass_with_high_scores) in
  is_Some (returned (main_dispatch svc accepting_params diagram_args initial).1
             !! "error")
  ∧ exit_status (main_with svc accepting_params diagram_args initial).1 = 0.
Proof. split; [|run]. apply (bool_decide_unpack _). run. Qed.

(** C9 fails on the code: a diagram run whose preconditions are all
    met, with the API key set, the methodology on the command line and
    services that would render and pass the first image, ends with exit
    status 1.  No [sys.exit] check fires and no stage or service is called:
    the process dies of the [TypeError] of the call on line 98, which
    [main] does not catch, with nothing written. *)
Theorem healthy_diagram_run_exits_nonzero :
  let svc := world images_ok (λ _, says pass_with_high_scores) in
  let run := main svc diagram_args initial in
  Observe.api_key_set svc = true
  ∧ a_methodology_file diagram_args = None
  ∧ a_methodology diagram_args
    = Some "An encoder maps X to Z; a decoder maps Z to X."
  ∧ run.1 = Raise (Exn TypeError
                     "run_retriever() got an unexpected keyword argument 'references_dir'"
                     None)
  ∧ exit_status run.1 = 1
  ∧ run.2 = initial.
Proof. repeat split; run. Qed.

(** C7 fails on the code: the second iteration writes its image over
    the first.  Both render calls are given [output_path]; the critic is
    shown "image 0" and then "image 1" from that one file, and only
    "image 1" is left on disk, while both verdicts are in the history. *)
Theorem second_render_overwrites_first :
  render_paths (trace run_two_iterations.2) = [(1%nat, "out.png"); (2%nat, "out.png")]
  ∧ images_shown (trace run_two_iterations.2) = [FPng "image 0"; FPng "image 1"]
  ∧ images_on_disk run_two_iterations.2 = [("out.png", FPng "image 1")]
  ∧ run_two_iterations.1 = Ret (returned run_two_iterations.1)
  ∧ returned run_two_iterations.1 !! "iterations"
    = Some (JList [JObj (verdict_of 1 (fail_with_revision 0));
                   JObj (verdict_of 2 pass_with_high_scores)]).
Proof. do 3 (split; [run|]). split; [returns|run]. Qed.


(** The verdict of the first iteration of [run_unflagged] meets the
    thresholds the prompt states. *)
Example unflagged_meets_thresholds :
  thresholds_met (verdict_of 1 high_scores_unflagged)
  ∧ verdict_of 1 high_scores_unflagged !! "primary_pass" = None.
Proof.
  split; [|run].
  exists (<["faithfulness" := JNum 9]>
          (<["readability" := JNum 9]>
          (<["conciseness" := JNum 8]>
          (<["aesthetics" := JNum 8]> ∅)))), 9, 9.
  split; [run|]. split; [run|]. split; [run|]. lia.
Qed.


(** C4 fails: the third verdict fails the primary test and the run is
    recorded as accepted. *)
Lemma exhausted_run_recorded_accepted :
  let verdict := verdict_of 3 (fail_with_revision 2) in
  In (ReturnRunCritic 3 verdict) (trace run_never_passes.2)
  ∧ primary_pass verdict = false
  ∧ run_never_passes.1 = Ret (returned run_never_passes.1)
  ∧ returned run_never_passes.1 !! "accepted" = Some (JBool true).
Proof.
  cbn zeta. split; [event_at 14%nat|]. split; [run|]. split; [returns|run].
Qed.

Lemma max_refinements_accepts_best_witness :
  ∃ r,
    run_never_passes.1 = Ret r
    ∧ r !! "max_refinements_reached" = Some (JBool true)
    ∧ r !! "accepted" = Some (JBool true)
    ∧ r !! "final_scores"
      = Some (get (verdict_of 3 (fail_with_revision 2)) "scores" (JObj ∅))
    ∧ ends_with_verdict (trace run_never_passes.2) MAX_REFINEMENTS
        (verdict_of 3 (fail_with_revision 2)).
Proof.
  apply (max_refinements_accepts_best (world images_ok (λ k, says (fail_with_revision k)))
           "An autoencoder." "out.png" "work" initial_results (styled "A") initial
           run_never_passes.1 run_never_passes.2 (trace run_never_passes.2)
           (verdict_of 3 (fail_with_revision 2))).
  - apply surjective_pairing.
  - exists []. run.
  - fresh_trace.
  - event_at 14%nat.
  - run.
Defined.

Lemma missing_revision_accepts_current_witness :
  ∃ r,
    run_no_revision.1 = Ret r
    ∧ r !! "accepted" = Some (JBool true)
    ∧ ends_with_verdict (trace run_no_revision.2) 1 (verdict_of 1 fail_without_revision).
Proof.
  apply (missing_revision_accepts_current (world images_ok (λ _, says fail_without_revision))
           "An autoencoder." "out.png" "work" initial_results (styled "A") initial
           run_no_revision.1 run_no_revision.2 (trace run_no_revision.2) 1
           (verdict_of 1 fail_without_revision)).
  - apply surjective_pairing.
  - exists []. run.
  - fresh_trace.
  - event_at 4%nat.
  - run.
  - run.
Defined.

Lemma revision_replaces_description_witness :
  (∃ B, verdict_of 1 (fail_with_revision 0) !! "revised_description" = Some (JStr B)
        ∧ quality_prefix +:+ "Revision 0" = quality_prefix +:+ B)
  ∧ ∃ ar, In (CallGenerateImage 2 (quality_prefix +:+ "Revision 0") "out.png" ar)
             (trace run_never_passes.2).
Proof.
  destruct (revision_replaces_description
              (world images_ok (λ k, says (fail_with_revision k)))
              "An autoencoder." "out.png" "work" initial_results (styled "A") initial
              run_never_passes.1 run_never_passes.2 (trace run_never_passes.2) 1
              (verdict_of 1 (fail_with_revision 0))) as [Hfrom Hmade].
  - apply surjective_pairing.
  - fresh_trace.
  - event_at 4%nat.
  - split.
    + apply (Hfrom (quality_prefix +:+ "Revision 0") "out.png" "16:9").
      event_at 5%nat.
    + apply (Hmade "Revision 0"); [exists []; run|run|unfold MAX_REFINEMENTS; lia|run|done].
Defined.

(** C10 fails: a response with [primary_pass] false and no revision is
    not turned into a failure; the run returns its results, without an
    error, and records the image as accepted. *)
Lemma null_revision_not_a_failure :
  let verdict := verdict_of 1 fail_without_revision in
  In (ReturnRunCritic 1 verdict) (trace run_no_revision.2)
  ∧ primary_pass verdict = false
  ∧ revision_null verdict
  ∧ run_no_revision.1 = Ret (returned run_no_revision.1)
  ∧ returned run_no_revision.1 !! "accepted" = Some (JBool true)
  ∧ returned run_no_revision.1 !! "error" = None.
Proof.
  cbn zeta. split; [event_at 4%nat|]. split; [run|]. split; [run|].
  split; [returns|]. split; run.
Qed.

Lemma pairing_violation_is_consumed_witness :
  ∃ r l,
    run_no_revision.1 = Ret r
    ∧ r !! "iterations" = Some (JList (l ++ [JObj (verdict_of 1 fail_without_revision)]))
    ∧ r !! "accepted" = Some (JBool true)
    ∧ r !! "final_scores"
      = Some (get (verdict_of 1 fail_without_revision) "scores" (JObj ∅))
    ∧ r !! "error" = initial_results !! "error".
Proof.
  apply (pairing_violation_is_consumed (world images_ok (λ _, says fail_without_revision))
           "An autoencoder." "out.png" "work" initial_results (styled "A") initial
           run_no_revision.1 run_no_revision.2 (trace run_no_revision.2) 1
           (verdict_of 1 fail_without_revision)).
  - apply surjective_pairing.
  - exists []. run.
  - fresh_trace.
  - event_at 4%nat.
  - left. split; run.
Defined.

End Examples.

(** * Properties of the rest of the code *)

(** ** Strings: append, reversal, prefixes and suffixes *)

Module StringFacts.

Lemma app_cons c (s t : string) : String c s +:+ t = String c (s +:+ t).
Proof. reflexivity. Qed.

Lemma app_nil_r_str (s : string) : s +:+ "" = s.
Proof. induction s as [|c s IH]; [done|]. rewrite app_cons. by f_equal. Qed.

Lemma app_assoc_str (a b c : string) : (a +:+ b) +:+ c = a +:+ (b +:+ c).
Proof. induction a as [|x a IH]; [done|]. rewrite !app_cons. by f_equal. Qed.

Lemma rev_app_acc (s acc : string) :
  String.rev_app s acc = String.rev s +:+ acc.
Proof.
  unfold String.rev. revert acc. induction s as [|c s IH]; intros acc; [done|].
  cbn [String.rev_app]. rewrite IH, (IH (String c "")), app_assoc_str. done.
Qed.

Lemma rev_cons c (s : string) : String.rev (String c s) = String.rev s +:+ String c "".
Proof. unfold String.rev at 1. cbn [String.rev_app]. apply rev_app_acc. Qed.

Lemma rev_app (a b : string) : String.rev (a +:+ b) = String.rev b +:+ String.rev a.
Proof.
  induction a as [|c a IH]; [by rewrite app_nil_r_str|].
  by rewrite app_cons, !rev_cons, IH, app_assoc_str.
Qed.

Lemma rev_involutive (s : string) : String.rev (String.rev s) = s.
Proof.
  induction s as [|c s IH]; [done|]. by rewrite rev_cons, rev_app, IH.
Qed.

Lemma prefix_app (p t : string) : String.prefix p (p +:+ t) = true.
Proof.
  induction p as [|c p IH]; [by destruct t|].
  rewrite app_cons. cbn [String.prefix].
  by destruct (Ascii.ascii_dec c c).
Qed.

Lemma prefix_inv (p s : string) : String.prefix p s = true → ∃ t, s = p +:+ t.
Proof.
  revert s. induction p as [|c p IH]; intros s H; [by exists s|].
  destruct s as [|d s]; [done|]. cbn [String.prefix] in H.
  destruct (Ascii.ascii_dec c d) as [->|]; [|done].
  destruct (IH s H) as [t ->]. by exists t.
Qed.

Lemma endswith_app (a x : string) : endswith (a +:+ x) x = true.
Proof. unfold endswith. rewrite rev_app. apply prefix_app. Qed.

Lemma endswith_inv (s x : string) : endswith s x = true → ∃ p, s = p +:+ x.
Proof.
  unfold endswith. intros [t Ht]%prefix_inv. exists (String.rev t).
  by rewrite <- (rev_involutive s), Ht, rev_app, rev_involutive.
Qed.

Lemma app_inv_tail_str (a b x : string) : a +:+ x = b +:+ x → a = b.
Proof.
  intros H. apply (f_equal String.rev) in H. rewrite !rev_app in H.
  apply String.app_inj in H. by rewrite <- (rev_involutive a), H, rev_involutive.
Qed.

Lemma length_app_str (a b : string) :
  String.length (a +:+ b) = (String.length a + String.length b)%nat.
Proof. induction a as [|c a IH]; [done|]. rewrite app_cons. cbn [String.length]. by rewrite IH. Qed.

Lemma lower_app (a b : string) : lower (a +:+ b) = lower a +:+ lower b.
Proof. induction a as [|c a IH]; [done|]. rewrite app_cons. cbn [lower]. by rewrite IH. Qed.

End StringFacts.

(** ** generate_image.py: the saved path and the files *)

Module RenderFacts.
Import GenerateImage Critic Retriever Orchestrate Run Observe StringFacts Facts.

Lemma app_neq_self (s x : string) : x ≠ "" → s +:+ x ≠ s.
Proof.
  intros Hx H. apply (f_equal String.length) in H. rewrite length_app_str in H.
  destruct x; [done|]. cbn in H. lia.
Qed.

(** X1: the path [generate_image] saves under always ends in ".png", in
    upper or lower case; computing it twice changes nothing; it is the
    output path itself exactly when that already ends in ".png", and the
    output path with ".png" appended otherwise. *)
Theorem png_path_extension output_path :
  endswith (lower (png_path output_path)) ".png" = true
  ∧ png_path (png_path output_path) = png_path output_path
  ∧ (png_path output_path = output_path
     ↔ endswith (lower output_path) ".png" = true)
  ∧ (endswith (lower output_path) ".png" = false
     → png_path output_path = output_path +:+ ".png").
Proof.
  assert (endswith (lower (png_path output_path)) ".png" = true) as Hext.
  { unfold png_path. destruct (endswith (lower output_path) ".png") eqn:E; [done|].
    cbn [negb]. rewrite lower_app. apply endswith_app. }
  split; [done|]. split; [|split].
  - unfold png_path at 1. by rewrite Hext.
  - unfold png_path. destruct (endswith (lower output_path) ".png") eqn:E; cbn [negb].
    + done.
    + split; [|done]. intros H. by apply app_neq_self in H.
  - unfold png_path. by intros ->.
Qed.

(** X2: the scan of the parts of a candidate takes the first part that
    has inline data of an image MIME type, whatever follows it; the parts
    before it are text parts or carry another type.  It finds nothing
    exactly when no part carries an image. *)
Theorem first_image_spec parts :
  match first_image parts with
  | Some b =>
      ∃ pre p post, parts = pre ++ p :: post
        ∧ Forall (λ q, is_image_part q = None) pre
        ∧ inline_data p = Some b
        ∧ startswith (mime_type b) "image/" = true
  | None =>
      Forall (λ q, ∀ b, inline_data q = Some b →
                        startswith (mime_type b) "image/" = false) parts
  end.
Proof.
  induction parts as [|p parts IH]; [by constructor|].
  cbn [first_image]. destruct (is_image_part p) as [b|] eqn:E.
  - exists [], p, parts. split; [done|]. split; [constructor|].
    unfold is_image_part in E. destruct (inline_data p) as [b'|]; [|done].
    destruct (startswith (mime_type b') "image/") eqn:Hm; [|done].
    by injection E as ->.
  - destruct (first_image parts) as [b|].
    + destruct IH as (pre & q & post & -> & Hpre & Hq & Hm).
      exists (p :: pre), q, post. split; [done|]. split; [by constructor|done].
    + constructor; [|done]. intros b Hb. unfold is_image_part in E. rewrite Hb in E.
      by destruct (startswith (mime_type b) "image/").
Qed.

Section WithServices.
Variable svc : services.

Lemma attempt_body_run prompt output_path model s :
  attempt_body svc prompt output_path model s =
  (match attempt_error svc (image_model svc (trace s) model prompt) with
   | Some e => Raise e
   | None => Ret (png_path output_path)
   end,
   {| fs := match saved_payload svc (image_model svc (trace s) model prompt) with
            | Some payload => <[png_path output_path := FPng payload]> (fs s)
            | None => fs s
            end;
      trace := trace s ++ [ApiImage model prompt (image_model svc (trace s) model prompt)] |}).
Proof.
  unfold attempt_body, attempt_error, saved_payload, bind, get_trace, emit, raise,
    ret, write_file.
  cbn. destruct (image_model svc (trace s) model prompt) as [e|[|parts cands]]; try done.
  destruct (first_image parts) as [b|]; [|done].
  by destruct (Image_open svc (data b)).
Qed.

Lemma saved_payload_error reply :
  attempt_error svc reply = None ↔ is_Some (saved_payload svc reply).
Proof.
  unfold attempt_error, saved_payload.
  destruct reply as [e|[|parts cands]]; try (split; [done|by intros []]).
  destruct (first_image parts) as [b|]; [|split; [done|by intros []]].
  destruct (Image_open svc (data b)); [by split|split; [done|by intros []]].
Qed.

Lemma retry_loop_effect attempts prompt output_path model s o s' :
  retry_loop svc attempts prompt output_path model s = (o, s') →
  ∃ inner, trace s' = trace s ++ inner
    ∧ Forall render_event inner
    ∧ match o with
      | Ret (Some p) =>
          p = png_path output_path
          ∧ ∃ pre reply payload,
              inner = pre ++ [ApiImage model prompt reply]
              ∧ saved_payload svc reply = Some payload
              ∧ fs s' = <[png_path output_path := FPng payload]> (fs s)
      | Ret None => fs s' = fs s
      | Raise e => fs s' = fs s ∧ ∃ last_error, e = exhausted_error last_error
      | Exit _ => False
      end.
Proof.
  revert s. induction attempts as [|attempt rest IH]; intros s Hrun.
  - inversion Hrun; subst. exists []. by rewrite app_nil_r.
  - rewrite retry_loop_step, attempt_body_run in Hrun.
    set (reply := image_model svc (trace s) model prompt) in *.
    destruct (attempt_error svc reply) as [e|] eqn:Herr.
    + assert (saved_payload svc reply = None) as Hnone.
      { destruct (saved_payload svc reply) eqn:E; [|done].
        assert (attempt_error svc reply = None) by (apply saved_payload_error; eauto).
        congruence. }
      rewrite Hnone in Hrun. case_bool_decide.
      2:{ inversion Hrun; subst. exists [ApiImage model prompt reply].
          split; [done|]. split; [by repeat constructor|]. split; [done|by eexists]. }
      apply IH in Hrun as (inner & T & Hr & Ho). cbn [slept fs trace] in T, Ho.
      exists ([ApiImage model prompt reply;
               Sleep (RETRY_BASE_DELAY * 2 ^ Z.of_nat attempt)] ++ inner).
      split; [by rewrite T, <- !app_assoc|].
      split; [apply Forall_app; split; [by repeat constructor|done]|].
      destruct o as [[p|]|e'|c]; try done.
      destruct Ho as (-> & pre & r & payload & -> & Hp & Hfs).
      split; [done|].
      exists ([ApiImage model prompt reply;
               Sleep (RETRY_BASE_DELAY * 2 ^ Z.of_nat attempt)] ++ pre), r, payload.
      by rewrite <- !app_assoc.
    + apply saved_payload_error in Herr as [payload Hp]. rewrite Hp in Hrun.
      inversion Hrun; subst. exists [ApiImage model prompt reply].
      split; [done|]. split; [by repeat constructor|]. split; [done|].
      by exists [], reply, payload.
Qed.

Lemma generate_image_saved prompt output_path model aspect_ratio s s' :
  generate_image svc prompt output_path model aspect_ratio s ≠ (Ret None, s').
Proof.
  unfold generate_image. intros Hrun.
  destruct (get_api_key_cases svc s) as [[key Hkey]|Hkey].
  2:{ unfold bind in Hrun. by rewrite Hkey in Hrun. }
  rewrite (bind_ret _ _ _ _ _ Hkey) in Hrun.
  change (seq 0 MAX_RETRIES) with [0; 1; 2]%nat in Hrun.
  rewrite retry_loop_step, attempt_body_run in Hrun.
  destruct (attempt_error svc _); [|done].
  rewrite bool_decide_true in Hrun by (cbv; lia).
  rewrite retry_loop_step, attempt_body_run in Hrun.
  destruct (attempt_error svc _); [|done].
  rewrite bool_decide_true in Hrun by (cbv; lia).
  rewrite retry_loop_step, attempt_body_run in Hrun.
  destruct (attempt_error svc _); [|done].
  by rewrite bool_decide_false in Hrun by (cbv; lia).
Qed.

Lemma generate_image_effect prompt output_path model aspect_ratio s o s' :
  generate_image svc prompt output_path model aspect_ratio s = (o, s') →
  ∃ inner, trace s' = trace s ++ inner
    ∧ Forall render_event inner
    ∧ match o with
      | Ret (Some p) =>
          p = png_path output_path
          ∧ ∃ pre reply payload,
              inner = pre ++ [ApiImage model prompt reply]
              ∧ saved_payload svc reply = Some payload
              ∧ fs s' = <[png_path output_path := FPng payload]> (fs s)
      | Ret None => False
      | Raise e =>
          api_key_set svc = true ∧ fs s' = fs s
          ∧ ∃ last_error, e = exhausted_error last_error
      | Exit code => code = 1 ∧ api_key_set svc = false ∧ s' = s
      end.
Proof.
  intros Hrun. pose proof Hrun as Hsaved.
  unfold generate_image, GenerateImage.get_api_key in Hrun.
  unfold bind at 1 in Hrun.
  destruct (api_key_set svc) eqn:Hkey; unfold api_key_set in Hkey;
    destruct (GOOGLE_API_KEY svc) as [key|]; try done; rewrite ?Hkey in Hrun.
  - unfold ret at 1 in Hrun.
    apply retry_loop_effect in Hrun as (inner & T & Hr & Ho).
    exists inner. split; [done|]. split; [done|].
    destruct o as [[p|]|e|c]; try done. by apply generate_image_saved in Hsaved.
  - inversion Hrun; subst. exists []. by rewrite app_nil_r.
  - inversion Hrun; subst. exists []. by rewrite app_nil_r.
Qed.

Lemma saved_payload_failed reply e :
  attempt_error svc reply = Some e → saved_payload svc reply = None.
Proof.
  intros He. destruct (saved_payload svc reply) eqn:E; [|done].
  assert (attempt_error svc reply = None) by (apply saved_payload_error; eauto).
  congruence.
Qed.

(** [generate_image], attempt by attempt: each attempt sees the calls and
    pauses made so far. *)
Lemma generate_image_run prompt output_path model aspect_ratio s :
  generate_image svc prompt output_path model aspect_ratio s =
  let call := ApiImage model prompt in
  let saved reply :=
    match saved_payload svc reply with
    | Some payload => <[png_path output_path := FPng payload]> (fs s)
    | None => fs s
    end in
  let r0 := image_model svc (trace s) model prompt in
  let t0 := trace s ++ [call r0] in
  let r1 := image_model svc (t0 ++ [Sleep RETRY_BASE_DELAY]) model prompt in
  let t1 := t0 ++ [Sleep RETRY_BASE_DELAY; call r1] in
  let r2 := image_model svc (t1 ++ [Sleep (2 * RETRY_BASE_DELAY)]) model prompt in
  let t2 := t1 ++ [Sleep (2 * RETRY_BASE_DELAY); call r2] in
  if api_key_set svc then
    match attempt_error svc r0 with
    | None => (Ret (Some (png_path output_path)), {| fs := saved r0; trace := t0 |})
    | Some _ =>
        match attempt_error svc r1 with
        | None => (Ret (Some (png_path output_path)), {| fs := saved r1; trace := t1 |})
        | Some _ =>
            match attempt_error svc r2 with
            | None =>
                (Ret (Some (png_path output_path)), {| fs := saved r2; trace := t2 |})
            | Some last_error =>
                (Raise (exhausted_error last_error), {| fs := fs s; trace := t2 |})
            end
        end
    end
  else (Exit 1, s).
Proof.
  cbn zeta.
  set (r0 := image_model svc (trace s) model prompt).
  set (h1 := (trace s ++ [ApiImage model prompt r0]) ++ [Sleep RETRY_BASE_DELAY]).
  set (r1 := image_model svc h1 model prompt).
  set (h2 := ((trace s ++ [ApiImage model prompt r0])
              ++ [Sleep RETRY_BASE_DELAY; ApiImage model prompt r1])
             ++ [Sleep (2 * RETRY_BASE_DELAY)]).
  set (r2 := image_model svc h2 model prompt).
  unfold generate_image, GenerateImage.get_api_key, api_key_set.
  unfold bind at 1.
  destruct (GOOGLE_API_KEY svc) as [key|]; [|done].
  destruct (truthy (JStr key)); [|done]. unfold ret at 1.
  change (seq 0 MAX_RETRIES) with [0; 1; 2]%nat.
  rewrite retry_loop_step, attempt_body_run. fold r0.
  destruct (attempt_error svc r0) as [e0|] eqn:H0; [|done].
  rewrite (saved_payload_failed _ _ H0), bool_decide_true by (cbv; lia).
  rewrite retry_loop_step, attempt_body_run. cbn [slept trace fs].
  change (RETRY_BASE_DELAY * 2 ^ Z.of_nat 0) with RETRY_BASE_DELAY.
  fold h1 r1.
  destruct (attempt_error svc r1) as [e1|] eqn:H1.
  2:{ unfold h1. by rewrite <- !app_assoc. }
  rewrite (saved_payload_failed _ _ H1), bool_decide_true by (cbv; lia).
  rewrite retry_loop_step, attempt_body_run. cbn [slept trace fs].
  change (RETRY_BASE_DELAY * 2 ^ Z.of_nat 1) with (2 * RETRY_BASE_DELAY).
  assert ((h1 ++ [ApiImage model prompt r1]) ++ [Sleep (2 * RETRY_BASE_DELAY)] = h2)
    as -> by (unfold h1, h2; by rewrite <- !app_assoc).
  fold r2.
  destruct (attempt_error svc r2) as [e2|] eqn:H2.
  2:{ unfold h2. by rewrite <- !app_assoc. }
  rewrite (saved_payload_failed _ _ H2), bool_decide_false by (cbv; lia).
  unfold h2. by rewrite <- !app_assoc.
Qed.

(** C8: with the API key set, [generate_image] calls the image model up
    to 3 times, each call made only after the one before has failed; it
    pauses [RETRY_BASE_DELAY] seconds after the first failure and twice
    that after the second.  An attempt that succeeds ends the call with the
    saved path.  When the third attempt fails too, nothing has been written
    and the call raises a [RuntimeError] whose cause is the error of that
    attempt, which is "No image data in API response" when the reply
    carried no image.  Without the key it exits with code 1 and makes no
    call. *)
Theorem generate_image_backoff prompt output_path model aspect_ratio s :
  let '(o, s') := generate_image svc prompt output_path model aspect_ratio s in
  let call := ApiImage model prompt in
  let r0 := image_model svc (trace s) model prompt in
  let t0 := trace s ++ [call r0] in
  let r1 := image_model svc (t0 ++ [Sleep RETRY_BASE_DELAY]) model prompt in
  let t1 := t0 ++ [Sleep RETRY_BASE_DELAY; call r1] in
  let r2 := image_model svc (t1 ++ [Sleep (2 * RETRY_BASE_DELAY)]) model prompt in
  let t2 := t1 ++ [Sleep (2 * RETRY_BASE_DELAY); call r2] in
  if api_key_set svc then
    match attempt_error svc r0, attempt_error svc r1, attempt_error svc r2 with
    | None, _, _ => trace s' = t0 ∧ o = Ret (Some (png_path output_path))
    | Some _, None, _ => trace s' = t1 ∧ o = Ret (Some (png_path output_path))
    | Some _, Some _, None => trace s' = t2 ∧ o = Ret (Some (png_path output_path))
    | Some _, Some _, Some last_error =>
        trace s' = t2 ∧ fs s' = fs s
        ∧ o = Raise (exhausted_error last_error)
        ∧ exn_cls (exhausted_error last_error) = RuntimeError
        ∧ exn_cause (exhausted_error last_error) = Some last_error
        ∧ (no_image_payload r2 → last_error = no_image_error)
    end
  else o = Exit 1 ∧ s' = s.
Proof.
  rewrite generate_image_run. cbn zeta.
  destruct (api_key_set svc); [|done].
  destruct (attempt_error svc _) as [e0|]; [|done].
  destruct (attempt_error svc _) as [e1|]; [|done].
  destruct (attempt_error svc _) as [e2|] eqn:H2; [|done].
  repeat split.
  unfold no_image_payload, attempt_error in *.
  destruct (image_model svc _ model prompt) as [e|[|parts cands]]; [done|congruence|].
  intros Hnone. rewrite Hnone in H2. congruence.
Qed.

(** X3: what [generate_image] does to the files.  Its events are calls
    of the image model and pauses only.  When it returns, it returns the
    path with the ".png" suffix, and the only file written is that path,
    which holds the payload of the last reply, the first image of its first
    candidate.  It never returns without a path.  When it raises, the API
    key was set, the exception is its own [RuntimeError] and no file was
    written; it exits only with code 1, the state untouched, and only
    when the key is missing. *)
Theorem generate_image_file_effect prompt output_path model aspect_ratio s :
  let '(o, s') := generate_image svc prompt output_path model aspect_ratio s in
  ∃ inner, trace s' = trace s ++ inner
    ∧ Forall render_event inner
    ∧ match o with
      | Ret (Some p) =>
          p = png_path output_path
          ∧ ∃ pre reply payload,
              inner = pre ++ [ApiImage model prompt reply]
              ∧ saved_payload svc reply = Some payload
              ∧ fs s' = <[png_path output_path := FPng payload]> (fs s)
      | Ret None => False
      | Raise e =>
          api_key_set svc = true ∧ fs s' = fs s
          ∧ ∃ last_error, e = exhausted_error last_error
      | Exit code => code = 1 ∧ api_key_set svc = false ∧ s' = s
      end.
Proof.
  destruct (generate_image svc prompt output_path model aspect_ratio s)
    as [o s'] eqn:Hrun.
  by apply generate_image_effect in Hrun.
Qed.

End WithServices.
End RenderFacts.

(** ** The calls of one pass of the loop *)

Module LoopFacts.
Import GenerateImage Critic Retriever Orchestrate Run Observe StringFacts Facts RenderFacts.

Section WithServices.
Variable svc : services.

Lemma generate_image_key prompt output_path model aspect_ratio s :
  api_key_set svc = false →
  generate_image svc prompt output_path model aspect_ratio s = (Exit 1, s).
Proof.
  unfold api_key_set, generate_image, bind, GenerateImage.get_api_key.
  destruct (GOOGLE_API_KEY svc) as [key|]; [|done]. by intros ->.
Qed.

Lemma generate_image_needs_key prompt output_path model aspect_ratio s p s' :
  generate_image svc prompt output_path model aspect_ratio s = (Ret p, s') →
  api_key_set svc = true.
Proof.
  destruct (api_key_set svc) eqn:E; [done|].
  by rewrite generate_image_key.
Qed.

Lemma run_critic_cases image_path methodology stylist_output i s o s' :
  run_critic svc image_path methodology stylist_output i s = (o, s') →
  fs s' = fs s
  ∧ ((o = Exit 1 ∧ trace s' = trace s
      ∧ (api_key_set svc = false ∨ fs s !! image_path = None))
     ∨ ∃ img reply,
         api_key_set svc = true
         ∧ fs s !! image_path = Some img
         ∧ reply = critic_model svc (trace s)
                     (critic_request_for svc img image_path methodology stylist_output)
         ∧ trace s' = trace s
             ++ [ApiCritic (critic_request_for svc img image_path methodology
                              stylist_output) reply]
         ∧ ((∃ e, o = Raise e)
            ∨ ∃ result, reply = VlmText (Some (JObj result))
                ∧ o = Ret (<["iteration" := JNum (Z.of_nat i)]> result))).
Proof.
  unfold run_critic, api_key_set. intros Hrun.
  unfold bind at 1 in Hrun. unfold Critic.get_api_key in Hrun.
  destruct (GOOGLE_API_KEY svc) as [key|];
    [|inversion Hrun; subst; split; [done|left; eauto]].
  destruct (truthy (JStr key)); [|inversion Hrun; subst; split; [done|left; eauto]].
  unfold ret at 1 in Hrun. unfold bind at 1, read_file at 1 in Hrun.
  destruct (fs s !! image_path) as [img|] eqn:Himg;
    [|inversion Hrun; subst; split; [done|left; eauto]].
  unfold bind at 1, get_trace at 1, bind at 1, emit at 1 in Hrun.
  fold (critic_request_for svc img image_path methodology stylist_output) in Hrun.
  set (request := critic_request_for _ _ _ _ _) in *.
  remember (critic_model svc (trace s) request) as reply eqn:Hreply.
  set (s1 := {| fs := fs s; trace := trace s ++ [ApiCritic request reply] |}) in Hrun.
  assert (∀ e, (Raise e, s1) = (o, s') →
            fs s' = fs s
            ∧ ((o = Exit 1 ∧ trace s' = trace s ∧ (true = false ∨ Some img = None))
               ∨ ∃ img0 reply0, true = true ∧ Some img = Some img0
                   ∧ reply0 = critic_model svc (trace s)
                        (critic_request_for svc img0 image_path methodology stylist_output)
                   ∧ trace s' = trace s ++ [ApiCritic
                        (critic_request_for svc img0 image_path methodology stylist_output)
                        reply0]
                   ∧ ((∃ e, o = Raise e)
                      ∨ ∃ result, reply0 = VlmText (Some (JObj result))
                          ∧ o = Ret (<["iteration" := JNum (Z.of_nat i)]> result))))
    as Hraise.
  { intros e [= <- <-]. split; [done|]. right. exists img, reply.
    repeat split; try done. left. by eexists. }
  destruct reply as [e|[[| | | | |result]|]];
    try (unfold raise in Hrun; by eapply Hraise).
  unfold bind at 1, print_scores in Hrun.
  destruct (get (<["iteration":=JNum (Z.of_nat i)]> result) "scores" (JObj ∅))
    as [| | | | |sc] eqn:Hsc; try (unfold raise in Hrun; by eapply Hraise).
  unfold ret at 1, bind in Hrun.
  pose proof (print_suggestions_state (<["iteration":=JNum (Z.of_nat i)]> result) s1) as Hs.
  destruct (print_suggestions _ s1) as [[[]|e|c] s2] eqn:Hsug; cbn in Hs; subst s2;
    try (by eapply Hraise).
  - inversion Hrun; subst. split; [done|]. right. exists img, (VlmText (Some (JObj result))).
    repeat split; try done. right. by eexists.
  - (* printing never exits *)
    exfalso. clear -Hsug. unfold print_suggestions in Hsug.
    destruct (get _ "critic_suggestions" _) as [| | | |l|]; try done.
    revert Hsug. generalize s1. induction l as [|x l IH]; intros s0 H; [done|].
    cbn [print_each] in H. unfold bind in H.
    destruct x; cbn in H; try done; by eapply IH.
Qed.


Lemma evaluate_run work_dir i critic_output v s :
  evaluate work_dir i critic_output v s =
  (Ret (decision i critic_output v),
   {| fs := match (decision i critic_output v).1 with
            | Continue =>
                <[revised_stylist_path work_dir i :=
                    FJson (JObj (stylist_output (decision i critic_output v).2))]> (fs s)
            | Break => fs s
            end;
      trace := trace s |}).
Proof.
  unfold evaluate, decision.
  destruct (primary_pass critic_output); [by destruct s|].
  case_bool_decide; [by destruct s|].
  destruct (truthy _); by destruct s.
Qed.

(** One pass through the body of the loop, call by call. *)
Lemma loop_body_run methodology output_path work_dir aspect_ratio i v s o s' :
  loop_body svc methodology output_path work_dir aspect_ratio i v s = (o, s') →
  ((∀ d, current_description v ≠ JStr d) ∧ s' = s ∧ ∃ e, o = Raise e)
  ∨ ∃ d og s1,
      current_description v = JStr d
      ∧ generate_image svc (quality_prefix +:+ d) output_path DEFAULT_MODEL aspect_ratio
          {| fs := fs s;
             trace := trace s ++ [CallGenerateImage i (quality_prefix +:+ d)
                                    output_path aspect_ratio] |} = (og, s1)
      ∧ match og with
        | Exit c => o = Exit c ∧ s' = s1
        | Raise e =>
            s' = s1
            ∧ o = if decide (exn_cls e = RuntimeError)
                  then Ret (Break, record_error (exn_str e) v) else Raise e
        | Ret _ =>
            ∃ oc s3,
              run_critic svc output_path methodology (stylist_output v) i
                {| fs := fs s1;
                   trace := trace s1 ++ [CallRunCritic i output_path (stylist_output v)] |}
              = (oc, s3)
              ∧ match oc with
                | Exit c => o = Exit c ∧ s' = s3
                | Raise e => o = Raise e ∧ s' = s3
                | Ret verdict =>
                    match results v !! "iterations" with
                    | Some (JList l) =>
                        let r := decision i verdict (record_verdict verdict l v) in
                        o = Ret r
                        ∧ trace s' = trace s3 ++ [ReturnRunCritic i verdict]
                        ∧ fs s' =
                            match r.1 with
                            | Continue =>
                                <[revised_stylist_path work_dir i :=
                                    FJson (JObj (stylist_output r.2))]>
                                  (<[critic_output_path work_dir i :=
                                       FJson (JObj verdict)]> (fs s3))
                            | Break =>
                                <[critic_output_path work_dir i :=
                                    FJson (JObj verdict)]> (fs s3)
                            end
                    | _ =>
                        (∃ e, o = Raise e)
                        ∧ trace s' = trace s3 ++ [ReturnRunCritic i verdict]
                        ∧ fs s' = <[critic_output_path work_dir i :=
                                      FJson (JObj verdict)]> (fs s3)
                    end
                end
        end.
Proof.
  unfold loop_body. intros Hrun.
  destruct (build_prompt_cases (current_description v) aspect_ratio s)
    as [(d & Hd & Hp)|(Hd & e & Hp)].
  2:{ unfold bind at 1 in Hrun. rewrite Hp in Hrun. inversion Hrun; subst.
      left. eauto. }
  right. rewrite (bind_ret _ _ _ _ _ Hp) in Hrun.
  unfold bind at 1, try_except_RuntimeError, try_except, bind at 1, emit at 1,
    bind at 1 in Hrun.
  destruct (generate_image svc _ output_path DEFAULT_MODEL aspect_ratio _)
    as [og s1] eqn:Hgen.
  exists d, og, s1. split; [done|]. split; [done|].
  destruct og as [result_path|e|c]; cbn [ret] in Hrun.
  - unfold bind at 1, emit at 1 in Hrun. unfold bind at 1 in Hrun.
    destruct (run_critic svc output_path methodology (stylist_output v) i _)
      as [oc s3] eqn:Hcr.
    exists oc, s3. split; [done|].
    destruct oc as [verdict|e|c]; [|by inversion Hrun..].
    unfold bind at 1, emit at 1, bind at 1, save_intermediate at 1, bind at 1,
      write_file at 1, ret at 1 in Hrun.
    cbn [fs trace] in Hrun.
    fold (critic_output_path work_dir i) in Hrun.
    unfold append_iteration, bind at 1 in Hrun.
    destruct (results v !! "iterations") as [[| | | |l|]|];
      try (inversion Hrun; subst; cbn; eauto).
    unfold ret at 1 in Hrun. fold (record_verdict verdict l v) in Hrun.
    rewrite evaluate_run in Hrun. by inversion Hrun.
  - destruct (decide (exn_cls e = RuntimeError)); by inversion Hrun.
  - by inversion Hrun.
Qed.

End WithServices.

(** Induction over the passes of a [for] loop on a range. *)
Lemma for_each_seq_ind {V} (body : nat → V → M (flow * V))
    (P : nat → nat → V → state → outcome V → state → Prop) :
  (∀ a v s, P a 0%nat v s (Ret v) s) →
  (∀ a n v s v' s', body a v s = (Ret (Break, v'), s') → P a (S n) v s (Ret v') s') →
  (∀ a n v s e s', body a v s = (Raise e, s') → P a (S n) v s (Raise e) s') →
  (∀ a n v s c s', body a v s = (Exit c, s') → P a (S n) v s (Exit c) s') →
  (∀ a n v s v1 s1 o s',
     body a v s = (Ret (Continue, v1), s1) →
     P (S a) n v1 s1 o s' → P a (S n) v s o s') →
  ∀ n a v s o s', for_each (seq a n) body v s = (o, s') → P a n v s o s'.
Proof.
  intros Hnil Hbreak Hraise Hexit Hnext.
  induction n as [|n IH]; intros a v s o s' Hrun.
  - inversion Hrun; subst. apply Hnil.
  - cbn [seq] in Hrun. rewrite for_each_step in Hrun.
    destruct (body a v s) as [[[[] v1]|e|c] sb] eqn:Hbody.
    + eapply Hnext; [done|]. by apply IH.
    + inversion Hrun; subst. by apply Hbreak.
    + inversion Hrun; subst. by apply Hraise.
    + inversion Hrun; subst. by apply Hexit.
Qed.

End LoopFacts.

(** ** The history, the numbering of the verdicts and the calls *)

Module HistoryFacts.
Import GenerateImage Critic Retriever Orchestrate Run Observe StringFacts Facts RenderFacts LoopFacts.

Lemma verdicts_app xs ys : verdicts (xs ++ ys) = verdicts xs ++ verdicts ys.
Proof. apply omap_app. Qed.

Lemma verdicts_quiet xs : quiet xs → verdicts xs = [].
Proof.
  induction 1 as [|ev xs Hev _ IH]; [done|].
  destruct ev; try done; cbn; exact IH.
Qed.

Lemma verdict_iterations_app xs ys :
  verdict_iterations (xs ++ ys) = verdict_iterations xs ++ verdict_iterations ys.
Proof. apply omap_app. Qed.

Lemma verdict_iterations_quiet xs : quiet xs → verdict_iterations xs = [].
Proof.
  induction 1 as [|ev xs Hev _ IH]; [done|].
  destruct ev; try done; cbn; exact IH.
Qed.

Lemma verdicts_pass_events i d output_path aspect_ratio so verdict inner inner' :
  quiet inner → quiet inner' →
  verdicts (pass_events i d output_path aspect_ratio so verdict inner inner') = [verdict]
  ∧ verdict_iterations
      (pass_events i d output_path aspect_ratio so verdict inner inner') = [i].
Proof.
  intros Q1 Q2.
  assert (pass_events i d output_path aspect_ratio so verdict inner inner'
          = [CallGenerateImage i (quality_prefix +:+ d) output_path aspect_ratio]
              ++ inner ++ [CallRunCritic i output_path so] ++ inner'
              ++ [ReturnRunCritic i verdict]) as -> by done.
  split.
  - by rewrite !verdicts_app, (verdicts_quiet inner), (verdicts_quiet inner').
  - by rewrite !verdict_iterations_app, (verdict_iterations_quiet inner),
      (verdict_iterations_quiet inner').
Qed.

Lemma verdicts_render i p output_path aspect_ratio inner :
  quiet inner →
  verdicts (CallGenerateImage i p output_path aspect_ratio :: inner) = []
  ∧ verdict_iterations (CallGenerateImage i p output_path aspect_ratio :: inner) = [].
Proof. intros Q. cbn. by rewrite verdicts_quiet, verdict_iterations_quiet. Qed.

Section WithServices.
Variable svc : services.

Lemma for_each_history methodology output_path work_dir aspect_ratio n a v s o s' :
  for_each (seq a n) (loop_body svc methodology output_path work_dir aspect_ratio) v s
    = (o, s') →
  ∃ new, trace s' = trace s ++ new
    ∧ ∀ l0 v', results v !! "iterations" = Some (JList l0) → o = Ret v' →
        results v' !! "iterations" = Some (JList (l0 ++ (JObj <$> verdicts new))).
Proof.
  revert n a v s o s'.
  apply (loop_ind svc methodology output_path work_dir aspect_ratio
    (λ a n v s o s',
       ∃ new, trace s' = trace s ++ new
         ∧ ∀ l0 v', results v !! "iterations" = Some (JList l0) → o = Ret v' →
             results v' !! "iterations" = Some (JList (l0 ++ (JObj <$> verdicts new))))).
  - intros a v s. exists []. rewrite app_nil_r. split; [done|].
    intros l0 v' Hl [= <-]. cbn. by rewrite app_nil_r.
  - intros a n v s v' s' Hb.
    apply body_spec_ret in Hb
      as [(d & inner & msg & _ & -> & Q & _ & T)
         |(d & inner & inner' & w & l & sc & Hdec & Q1 & Q2 & _ & Hl & _ & T)].
    + eexists. split; [exact T|]. intros l0 v' Hl0 [= <-].
      destruct (verdicts_render a (quality_prefix +:+ d) output_path aspect_ratio inner Q)
        as [-> _].
      cbn. rewrite app_nil_r. by rewrite lookup_insert_ne.
    + eexists. split; [exact T|]. intros l0 v0 Hl0 [= <-].
      symmetry in Hdec. apply decision_break in Hdec as [_ ->].
      destruct (verdicts_pass_events a d output_path aspect_ratio (stylist_output v) w
                  inner inner' Q1 Q2) as [-> _].
      rewrite closing_iterations. cbn. rewrite lookup_insert_eq. congruence.
  - intros a n v s o s' o' Hb _ Hf.
    apply body_spec_events in Hb as (new & T & _). exists new. split; [done|].
    intros l0 v' _ ->. done.
  - intros a n v s v1 s1 o s' Hb (rest & T & IH).
    apply body_spec_ret in Hb
      as [(d & inner & msg & ? & _)
         |(d & inner & inner' & w & l & sc & Hdec & Q1 & Q2 & _ & Hl & _ & T')];
      [done|].
    symmetry in Hdec. apply decision_continue in Hdec as (_ & Hres & _).
    eexists. split; [by rewrite T, T', <- app_assoc|].
    intros l0 v' Hl0 Ho. rewrite verdicts_app.
    destruct (verdicts_pass_events a d output_path aspect_ratio (stylist_output v) w
                inner inner' Q1 Q2) as [-> _].
    rewrite fmap_app, app_assoc. apply IH; [|done].
    rewrite Hres. cbn. rewrite lookup_insert_eq. congruence.
Qed.

Lemma loop_history methodology output_path work_dir results stylist_output s o s' l0 r :
  visualizer_critic_loop svc methodology output_path work_dir results stylist_output s
    = (o, s') →
  results !! "iterations" = Some (JList l0) →
  o = Ret r →
  ∃ new, trace s' = trace s ++ new
    ∧ r !! "iterations" = Some (JList (l0 ++ (JObj <$> verdicts new))).
Proof.
  intros Hrun Hl ->.
  apply loop_cases in Hrun as [[[] _]|(d0 & ar & o_loop & Hloop & Ho)].
  apply for_each_history in Hloop as (new & T & Hh).
  exists new. split; [done|].
  destruct o_loop as [v'| |]; [|done..]. injection Ho as ->.
  rewrite summary_lookup by done. by apply Hh.
Qed.


(** The events of one pass: its verdict, if any, is numbered, and a pass
    that hands over to the next one has returned exactly one verdict. *)
Lemma loop_body_numbered methodology output_path work_dir aspect_ratio i v s o s' :
  loop_body svc methodology output_path work_dir aspect_ratio i v s = (o, s') →
  ∃ new, trace s' = trace s ++ new
    ∧ Forall numbered new
    ∧ (verdict_iterations new = [] ∨ verdict_iterations new = [i])
    ∧ ∀ v', o = Ret (Continue, v') → verdict_iterations new = [i].
Proof.
  intros Hrun.
  assert (∀ xs, quiet xs → Forall numbered xs) as Hq.
  { intros xs Q. eapply Forall_impl; [exact Q|]. by intros []. }
  apply loop_body_run in Hrun
    as [(_ & -> & e & ->)|(d & og & s1 & Hd & Hgen & Hrest)].
  { exists []. rewrite app_nil_r. repeat split; eauto. done. }
  apply generate_image_quiet in Hgen as (inner & T1 & Q1). cbn [trace] in T1.
  rewrite <- app_assoc in T1. cbn [app] in T1.
  set (call := CallGenerateImage i (quality_prefix +:+ d) output_path aspect_ratio) in *.
  assert (Forall numbered (call :: inner)
          ∧ verdict_iterations (call :: inner) = []) as [Hn1 Hv1].
  { split; [constructor; [done|by apply Hq]|].
    cbn. by apply verdict_iterations_quiet. }
  destruct og as [p|e|c].
  - destruct Hrest as (oc & s3 & Hcr & Hrest).
    apply run_critic_cases in Hcr as [_ Hcr]. cbn [trace fs] in Hcr.
    assert (∃ inner', trace s3 = trace s ++ call :: inner
                        ++ CallRunCritic i output_path (stylist_output v) :: inner'
              ∧ quiet inner'
              ∧ ∀ verdict, oc = Ret verdict →
                  verdict !! "iteration" = Some (JNum (Z.of_nat i)))
      as (inner' & T3 & Q3 & Hit).
    { destruct Hcr as [(-> & T & _)|(img & reply & _ & _ & _ & T & Ho)].
      - exists []. rewrite T, T1, <- app_assoc. split; [done|]. split; [constructor|done].
      - eexists [_]. rewrite T, T1, <- !app_assoc. split; [done|].
        split; [by repeat constructor|].
        intros verdict ->. destruct Ho as [[e [=]]|(result & _ & [= ->])].
        apply lookup_insert_eq. }
    assert (Forall numbered
              (call :: inner ++ CallRunCritic i output_path (stylist_output v) :: inner')
            ∧ verdict_iterations
                (call :: inner ++ CallRunCritic i output_path (stylist_output v) :: inner')
              = []) as [Hn3 Hv3].
    { split.
      - constructor; [done|]. apply Forall_app. split; [by apply Hq|].
        constructor; [done|by apply Hq].
      - change (verdict_iterations
                  ([call] ++ inner ++ [CallRunCritic i output_path (stylist_output v)]
                     ++ inner') = []).
        by rewrite !verdict_iterations_app, (verdict_iterations_quiet inner),
          (verdict_iterations_quiet inner'). }
    destruct oc as [verdict|e|c].
    + assert (∃ new, trace s' = trace s ++ new ∧ Forall numbered new
                ∧ verdict_iterations new = [i]) as (new & T & Hn & Hv).
      { exists ((call :: inner ++ CallRunCritic i output_path (stylist_output v) :: inner')
                  ++ [ReturnRunCritic i verdict]).
        assert (trace s' = trace s3 ++ [ReturnRunCritic i verdict]) as ->.
        { destruct (results v !! "iterations") as [[| | | |l|]|]; by destruct Hrest as (_ & ? & _). }
        rewrite T3. split; [by rewrite <- !app_assoc|].
        split.
        - apply Forall_app. split; [done|]. constructor; [|done]. by apply Hit.
        - by rewrite verdict_iterations_app, Hv3. }
      exists new. repeat split; eauto.
    + destruct Hrest as [-> ->]. eexists. split; [exact T3|].
      repeat split; eauto. done.
    + destruct Hrest as [-> ->]. eexists. split; [exact T3|].
      repeat split; eauto. done.
  - destruct Hrest as [-> ->]. eexists. split; [exact T1|].
    repeat split; eauto. intros v'. by destruct (decide _).
  - destruct Hrest as [-> ->]. eexists. split; [exact T1|].
    repeat split; eauto. done.
Qed.

Lemma for_each_numbered methodology output_path work_dir aspect_ratio n a v s o s' :
  for_each (seq a n) (loop_body svc methodology output_path work_dir aspect_ratio) v s
    = (o, s') →
  ∃ new k, trace s' = trace s ++ new
    ∧ (k ≤ n)%nat
    ∧ verdict_iterations new = seq a k
    ∧ Forall numbered new.
Proof.
  revert n a v s o s'.
  apply (for_each_seq_ind (loop_body svc methodology output_path work_dir aspect_ratio)
    (λ a n v s o s',
       ∃ new k, trace s' = trace s ++ new
         ∧ (k ≤ n)%nat
         ∧ verdict_iterations new = seq a k
         ∧ Forall numbered new)).
  - intros a v s. exists [], 0%nat. rewrite app_nil_r. by repeat split.
  - intros a n v s v' s' (new & T & Hn & [Hv|Hv] & _)%loop_body_numbered.
    + exists new, 0%nat. repeat split; try done. lia.
    + exists new, 1%nat. repeat split; try done. lia.
  - intros a n v s e s' (new & T & Hn & [Hv|Hv] & _)%loop_body_numbered.
    + exists new, 0%nat. repeat split; try done. lia.
    + exists new, 1%nat. repeat split; try done. lia.
  - intros a n v s c s' (new & T & Hn & [Hv|Hv] & _)%loop_body_numbered.
    + exists new, 0%nat. repeat split; try done. lia.
    + exists new, 1%nat. repeat split; try done. lia.
  - intros a n v s v1 s1 o s' (new & T & Hn & _ & Hv)%loop_body_numbered
      (rest & k & T' & Hk & Hv' & Hn').
    exists (new ++ rest), (S k). split; [by rewrite T', T, app_assoc|].
    split; [lia|]. split; [|by apply Forall_app].
    rewrite verdict_iterations_app, (Hv v1 eq_refl), Hv'. done.
Qed.


Lemma determine_aspect_ratio_cases visual_intent s o s' :
  determine_aspect_ratio visual_intent s = (o, s') →
  s' = s
  ∧ match o with
    | Ret aspect_ratio =>
        (aspect_ratio = "16:9" ∨ aspect_ratio = "3:2")
        ∧ (aspect_ratio = "3:2" ↔
           visual_intent = JStr "Detailed Module"
           ∨ visual_intent = JStr "Architecture Diagram")
    | Raise e => (∃ l, visual_intent = JList l) ∨ (∃ m, visual_intent = JObj m)
    | Exit _ => False
    end.
Proof.
  unfold determine_aspect_ratio.
  destruct visual_intent as [| | |x| |]; intros [= <- <-]; (split; [done|]); eauto;
    try (split; [by left|]; split; [done|by intros [|]]).
  unfold aspect_mapping.
  destruct (decide (x = "Pipeline/Flow")) as [->|]; [by vm_compute; split; [left|split; [|intros [|]]]|].
  destruct (decide (x = "Framework Overview")) as [->|]; [by vm_compute; split; [left|split; [|intros [|]]]|].
  destruct (decide (x = "Detailed Module")) as [->|]; [vm_compute; split; [by right|split; [by left|done]]|].
  destruct (decide (x = "Architecture Diagram")) as [->|]; [vm_compute; split; [by right|split; [by right|done]]|].
  rewrite !lookup_insert_ne, lookup_empty by done. cbn.
  split; [by left|]. split; [done|]. intros [[= ?]|[= ?]]; done.
Qed.

Lemma loop_cases_ratio methodology output_path work_dir results stylist_output s o s' :
  visualizer_critic_loop svc methodology output_path work_dir results stylist_output s
    = (o, s') →
  ((∃ e, o = Raise e) ∧ s' = s
   ∧ (stylist_output !! "styled_description" = None
      ∨ ∃ e, determine_aspect_ratio (get results "visual_intent" (JStr "")) s
             = (Raise e, s)))
  ∨ ∃ d0 aspect_ratio o_loop,
      stylist_output !! "styled_description" = Some d0
      ∧ determine_aspect_ratio (get results "visual_intent" (JStr "")) s
        = (Ret aspect_ratio, s)
      ∧ for_each (seq 1 MAX_REFINEMENTS)
          (loop_body svc methodology output_path work_dir aspect_ratio)
          {| results := results; current_description := d0;
             stylist_output := stylist_output |} s = (o_loop, s')
      ∧ match o_loop with
        | Ret v => o = Ret (summary svc output_path work_dir (Orchestrate.results v))
        | Raise e => o = Raise e
        | Exit c => o = Exit c
        end.
Proof.
  unfold visualizer_critic_loop. intros Hrun.
  destruct (stylist_output !! "styled_description") as [d0|];
    [|inversion Hrun; subst; left; repeat split; eauto].
  unfold bind at 1 in Hrun.
  destruct (determine_aspect_ratio _ s) as [oa sa] eqn:Ha.
  pose proof (determine_aspect_ratio_cases _ _ _ _ Ha) as [-> Hcase].
  destruct oa as [aspect_ratio|e|c]; [|inversion Hrun; subst; left; repeat split; eauto|done].
  right. exists d0, aspect_ratio.
  unfold bind in Hrun.
  change (range 1 (MAX_REFINEMENTS + 1)) with (seq 1 MAX_REFINEMENTS) in Hrun.
  destruct (for_each _ _ _ s) as [[v|e|c] sl]; inversion Hrun; subst; by eexists.
Qed.

Lemma body_spec_call_for output_path aspect_ratio i v s o s' :
  body_spec output_path aspect_ratio i v s o s' →
  ∃ new, trace s' = trace s ++ new ∧ Forall (call_for output_path aspect_ratio) new.
Proof.
  assert (∀ xs, quiet xs → Forall (call_for output_path aspect_ratio) xs) as Hq.
  { intros xs Q. eapply Forall_impl; [exact Q|]. by intros []. }
  assert (∀ d, call_for output_path aspect_ratio
                 (CallGenerateImage i (quality_prefix +:+ d) output_path aspect_ratio))
    as Hcall.
  { intros d. repeat split. apply prefix_app. }
  destruct 1 as [e Hd|d inner o s' Hd Q1 Hf T|d inner msg s' Hd Q1 T
                |d inner inner' o s' Hd Q1 Q2 Hf T
                |d inner inner' verdict o s' Hd Q1 Q2 Hf Hl T
                |d inner inner' verdict l sc s' Hd Q1 Q2 Hl Hsc T].
  - exists []. by rewrite app_nil_r.
  - eexists. split; [exact T|]. constructor; [apply Hcall|by apply Hq].
  - eexists. split; [exact T|]. constructor; [apply Hcall|by apply Hq].
  - eexists. split; [exact T|]. constructor; [apply Hcall|].
    apply Forall_app. split; [by apply Hq|]. constructor; [done|by apply Hq].
  - eexists. split; [exact T|]. constructor; [apply Hcall|].
    apply Forall_app. split; [by apply Hq|]. constructor; [done|].
    apply Forall_app. split; [by apply Hq|]. by constructor.
  - eexists. split; [exact T|]. constructor; [apply Hcall|].
    apply Forall_app. split; [by apply Hq|]. constructor; [done|].
    apply Forall_app. split; [by apply Hq|]. by constructor.
Qed.

Lemma for_each_call_for methodology output_path work_dir aspect_ratio n a v s o s' :
  for_each (seq a n) (loop_body svc methodology output_path work_dir aspect_ratio) v s
    = (o, s') →
  ∃ new, trace s' = trace s ++ new ∧ Forall (call_for output_path aspect_ratio) new.
Proof.
  revert n a v s o s'.
  apply (loop_ind svc methodology output_path work_dir aspect_ratio
    (λ a n v s o s',
       ∃ new, trace s' = trace s ++ new
              ∧ Forall (call_for output_path aspect_ratio) new)).
  - intros a v s. exists []. by rewrite app_nil_r.
  - intros a n v s v' s' Hb. by eapply body_spec_call_for.
  - intros a n v s o s' o' Hb _ _. by eapply body_spec_call_for.
  - intros a n v s v1 s1 o s' (new & T & Hn)%body_spec_call_for (rest & T' & Hn').
    exists (new ++ rest). split; [by rewrite T', T, app_assoc|by apply Forall_app].
Qed.

Lemma for_each_outcome methodology output_path work_dir aspect_ratio n a v s o s' :
  for_each (seq a n) (loop_body svc methodology output_path work_dir aspect_ratio) v s
    = (o, s') →
  (0 < n)%nat → (a + n = S MAX_REFINEMENTS)%nat →
  ∀ v', o = Ret v' →
    (∃ message,
        results v' !! "error" = Some (JStr message)
        ∧ results v' !! "accepted" = results v !! "accepted"
        ∧ results v' !! "final_scores" = results v !! "final_scores")
    ∨ (results v' !! "accepted" = Some (JBool true)
       ∧ (∃ sc, results v' !! "final_scores" = Some (JObj sc))
       ∧ results v' !! "error" = results v !! "error").
Proof.
  revert n a v s o s'.
  apply (loop_ind svc methodology output_path work_dir aspect_ratio
    (λ a n v s o s',
       (0 < n)%nat → (a + n = S MAX_REFINEMENTS)%nat →
       ∀ v', o = Ret v' →
         (∃ message,
             results v' !! "error" = Some (JStr message)
             ∧ results v' !! "accepted" = results v !! "accepted"
             ∧ results v' !! "final_scores" = results v !! "final_scores")
         ∨ (results v' !! "accepted" = Some (JBool true)
            ∧ (∃ sc, results v' !! "final_scores" = Some (JObj sc))
            ∧ results v' !! "error" = results v !! "error"))).
  - intros a v s Hn. lia.
  - intros a n v s v' s' Hb _ _ v0 [= <-].
    apply body_spec_ret in Hb
      as [(d & inner & msg & _ & -> & _)
         |(d & inner & inner' & w & l & sc & Hdec & _ & _ & _ & Hl & Hsc & _)].
    + left. exists msg. cbn. by simplify_map_eq.
    + right. symmetry in Hdec. apply decision_break in Hdec as [_ ->].
      rewrite closing_accepted, closing_final_scores, Hsc, closing_other by done.
      cbn. split; [done|]. split; [by eexists|]. by rewrite lookup_insert_ne.
  - intros a n v s o s' o' _ _ Hf _ _ v' ->. done.
  - intros a n v s v1 s1 o s' Hb IH _ Han v' Ho.
    apply body_spec_ret in Hb
      as [(d & inner & msg & ? & _)
         |(d & inner & inner' & w & l & sc & Hdec & _)]; [done|].
    symmetry in Hdec. apply decision_continue in Hdec as (Hnot & Hres & _).
    assert (a < MAX_REFINEMENTS)%nat as Hlt.
    { destruct (decide (MAX_REFINEMENTS ≤ a)%nat) as [Hle|]; [|lia].
      exfalso. apply Hnot. right. by left. }
    destruct (IH ltac:(lia) ltac:(lia) v' Ho) as [(msg & He & Ha & Hf)|(Ha & Hf & He)];
      rewrite Hres in *; cbn in *; rewrite ?lookup_insert_ne in * by done; eauto.
Qed.

End WithServices.
End HistoryFacts.

(** ** The paths the loop writes to, and the shape of a pass *)

Module FileFacts.
Import GenerateImage Critic Retriever Orchestrate Run Observe StringFacts Facts RenderFacts LoopFacts HistoryFacts.

Lemma path_join_inj work_dir a b : path_join work_dir a = path_join work_dir b → a = b.
Proof. unfold path_join. by intros ?%String.app_inj%String.app_inj. Qed.

Lemma critic_output_path_inj work_dir i j :
  critic_output_path work_dir i = critic_output_path work_dir j → i = j.
Proof.
  unfold critic_output_path.
  intros H%path_join_inj%app_inv_tail_str%String.app_inj. by apply (inj pretty) in H.
Qed.

Lemma critic_output_path_revised work_dir i j :
  critic_output_path work_dir i ≠ revised_stylist_path work_dir j.
Proof.
  unfold critic_output_path, revised_stylist_path.
  intros H%path_join_inj%app_inv_tail_str. by rewrite !app_cons in H.
Qed.

Lemma png_not_json p x : endswith (lower p) ".png" = true → p ≠ x +:+ ".json".
Proof.
  intros H ->. rewrite lower_app in H. unfold endswith in H. rewrite rev_app in H.
  change (String.rev (lower ".json")) with "nosj." in H.
  change (String.rev ".png") with "gnp." in H.
  by rewrite !app_cons in H.
Qed.

Lemma png_path_ends output_path : endswith (lower (png_path output_path)) ".png" = true.
Proof.
  unfold png_path. destruct (endswith (lower output_path) ".png") eqn:E; [done|].
  cbn [negb]. rewrite lower_app. apply endswith_app.
Qed.

Lemma png_path_intermediate output_path work_dir name :
  png_path output_path ≠ path_join work_dir (name +:+ ".json").
Proof.
  unfold path_join. rewrite <- !app_assoc_str.
  apply png_not_json, png_path_ends.
Qed.


Section WithServices.
Variable svc : services.

(** One pass through the body of the loop: the events it adds and the
    files it leaves. *)
Lemma loop_body_shape methodology output_path work_dir aspect_ratio i v s o s' :
  loop_body svc methodology output_path work_dir aspect_ratio i v s = (o, s') →
  ((∀ d, current_description v ≠ JStr d) ∧ s' = s ∧ ∃ e, o = Raise e)
  ∨ ∃ d inner,
      current_description v = JStr d
      ∧ Forall render_event inner
      ∧ let call := CallGenerateImage i (quality_prefix +:+ d) output_path aspect_ratio in
        let crit := CallRunCritic i output_path (stylist_output v) in
        (trace s' = trace s ++ call :: inner ∧ fs s' = fs s
         ∧ ((o = Exit 1 ∧ api_key_set svc = false ∧ inner = [])
            ∨ (∃ last_error,
                 api_key_set svc = true
                 ∧ o = Ret (Break,
                            record_error (exn_str (exhausted_error last_error)) v))))
        ∨ ∃ pre reply payload,
            inner = pre ++ [ApiImage DEFAULT_MODEL (quality_prefix +:+ d) reply]
            ∧ saved_payload svc reply = Some payload
            ∧ api_key_set svc = true
            ∧ let fs1 := <[png_path output_path := FPng payload]> (fs s) in
              (fs1 !! output_path = None ∧ o = Exit 1
               ∧ trace s' = trace s ++ call :: inner ++ [crit] ∧ fs s' = fs1)
              ∨ ∃ img vreply,
                  fs1 !! output_path = Some img
                  ∧ let request :=
                      critic_request_for svc img output_path methodology
                        (stylist_output v) in
                    let asked :=
                      trace s ++ call :: inner ++ [crit; ApiCritic request vreply] in
                    ((∃ e, o = Raise e) ∧ trace s' = asked ∧ fs s' = fs1)
                    ∨ ∃ result,
                        vreply = VlmText (Some (JObj result))
                        ∧ let verdict := <["iteration" := JNum (Z.of_nat i)]> result in
                          trace s' = asked ++ [ReturnRunCritic i verdict]
                          ∧ fs s' !! critic_output_path work_dir i
                            = Some (FJson (JObj verdict))
                          ∧ (∀ p, p ≠ critic_output_path work_dir i →
                                  p ≠ revised_stylist_path work_dir i →
                                  fs s' !! p = fs1 !! p)
                          ∧ ((∃ e, o = Raise e
                                   ∧ ∀ l, results v !! "iterations" ≠ Some (JList l))
                             ∨ ∃ l, results v !! "iterations" = Some (JList l)
                                 ∧ o = Ret (decision i verdict
                                              (record_verdict verdict l v))).
Proof.
  intros Hrun.
  apply loop_body_run in Hrun
    as [?|(d & og & s1 & Hd & Hgen & Hrest)]; [by left|].
  right. pose proof Hgen as Hkey. pose proof Hgen as Hkey0.
  apply generate_image_effect in Hgen as (inner & T1 & Hr & Hog). cbn [trace fs] in T1, Hog.
  rewrite <- app_assoc in T1. cbn [app] in T1.
  exists d, inner. split; [done|]. split; [done|]. cbn zeta.
  destruct og as [p|e|c].
  2:{ left. destruct Hrest as [-> ->]. destruct Hog as (Hk & Hfs & last_error & ->).
      split; [done|]. split; [done|]. right. exists last_error. split; [done|].
      by destruct (decide _). }
  2:{ left. destruct Hrest as [-> ->]. destruct Hog as (-> & Hk & ->).
      cbn [trace] in T1. rewrite <- (app_nil_r (trace s ++ _)), <- app_assoc in T1.
      apply app_inv_head in T1. cbn in T1. injection T1 as <-.
      split; [done|]. split; [done|]. by left. }
  apply generate_image_needs_key in Hkey.
  destruct Hrest as (oc & s3 & Hcr & Hrest).
  destruct p as [p|].
  2:{ by apply generate_image_saved in Hkey0. }
  destruct Hog as (-> & pre & reply & payload & -> & Hpay & Hfs1).
  right. exists pre, reply, payload. split; [done|]. split; [done|]. split; [done|].
  apply run_critic_cases in Hcr as [Hfs3 Hcr]. cbn [trace fs] in Hfs3, Hcr.
  rewrite Hfs1 in Hfs3, Hcr.
  destruct Hcr as [(-> & T3 & [Hk|Hnone])|(img & vreply & _ & Himg & _ & T3 & Ho)].
  { congruence. }
  { left. destruct Hrest as [-> ->]. split; [done|]. split; [done|].
    split; [|done]. rewrite T3, T1, <- !app_assoc. cbn. by rewrite <- ?app_assoc. }
  right. exists img, vreply. split; [done|].
  assert (trace s3 = trace s
            ++ CallGenerateImage i (quality_prefix +:+ d) output_path aspect_ratio
            :: (pre ++ [ApiImage DEFAULT_MODEL (quality_prefix +:+ d) reply])
            ++ [CallRunCritic i output_path (stylist_output v);
                ApiCritic (critic_request_for svc img output_path methodology
                             (stylist_output v)) vreply]) as T3'.
  { rewrite T3, T1, <- !app_assoc. cbn. by rewrite <- !app_assoc. }
  destruct Ho as [[e ->]|(result & -> & ->)].
  { left. destruct Hrest as [-> ->]. split; [by eexists|done]. }
  right. exists result. split; [done|].
  set (verdict := <["iteration" := JNum (Z.of_nat i)]> result) in *.
  assert (trace s' = trace s3 ++ [ReturnRunCritic i verdict]
          ∧ fs s' !! critic_output_path work_dir i = Some (FJson (JObj verdict))
          ∧ (∀ p, p ≠ critic_output_path work_dir i →
                  p ≠ revised_stylist_path work_dir i →
                  fs s' !! p = fs s3 !! p)
          ∧ ((∃ e, o = Raise e ∧ ∀ l, results v !! "iterations" ≠ Some (JList l))
             ∨ ∃ l, results v !! "iterations" = Some (JList l)
                 ∧ o = Ret (decision i verdict (record_verdict verdict l v))))
    as (T & Hfile & Hframe & Ho).
  { destruct (results v !! "iterations") as [[| | | |l|]|] eqn:Hl;
      try (destruct Hrest as ([e ->] & T & Hfs); split; [done|];
           rewrite Hfs; split; [apply lookup_insert_eq|];
           split; [intros p Hp _; by apply lookup_insert_ne|];
           left; exists e; split; [done|]; by intros l').
    destruct Hrest as (-> & T & Hfs). split; [done|].
    rewrite Hfs. split; [|split].
    - destruct (decision _ _ _).1.
      + rewrite lookup_insert_ne by (symmetry; apply critic_output_path_revised).
        apply lookup_insert_eq.
      + apply lookup_insert_eq.
    - intros p Hp Hp'. destruct (decision _ _ _).1;
        by rewrite ?lookup_insert_ne by done.
    - right. by exists l. }
  split; [by rewrite T, T3'|]. split; [done|]. split; [|done].
  intros p Hp Hp'. by rewrite Hframe, Hfs3.
Qed.

End WithServices.
End FileFacts.

(** ** The files a run leaves *)

Module DiskFacts.
Import GenerateImage Critic Retriever Orchestrate Run Observe StringFacts Facts RenderFacts LoopFacts HistoryFacts FileFacts.

Lemma render_event_In ev inner :
  Forall render_event inner → In ev inner → render_event ev.
Proof. intros H Hin. eapply Forall_forall in H; [done|]. by apply list_elem_of_In. Qed.

Section WithServices.
Variable svc : services.

Lemma loop_body_files methodology output_path work_dir aspect_ratio i v s o s' :
  loop_body svc methodology output_path work_dir aspect_ratio i v s = (o, s') →
  ∃ new, trace s' = trace s ++ new
    ∧ (∀ j w, In (ReturnRunCritic j w) new →
         j = i ∧ fs s' !! critic_output_path work_dir i = Some (FJson (JObj w)))
    ∧ (∀ p, p ≠ png_path output_path → p ≠ critic_output_path work_dir i →
            p ≠ revised_stylist_path work_dir i → fs s' !! p = fs s !! p).
Proof.
  intros [(_ & -> & _)|(d & inner & Hd & Hr & Hcase)]%loop_body_shape.
  { exists []. rewrite app_nil_r. split; [done|]. split; [by intros ?? []|done]. }
  cbn zeta in Hcase.
  destruct Hcase as [(T & Hfs & _)|(pre & reply & payload & -> & Hpay & Hkey & Hcase)].
  { eexists. split; [exact T|]. split; [|by rewrite Hfs].
    intros j w [?|Hin]; [done|]. by apply (render_event_In _ _ Hr) in Hin. }
  destruct Hcase as [(Hnone & -> & T & Hfs)|(img & vreply & Himg & Hcase)].
  { eexists. split; [exact T|]. split.
    - intros j w [?|[Hin|[?|[]]]%in_app_or]; try done.
      by apply (render_event_In _ _ Hr) in Hin.
    - intros p Hp _ _. by rewrite Hfs, lookup_insert_ne. }
  destruct Hcase as [(_ & T & Hfs)|(result & -> & T & Hfile & Hframe & _)].
  { eexists. split; [exact T|]. split.
    - intros j w [?|[Hin|[?|[?|[]]]]%in_app_or]; try done.
      by apply (render_event_In _ _ Hr) in Hin.
    - intros p Hp _ _. by rewrite Hfs, lookup_insert_ne. }
  eexists. split; [rewrite T, <- app_assoc; reflexivity|]. split.
  - intros j w [[?|[Hin|[?|[?|[]]]]%in_app_or]|[[= <- <-]|[]]]%in_app_or; try done.
    by apply (render_event_In _ _ Hr) in Hin.
  - intros p Hp Hp1 Hp2. by rewrite Hframe, lookup_insert_ne.
Qed.

Lemma for_each_files methodology output_path work_dir aspect_ratio n a v s o s' :
  for_each (seq a n) (loop_body svc methodology output_path work_dir aspect_ratio) v s
    = (o, s') →
  ∃ new, trace s' = trace s ++ new
    ∧ (∀ j w, In (ReturnRunCritic j w) new →
         (a ≤ j)%nat
         ∧ fs s' !! critic_output_path work_dir j = Some (FJson (JObj w)))
    ∧ (∀ p, p ≠ png_path output_path →
            (∀ j, (a ≤ j)%nat → p ≠ critic_output_path work_dir j
                                ∧ p ≠ revised_stylist_path work_dir j) →
            fs s' !! p = fs s !! p).
Proof.
  revert n a v s o s'.
  assert (∀ a v s (o : outcome (flow * loop_vars)) s',
            loop_body svc methodology output_path work_dir aspect_ratio a v s = (o, s') →
            ∃ new, trace s' = trace s ++ new
              ∧ (∀ j w, In (ReturnRunCritic j w) new →
                   (a ≤ j)%nat
                   ∧ fs s' !! critic_output_path work_dir j = Some (FJson (JObj w)))
              ∧ (∀ p, p ≠ png_path output_path →
                      (∀ j, (a ≤ j)%nat → p ≠ critic_output_path work_dir j
                                          ∧ p ≠ revised_stylist_path work_dir j) →
                      fs s' !! p = fs s !! p)) as Hone.
  { intros a v s o s' (new & T & Hv & Hframe)%loop_body_files.
    exists new. split; [done|]. split.
    - intros j w [-> Hf]%Hv. done.
    - intros p Hp Hj. destruct (Hj a) as [? ?]; [done|]. by apply Hframe. }
  apply (for_each_seq_ind (loop_body svc methodology output_path work_dir aspect_ratio)
    (λ a n v s o s',
       ∃ new, trace s' = trace s ++ new
         ∧ (∀ j w, In (ReturnRunCritic j w) new →
              (a ≤ j)%nat
              ∧ fs s' !! critic_output_path work_dir j = Some (FJson (JObj w)))
         ∧ (∀ p, p ≠ png_path output_path →
                 (∀ j, (a ≤ j)%nat → p ≠ critic_output_path work_dir j
                                     ∧ p ≠ revised_stylist_path work_dir j) →
                 fs s' !! p = fs s !! p))).
  - intros a v s. exists []. rewrite app_nil_r. split; [done|]. split; [by intros ?? []|done].
  - intros a n v s v' s' Hb. by eapply Hone.
  - intros a n v s e s' Hb. by eapply Hone.
  - intros a n v s c s' Hb. by eapply Hone.
  - intros a n v s v1 s1 o s' (new & T & Hv & Hframe)%loop_body_files
      (rest & T' & Hv' & Hframe').
    exists (new ++ rest). split; [by rewrite T', T, app_assoc|]. split.
    + intros j w [Hin|Hin]%in_app_or.
      * apply Hv in Hin as [-> Hf]. split; [done|].
        rewrite Hframe'; [done| |].
        -- intros E. symmetry in E. by apply png_path_intermediate in E.
        -- intros j Hj. split; [|apply critic_output_path_revised].
           intros E%critic_output_path_inj. lia.
      * apply Hv' in Hin as [? ?]. split; [lia|done].
    + intros p Hp Hj. rewrite Hframe'; [|done|intros j ?; apply Hj; lia].
      destruct (Hj a) as [? ?]; [done|]. by apply Hframe.
Qed.


Lemma loop_files methodology output_path work_dir results stylist_output s o s' :
  visualizer_critic_loop svc methodology output_path work_dir results stylist_output s
    = (o, s') →
  ∃ new, trace s' = trace s ++ new
    ∧ (∀ i verdict, In (ReturnRunCritic i verdict) new →
         fs s' !! critic_output_path work_dir i = Some (FJson (JObj verdict)))
    ∧ (∀ p, p ≠ png_path output_path →
            (∀ i, p ≠ critic_output_path work_dir i
                  ∧ p ≠ revised_stylist_path work_dir i) →
            fs s' !! p = fs s !! p).
Proof.
  intros Hrun.
  apply loop_cases in Hrun as [[_ ->]|(d0 & ar & o_loop & Hloop & _)].
  - exists []. rewrite app_nil_r. split; [done|]. split; [by intros ?? []|done].
  - apply for_each_files in Hloop as (new & T & Hv & Hframe).
    exists new. split; [done|]. split.
    + intros i w Hin. by apply Hv in Hin as [_ ?].
    + intros p Hp Hi. apply Hframe; [done|]. intros j _. apply Hi.
Qed.

End WithServices.
End DiskFacts.

(** ** The image the critic is shown *)

Module CriticFacts.
Import GenerateImage Critic Retriever Orchestrate Run Observe StringFacts Facts RenderFacts LoopFacts HistoryFacts FileFacts DiskFacts.

Lemma judged_fresh_none svc output_path evs :
  Forall (λ ev, is_api_critic ev = false) evs → judged_fresh svc output_path evs.
Proof.
  intros H k request reply Hk. eapply Forall_lookup_1 in H; [|exact Hk]. done.
Qed.

Lemma judged_fresh_app svc output_path xs ys :
  judged_fresh svc output_path xs → judged_fresh svc output_path ys →
  judged_fresh svc output_path (xs ++ ys).
Proof.
  intros Hx Hy k request reply Hk.
  apply lookup_app_Some in Hk as [Hk|[Hlen Hk]].
  - destruct (Hx _ _ _ Hk) as (k' & m & p & r & i & so & payload & -> & H1 & H2 & H3 & H4).
    exists k', m, p, r, i, so, payload. split; [done|].
    split; [by apply lookup_app_l_Some|]. split; [by apply lookup_app_l_Some|done].
  - destruct (Hy _ _ _ Hk) as (k' & m & p & r & i & so & payload & E & H1 & H2 & H3 & H4).
    exists (length xs + k')%nat, m, p, r, i, so, payload. split; [lia|].
    split; [by rewrite lookup_app_r, Nat.add_comm, Nat.add_sub by lia|].
    split; [|done].
    replace (S (length xs + k')) with (length xs + S k')%nat by lia.
    by rewrite lookup_app_r, Nat.add_comm, Nat.add_sub by lia.
Qed.

Lemma judged_fresh_pass svc output_path model prompt r i so request reply payload :
  saved_payload svc r = Some payload →
  cr_image request = FPng payload →
  judged_fresh svc output_path
    [ApiImage model prompt r; CallRunCritic i output_path so; ApiCritic request reply].
Proof.
  intros Hp Hi k request' reply' Hk.
  destruct k as [|[|[|k]]]; try done. injection Hk as <- <-.
  by exists 0%nat, model, prompt, r, i, so, payload.
Qed.

Lemma render_not_critic evs :
  Forall render_event evs → Forall (λ ev, is_api_critic ev = false) evs.
Proof. intros H. eapply Forall_impl; [exact H|]. by intros []. Qed.

Section WithServices.
Variable svc : services.

Lemma loop_body_fresh methodology output_path work_dir aspect_ratio i v s o s' :
  endswith (lower output_path) ".png" = true →
  loop_body svc methodology output_path work_dir aspect_ratio i v s = (o, s') →
  ∃ new, trace s' = trace s ++ new ∧ judged_fresh svc output_path new.
Proof.
  intros Hext [(_ & -> & _)|(d & inner & Hd & Hr & Hcase)]%loop_body_shape.
  { exists []. rewrite app_nil_r. split; [done|]. by apply judged_fresh_none. }
  assert (png_path output_path = output_path) as Hpng.
  { unfold png_path. by rewrite Hext. }
  cbn zeta in Hcase. rewrite Hpng in Hcase.
  destruct Hcase as [(T & Hfs & _)|(pre & reply & payload & -> & Hpay & Hkey & Hcase)].
  { eexists. split; [exact T|]. apply judged_fresh_none.
    constructor; [done|by apply render_not_critic]. }
  rewrite lookup_insert_eq in Hcase.
  apply Forall_app in Hr as [Hr _].
  destruct Hcase as [(? & _)|(img & vreply & [= <-] & Hcase)]; [done|].
  set (call := CallGenerateImage i (quality_prefix +:+ d) output_path aspect_ratio) in *.
  assert (judged_fresh svc output_path
            ((call :: pre)
               ++ [ApiImage DEFAULT_MODEL (quality_prefix +:+ d) reply;
                   CallRunCritic i output_path (stylist_output v);
                   ApiCritic (critic_request_for svc (FPng payload) output_path
                                methodology (stylist_output v)) vreply])) as Hfresh.
  { apply judged_fresh_app.
    - apply judged_fresh_none. constructor; [done|by apply render_not_critic].
    - by eapply judged_fresh_pass. }
  assert (∀ asked tail,
            call :: (pre ++ [ApiImage DEFAULT_MODEL (quality_prefix +:+ d) reply])
              ++ asked :: tail
            = (call :: pre)
                ++ ApiImage DEFAULT_MODEL (quality_prefix +:+ d) reply :: asked :: tail)
    as Hshape.
  { intros asked tail. cbn. by rewrite <- app_assoc. }
  destruct Hcase as [(_ & T & _)|(result & -> & T & _)].
  - eexists. split; [exact T|]. rewrite Hshape. exact Hfresh.
  - eexists. split; [rewrite T, <- app_assoc; reflexivity|].
    cbn [app]. rewrite <- app_assoc. cbn [app]. rewrite Hshape.
    change (?a :: ?b :: ?c :: [?e]) with ([a; b; c] ++ [e]). rewrite app_assoc.
    apply judged_fresh_app; [exact Hfresh|]. apply judged_fresh_none. by repeat constructor.
Qed.

Lemma for_each_fresh methodology output_path work_dir aspect_ratio n a v s o s' :
  endswith (lower output_path) ".png" = true →
  for_each (seq a n) (loop_body svc methodology output_path work_dir aspect_ratio) v s
    = (o, s') →
  ∃ new, trace s' = trace s ++ new ∧ judged_fresh svc output_path new.
Proof.
  intros Hext. revert n a v s o s'.
  apply (for_each_seq_ind (loop_body svc methodology output_path work_dir aspect_ratio)
    (λ a n v s o s', ∃ new, trace s' = trace s ++ new ∧ judged_fresh svc output_path new)).
  - intros a v s. exists []. rewrite app_nil_r. split; [done|]. by apply judged_fresh_none.
  - intros a n v s v' s' Hb. by eapply loop_body_fresh.
  - intros a n v s e s' Hb. by eapply loop_body_fresh.
  - intros a n v s c s' Hb. by eapply loop_body_fresh.
  - intros a n v s v1 s1 o s' (new & T & Hn)%loop_body_fresh (rest & T' & Hn'); [|done].
    exists (new ++ rest). split; [by rewrite T', T, app_assoc|by apply judged_fresh_app].
Qed.


Lemma loop_body_unevaluated methodology output_path work_dir aspect_ratio i v s o s' :
  endswith (lower output_path) ".png" = false →
  fs s !! output_path = None →
  loop_body svc methodology output_path work_dir aspect_ratio i v s = (o, s') →
  ∃ new, trace s' = trace s ++ new
    ∧ Forall (λ ev, is_api_critic ev = false ∧ verdicts [ev] = []) new
    ∧ (count is_render new ≤ 1)%nat
    ∧ ((fs s' = fs s
        ∧ (o = Exit 1 ∨ (∃ e, o = Raise e)
           ∨ ∃ message, o = Ret (Break, record_error message v)))
       ∨ (o = Exit 1
          ∧ ∃ payload, fs s' = <[output_path +:+ ".png" := FPng payload]> (fs s))).
Proof.
  intros Hext Hnone [(_ & -> & e & ->)|(d & inner & Hd & Hr & Hcase)]%loop_body_shape.
  { exists []. rewrite app_nil_r. split; [done|]. split; [done|]. split; [cbn; lia|].
    left. split; [done|]. right. left. by eexists. }
  assert (png_path output_path = output_path +:+ ".png") as Hpng.
  { unfold png_path. by rewrite Hext. }
  assert (Forall (λ ev, is_api_critic ev = false ∧ verdicts [ev] = []) inner) as Hin.
  { eapply Forall_impl; [exact Hr|]. by intros []. }
  assert (count is_render inner = 0%nat) as Hcount.
  { apply count_none. intros ev Hev. apply (render_event_In _ _ Hr) in Hev. by destruct ev. }
  cbn zeta in Hcase. rewrite Hpng in Hcase.
  destruct Hcase as [(T & Hfs & Ho)|(pre & reply & payload & E & Hpay & Hkey & Hcase)].
  { eexists. split; [exact T|]. split; [by constructor|].
    split; [rewrite count_cons, Hcount; cbn; lia|].
    left. split; [done|].
    destruct Ho as [(-> & _)|(e & _ & ->)]; eauto. }
  rewrite lookup_insert_ne in Hcase by (by apply app_neq_self).
  destruct Hcase as [(_ & -> & T & Hfs)|(img & vreply & ? & _)]; [|congruence].
  eexists. split; [exact T|]. split.
  - constructor; [done|]. apply Forall_app. split; [done|]. by constructor.
  - split; [|right; eauto].
    rewrite count_cons, count_app, Hcount. cbn. lia.
Qed.

Lemma saved_payload_none reply e :
  attempt_error svc reply = Some e → saved_payload svc reply = None.
Proof.
  intros He. destruct (saved_payload svc reply) eqn:E; [|done].
  assert (attempt_error svc reply = None) by (apply saved_payload_error; eauto).
  congruence.
Qed.

Lemma generate_image_all_fail prompt output_path model aspect_ratio s :
  (∀ history model prompt, is_Some (attempt_error svc (image_model svc history model prompt))) →
  api_key_set svc = true →
  ∃ r0 r1 r2 last_error,
    generate_image svc prompt output_path model aspect_ratio s
    = (Raise (exhausted_error last_error),
       {| fs := fs s;
          trace := trace s ++ [ApiImage model prompt r0; Sleep RETRY_BASE_DELAY;
                               ApiImage model prompt r1; Sleep (2 * RETRY_BASE_DELAY);
                               ApiImage model prompt r2] |})
    ∧ attempt_error svc r2 = Some last_error.
Proof.
  intros Hdown Hkey. unfold generate_image, GenerateImage.get_api_key.
  unfold api_key_set in Hkey. destruct (GOOGLE_API_KEY svc) as [key|]; [|done].
  rewrite Hkey. unfold bind at 1, ret at 1.
  change (seq 0 MAX_RETRIES) with [0; 1; 2]%nat.
  rewrite retry_loop_step, attempt_body_run.
  destruct (Hdown (trace s) model prompt) as [e0 H0].
  rewrite H0, (saved_payload_none _ _ H0), bool_decide_true by (cbv; lia).
  set (r0 := image_model svc (trace s) model prompt) in *.
  rewrite retry_loop_step, attempt_body_run. cbn [slept trace fs].
  set (h1 := (trace s ++ _) ++ _).
  destruct (Hdown h1 model prompt) as [e1 H1].
  rewrite H1, (saved_payload_none _ _ H1), bool_decide_true by (cbv; lia).
  set (r1 := image_model svc h1 model prompt) in *.
  rewrite retry_loop_step, attempt_body_run. cbn [slept trace fs].
  set (h2 := (h1 ++ _) ++ _).
  destruct (Hdown h2 model prompt) as [e2 H2].
  rewrite H2, (saved_payload_none _ _ H2), bool_decide_false by (cbv; lia).
  set (r2 := image_model svc h2 model prompt) in *.
  exists r0, r1, r2, e2. split; [|done].
  f_equal. f_equal. unfold h2, h1. rewrite <- !app_assoc. done.
Qed.


Lemma loop_body_stale methodology output_path work_dir aspect_ratio i v s o s' :
  endswith (lower output_path) ".png" = false →
  output_path ≠ critic_output_path work_dir i →
  output_path ≠ revised_stylist_path work_dir i →
  loop_body svc methodology output_path work_dir aspect_ratio i v s = (o, s') →
  ∃ new, trace s' = trace s ++ new
    ∧ fs s' !! output_path = fs s !! output_path
    ∧ ∀ request reply, In (ApiCritic request reply) new →
        fs s !! output_path = Some (cr_image request).
Proof.
  intros Hext Hc Hr Hrun.
  assert (png_path output_path = output_path +:+ ".png") as Hpng.
  { unfold png_path. by rewrite Hext. }
  assert (output_path ≠ png_path output_path) as Hne.
  { rewrite Hpng. by apply not_eq_sym, app_neq_self. }
  destruct (loop_body_files svc _ _ _ _ _ _ _ _ _ Hrun) as (new & T & _ & Hframe).
  exists new. split; [done|]. split; [by apply Hframe|].
  apply loop_body_shape in Hrun as [(_ & -> & _)|(d & inner & Hd & Hrender & Hcase)].
  { rewrite <- (app_nil_r (trace s)) in T at 1. apply app_inv_head in T. subst new.
    by intros ?? []. }
  assert (∀ request reply, ¬ In (ApiCritic request reply) inner) as Hinner.
  { intros request reply Hin. by apply (render_event_In _ _ Hrender) in Hin. }
  cbn zeta in Hcase.
  destruct Hcase as [(T' & _)|(pre & reply & payload & E & Hpay & Hkey & Hcase)].
  { rewrite T' in T. apply app_inv_head in T. subst new.
    intros request vreply [?|Hin]; [done|]. by apply Hinner in Hin. }
  rewrite lookup_insert_ne in Hcase by done.
  destruct Hcase as [(_ & _ & T' & _)|(img & vreply & Himg & Hcase)].
  { rewrite T' in T. apply app_inv_head in T. subst new.
    intros request vreply [?|[Hin|[?|[]]]%in_app_or]; try done. by apply Hinner in Hin. }
  destruct Hcase as [(_ & T' & _)|(result & _ & T' & _)].
  - rewrite T' in T. apply app_inv_head in T. subst new.
    intros request r [?|[Hin|[?|[[= <- _]|[]]]]%in_app_or]; try done.
    by apply Hinner in Hin.
  - rewrite T', <- app_assoc in T. apply app_inv_head in T. subst new.
    intros request r [[?|[Hin|[?|[[= <- _]|[]]]]%in_app_or]|[?|[]]]%in_app_or; try done.
    by apply Hinner in Hin.
Qed.

Lemma for_each_stale methodology output_path work_dir aspect_ratio n a v s o s' :
  endswith (lower output_path) ".png" = false →
  (∀ i, output_path ≠ critic_output_path work_dir i
        ∧ output_path ≠ revised_stylist_path work_dir i) →
  for_each (seq a n) (loop_body svc methodology output_path work_dir aspect_ratio) v s
    = (o, s') →
  ∃ new, trace s' = trace s ++ new
    ∧ fs s' !! output_path = fs s !! output_path
    ∧ ∀ request reply, In (ApiCritic request reply) new →
        fs s !! output_path = Some (cr_image request).
Proof.
  intros Hext Hpaths. revert n a v s o s'.
  assert (∀ a v s (o : outcome (flow * loop_vars)) s',
            loop_body svc methodology output_path work_dir aspect_ratio a v s = (o, s') →
            ∃ new, trace s' = trace s ++ new
              ∧ fs s' !! output_path = fs s !! output_path
              ∧ ∀ request reply, In (ApiCritic request reply) new →
                  fs s !! output_path = Some (cr_image request)) as Hone.
  { intros a v s o s'. destruct (Hpaths a). by apply loop_body_stale. }
  apply (for_each_seq_ind (loop_body svc methodology output_path work_dir aspect_ratio)
    (λ a n v s o s',
       ∃ new, trace s' = trace s ++ new
         ∧ fs s' !! output_path = fs s !! output_path
         ∧ ∀ request reply, In (ApiCritic request reply) new →
             fs s !! output_path = Some (cr_image request))).
  - intros a v s. exists []. rewrite app_nil_r. split; [done|]. split; [done|].
    by intros ?? [].
  - intros a n v s v' s' Hb. by eapply Hone.
  - intros a n v s e s' Hb. by eapply Hone.
  - intros a n v s c s' Hb. by eapply Hone.
  - intros a n v s v1 s1 o s' (new & T & Hfs & Hreq)%Hone (rest & T' & Hfs' & Hreq').
    exists (new ++ rest). split; [by rewrite T', T, app_assoc|].
    split; [by rewrite Hfs', Hfs|].
    intros request reply [Hin|Hin]%in_app_or; [by eapply Hreq|].
    rewrite <- Hfs. by eapply Hreq'.
Qed.

End WithServices.
End CriticFacts.

(** ** The critic and the loop: statements *)

Module LoopTheorems.
Import GenerateImage Critic Retriever Orchestrate Run Observe StringFacts Facts RenderFacts LoopFacts HistoryFacts FileFacts DiskFacts CriticFacts.

Section WithServices.
Variable svc : services.

(** X4: [run_critic] never writes a file.  Without an API key or without
    a file at [image_path] it exits with code 1 before any call of the
    model; otherwise it calls the model exactly once, with the image read
    from [image_path], the methodology and the styled description and
    caption of the stylist output, and a verdict it returns is the JSON
    object of the reply with its [iteration] field set to the iteration of
    the call. *)
Theorem run_critic_verdict image_path methodology stylist_output i s :
  let '(o, s') := run_critic svc image_path methodology stylist_output i s in
  fs s' = fs s
  ∧ ((o = Exit 1 ∧ trace s' = trace s
      ∧ (api_key_set svc = false ∨ fs s !! image_path = None))
     ∨ ∃ request reply,
         api_key_set svc = true
         ∧ fs s !! image_path = Some (cr_image request)
         ∧ cr_methodology request = methodology
         ∧ cr_styled_description request
           = get stylist_output "styled_description" (JStr "")
         ∧ cr_caption request = get stylist_output "caption" (JStr "")
         ∧ reply = critic_model svc (trace s) request
         ∧ trace s' = trace s ++ [ApiCritic request reply]
         ∧ ((∃ e, o = Raise e)
            ∨ ∃ result, reply = VlmText (Some (JObj result))
                ∧ o = Ret (<["iteration" := JNum (Z.of_nat i)]> result))).
Proof.
  destruct (run_critic svc image_path methodology stylist_output i s) as [o s'] eqn:Hrun.
  apply run_critic_cases in Hrun as [Hfs Hcase]. split; [done|].
  destruct Hcase as [?|(img & reply & Hkey & Himg & Hreply & T & Ho)]; [by left|].
  right. by exists (critic_request_for svc img image_path methodology stylist_output), reply.
Qed.

(** X5: when the loop returns, the history [results["iterations"]] is the
    history it started from followed by every verdict the critic returned
    during the run, in the order of the trace: no verdict is dropped,
    repeated or reordered. *)
Theorem history_lists_every_verdict methodology output_path work_dir results
    stylist_output s o s' l0 r :
  visualizer_critic_loop svc methodology output_path work_dir results stylist_output s
    = (o, s') →
  results !! "iterations" = Some (JList l0) →
  o = Ret r →
  ∃ new, trace s' = trace s ++ new
    ∧ r !! "iterations" = Some (JList (l0 ++ (JObj <$> verdicts new))).
Proof. apply loop_history. Qed.

(** X6: in every run of the loop the critic's verdicts come back for the
    iterations 1, 2, ..., k in this order, for some k of at most
    [MAX_REFINEMENTS], and each verdict carries in its [iteration] field
    the number of the iteration it was returned in. *)
Theorem verdicts_are_numbered methodology output_path work_dir results stylist_output s :
  let '(o, s') :=
    visualizer_critic_loop svc methodology output_path work_dir results
      stylist_output s in
  ∃ new k, trace s' = trace s ++ new
    ∧ (k ≤ MAX_REFINEMENTS)%nat
    ∧ verdict_iterations new = seq 1 k
    ∧ Forall numbered new.
Proof.
  destruct (visualizer_critic_loop _ _ _ _ _ _ s) as [o s'] eqn:Hrun.
  apply loop_cases in Hrun as [[_ ->]|(d0 & ar & o_loop & Hloop & _)].
  - exists [], 0%nat. rewrite app_nil_r. repeat split; [lia|done].
  - by apply for_each_numbered in Hloop.
Qed.

(** X7: a run of the loop that returns has either recorded a render error,
    leaving [accepted] and [final_scores] as they were, or has set
    [accepted] to [True] and [final_scores] to a dictionary, leaving
    [error] as it was.  It never returns a result that is neither. *)
Theorem returned_results_are_closed methodology output_path work_dir results
    stylist_output s :
  let '(o, s') :=
    visualizer_critic_loop svc methodology output_path work_dir results
      stylist_output s in
  match o with
  | Ret r =>
      (∃ message,
          r !! "error" = Some (JStr message)
          ∧ r !! "accepted" = results !! "accepted"
          ∧ r !! "final_scores" = results !! "final_scores")
      ∨ (r !! "accepted" = Some (JBool true)
         ∧ (∃ sc, r !! "final_scores" = Some (JObj sc))
         ∧ r !! "error" = results !! "error")
  | Raise _ | Exit _ => True
  end.
Proof.
  destruct (visualizer_critic_loop _ _ _ _ _ _ s) as [o s'] eqn:Hrun.
  apply loop_cases in Hrun as [[Hf _]|(d0 & ar & o_loop & Hloop & Ho)].
  { by destruct o. }
  destruct o_loop as [v'|e|c]; subst o; [|done..].
  rewrite !summary_lookup by done.
  apply (for_each_outcome svc _ _ _ _ _ _ _ _ _ _ Hloop); [cbv; lia|cbv; lia|done].
Qed.

(** X8: every call of the renderer and of the critic in a run of the loop
    is made for the caller's [output_path]; every render call is made with
    one and the same aspect ratio, which is "16:9" or "3:2" and so one of
    the ratios [generate_image] knows, and with a prompt that starts with
    the quality prefix. *)
Theorem calls_are_for_output_path methodology output_path work_dir results
    stylist_output s :
  let '(o, s') :=
    visualizer_critic_loop svc methodology output_path work_dir results
      stylist_output s in
  ∃ new aspect_ratio, trace s' = trace s ++ new
    ∧ (aspect_ratio = "16:9" ∨ aspect_ratio = "3:2")
    ∧ aspect_ratio ∈ ASPECT_RATIOS
    ∧ Forall (call_for output_path aspect_ratio) new.
Proof.
  destruct (visualizer_critic_loop _ _ _ _ _ _ s) as [o s'] eqn:Hrun.
  apply loop_cases_ratio in Hrun as [(_ & -> & _)|(d0 & ar & o_loop & _ & Har & Hloop & _)].
  - exists [], "16:9". rewrite app_nil_r. repeat split; [by left|set_solver|done].
  - apply for_each_call_for in Hloop as (new & T & Hcalls).
    apply determine_aspect_ratio_cases in Har as [_ [Har _]].
    exists new, ar. repeat split; try done.
    destruct Har as [->| ->]; set_solver.
Qed.

(** X9: whatever way a run of the loop ends, every verdict the critic
    returned is on disk in the working directory, in
    [critic_output_iter<i>.json] for its iteration [i]; and the loop
    writes nowhere but to the image path and to its own files in the
    working directory. *)
Theorem verdicts_are_persisted methodology output_path work_dir results
    stylist_output s :
  let '(o, s') :=
    visualizer_critic_loop svc methodology output_path work_dir results
      stylist_output s in
  ∃ new, trace s' = trace s ++ new
    ∧ (∀ i verdict, In (ReturnRunCritic i verdict) new →
         fs s' !! critic_output_path work_dir i = Some (FJson (JObj verdict)))
    ∧ (∀ p, p ≠ png_path output_path →
            (∀ i, p ≠ critic_output_path work_dir i
                  ∧ p ≠ revised_stylist_path work_dir i) →
            fs s' !! p = fs s !! p).
Proof.
  destruct (visualizer_critic_loop _ _ _ _ _ _ s) as [o s'] eqn:Hrun.
  by apply loop_files in Hrun.
Qed.

(** X10: with an output path that ends in ".png" (in any case), every
    request to the critic's model follows at once a saved reply of the
    image model and carries the image just saved: the critic judges the
    render of its own iteration, never an older image. *)
Theorem critic_judges_latest_render methodology output_path work_dir results
    stylist_output s o s' :
  endswith (lower output_path) ".png" = true →
  visualizer_critic_loop svc methodology output_path work_dir results stylist_output s
    = (o, s') →
  ∃ new, trace s' = trace s ++ new ∧ judged_fresh svc output_path new.
Proof.
  intros Hext Hrun.
  apply loop_cases in Hrun as [[_ ->]|(d0 & ar & o_loop & Hloop & _)].
  - exists []. rewrite app_nil_r. split; [done|]. by apply judged_fresh_none.
  - by eapply for_each_fresh.
Qed.

(** X11: with an output path that does not end in ".png" and no file at
    that path, the critic is never consulted and no verdict is returned:
    the renderer is called at most once, and either nothing is written and
    the run fails or returns with a render error, or the image is saved
    under [output_path + ".png"] and the run exits with code 1. *)
Theorem output_path_without_png_suffix methodology output_path work_dir results
    stylist_output s o s' :
  endswith (lower output_path) ".png" = false →
  fs s !! output_path = None →
  visualizer_critic_loop svc methodology output_path work_dir results stylist_output s
    = (o, s') →
  ∃ new, trace s' = trace s ++ new
    ∧ count is_api_critic new = 0%nat
    ∧ verdicts new = []
    ∧ (count is_render new ≤ 1)%nat
    ∧ ((fs s' = fs s
        ∧ match o with
          | Ret r => ∃ message, r !! "error" = Some (JStr message)
          | Raise _ => True
          | Exit code => code = 1
          end)
       ∨ (o = Exit 1
          ∧ ∃ payload, fs s' = <[output_path +:+ ".png" := FPng payload]> (fs s))).
Proof.
  intros Hext Hnone Hrun.
  apply loop_cases_ratio in Hrun
    as [([e ->] & -> & _)|(d0 & ar & o_loop & _ & _ & Hloop & Ho)].
  { exists []. rewrite app_nil_r. repeat split; try done; [cbn; lia|]. by left. }
  change (seq 1 MAX_REFINEMENTS) with (1 :: seq 2 2)%nat in Hloop.
  rewrite for_each_step in Hloop.
  destruct (loop_body svc methodology output_path work_dir ar 1 _ s) as [ob sb] eqn:Hb.
  apply (loop_body_unevaluated svc _ _ _ _ _ _ _ _ _ Hext Hnone) in Hb
    as (new & T & Hev & Hcount & Hcase).
  assert (count is_api_critic new = 0%nat ∧ verdicts new = []) as [Hc Hv].
  { clear -Hev. induction Hev as [|ev l [He Hv] _ [IH1 IH2]]; [done|].
    split.
    - rewrite count_cons, He, IH1. done.
    - change (ev :: l) with ([ev] ++ l). by rewrite verdicts_app, Hv, IH2. }
  destruct Hcase as [(Hfs & Hob)|(-> & payload & Hfs)].
  - exists new.
    destruct Hob as [->|[[e ->]|[message ->]]]; injection Hloop as <- <-; subst o;
      (do 4 (split; [done|])); left; (split; [done|]); try done.
    exists message. rewrite summary_lookup by done. cbn. by simplify_map_eq.
  - injection Hloop as <- <-. subst o. exists new. do 4 (split; [done|]). right. eauto.
Qed.


(** X12: when every attempt of the image model fails, the run makes one
    render call with three attempts and pauses of 2 and 4 seconds, never
    calls the critic, writes no file, and returns its results with the
    message of the renderer's [RuntimeError] under [error]. *)
Theorem render_failure_is_recorded methodology output_path work_dir results
    stylist_output s d visual_intent :
  (∀ history model prompt,
     is_Some (attempt_error svc (image_model svc history model prompt))) →
  api_key_set svc = true →
  stylist_output !! "styled_description" = Some (JStr d) →
  get results "visual_intent" (JStr "") = JStr visual_intent →
  ∃ r0 r1 r2 last_error,
    visualizer_critic_loop svc methodology output_path work_dir results stylist_output s
    = (Ret (summary svc output_path work_dir
              (<["error" := JStr ("Image generation failed after 3 attempts. Last error: "
                                  +:+ exn_str last_error)]> results)),
       {| fs := fs s;
          trace := trace s
            ++ [CallGenerateImage 1 (quality_prefix +:+ d) output_path
                  (default "16:9" (aspect_mapping !! visual_intent));
                ApiImage DEFAULT_MODEL (quality_prefix +:+ d) r0; Sleep 2;
                ApiImage DEFAULT_MODEL (quality_prefix +:+ d) r1; Sleep 4;
                ApiImage DEFAULT_MODEL (quality_prefix +:+ d) r2] |})
    ∧ attempt_error svc r2 = Some last_error.
Proof.
  intros Hdown Hkey Hd Hvi.
  unfold visualizer_critic_loop. rewrite Hd, Hvi.
  unfold bind at 1, determine_aspect_ratio, ret at 1.
  set (ar := default "16:9" (aspect_mapping !! visual_intent)).
  change (range 1 (MAX_REFINEMENTS + 1)) with (1 :: seq 2 2)%nat.
  unfold bind at 1. rewrite for_each_step.
  unfold loop_body. cbn [current_description build_prompt].
  unfold bind at 1, ret at 1.
  unfold bind at 1, try_except_RuntimeError, try_except, bind at 1, emit at 1, bind at 1.
  destruct (generate_image_all_fail svc (quality_prefix +:+ d) output_path DEFAULT_MODEL ar
              {| fs := fs s;
                 trace := trace s ++ [CallGenerateImage 1 (quality_prefix +:+ d)
                                        output_path ar] |} Hdown Hkey)
    as (r0 & r1 & r2 & e & Hgen & He).
  exists r0, r1, r2, e. split; [|done].
  rewrite Hgen. cbn. unfold ret. f_equal. f_equal. by rewrite <- app_assoc.
Qed.


(** X24: with an output path that does not end in ".png" (and is not one
    of the loop's own files), the image is saved under another path, and
    whatever the critic is shown is the file that was at the output path
    before the run: in no iteration does the critic see the render. *)
Theorem critic_judges_file_at_output_path methodology output_path work_dir results
    stylist_output s o s' :
  endswith (lower output_path) ".png" = false →
  (∀ i, output_path ≠ critic_output_path work_dir i
        ∧ output_path ≠ revised_stylist_path work_dir i) →
  visualizer_critic_loop svc methodology output_path work_dir results stylist_output s
    = (o, s') →
  ∃ new, trace s' = trace s ++ new
    ∧ fs s' !! output_path = fs s !! output_path
    ∧ ∀ request reply, In (ApiCritic request reply) new →
        fs s !! output_path = Some (cr_image request).
Proof.
  intros Hext Hpaths Hrun.
  apply loop_cases in Hrun as [[_ ->]|(d0 & ar & o_loop & Hloop & _)].
  - exists []. rewrite app_nil_r. split; [done|]. split; [done|]. by intros ?? [].
  - by eapply for_each_stale.
Qed.

End WithServices.
End LoopTheorems.

(** ** The fields of the results and of the stylist output *)

Module StageFacts.
Import GenerateImage Critic Retriever Orchestrate Run Observe StringFacts Facts RenderFacts LoopFacts HistoryFacts FileFacts DiskFacts CriticFacts.

Lemma decision_continue_stylist i verdict v v1 :
  decision i verdict v = (Continue, v1) →
  stylist_output v1
  = <["styled_description" := get verdict "revised_description" JNull]> (stylist_output v)
  ∧ current_description v1 = get verdict "revised_description" JNull.
Proof.
  unfold decision.
  destruct (primary_pass verdict); [done|].
  case_bool_decide; [done|].
  destruct (truthy _); [|done]. by intros [= <-].
Qed.

Lemma decision_fields i verdict v fl v1 k :
  decision i verdict v = (fl, v1) →
  k ∉ loop_fields → results v1 !! k = results v !! k.
Proof.
  unfold loop_fields. intros Hdec Hk.
  assert (k ≠ "accepted" ∧ k ≠ "final_scores" ∧ k ≠ "max_refinements_reached")
    as (? & ? & ?) by set_solver.
  destruct fl.
  - apply decision_continue in Hdec as (_ & -> & _). done.
  - apply decision_break in Hdec as [_ ->]. by apply closing_other.
Qed.

Section WithServices.
Variable svc : services.

Lemma for_each_fields methodology output_path work_dir aspect_ratio n a v s o s' :
  for_each (seq a n) (loop_body svc methodology output_path work_dir aspect_ratio) v s
    = (o, s') →
  ∀ v' k, o = Ret v' → k ∉ loop_fields → results v' !! k = results v !! k.
Proof.
  revert n a v s o s'.
  apply (loop_ind svc methodology output_path work_dir aspect_ratio
    (λ a n v s o s',
       ∀ v' k, o = Ret v' → k ∉ loop_fields → results v' !! k = results v !! k)).
  - by intros a v s v' k [= <-].
  - intros a n v s v' s' Hb v0 k [= <-] Hk.
    apply body_spec_ret in Hb
      as [(d & inner & msg & _ & -> & _)
         |(d & inner & inner' & w & l & sc & Hdec & _)].
    + cbn. apply lookup_insert_ne. unfold loop_fields in Hk. set_solver.
    + symmetry in Hdec. rewrite (decision_fields _ _ _ _ _ _ Hdec Hk).
      cbn. apply lookup_insert_ne. unfold loop_fields in Hk. set_solver.
  - by intros a n v s o s' o' _ _ Hf v' k ->.
  - intros a n v s v1 s1 o s' Hb IH v' k Ho Hk.
    apply body_spec_ret in Hb
      as [(d & inner & msg & ? & _)
         |(d & inner & inner' & w & l & sc & Hdec & _)]; [done|].
    symmetry in Hdec. rewrite (IH v' k Ho Hk), (decision_fields _ _ _ _ _ _ Hdec Hk).
    cbn. apply lookup_insert_ne. unfold loop_fields in Hk. set_solver.
Qed.

Lemma loop_fields_kept methodology output_path work_dir results stylist_output s r s' :
  visualizer_critic_loop svc methodology output_path work_dir results stylist_output s
    = (Ret r, s') →
  r !! "output_path" = Some (JStr output_path)
  ∧ r !! "work_dir" = Some (JStr work_dir)
  ∧ r !! "elapsed_seconds" = Some (elapsed_seconds svc)
  ∧ ∀ k, k ∉ loop_fields → r !! k = results !! k.
Proof.
  intros Hrun.
  apply loop_cases in Hrun as [[[] _]|(d0 & ar & o_loop & Hloop & Ho)].
  destruct o_loop as [v'| |]; [|done..]. injection Ho as ->.
  unfold summary. do 3 (split; [by simplify_map_eq|]).
  intros k Hk. pose proof Hk as Hk'. unfold loop_fields in Hk'.
  rewrite !lookup_insert_ne by set_solver.
  by rewrite (for_each_fields _ _ _ _ _ _ _ _ _ _ Hloop v' k).
Qed.

Lemma told_app output_path so0 xs ys :
  told_what_was_rendered output_path so0 xs →
  told_what_was_rendered output_path so0 ys →
  told_what_was_rendered output_path so0 (xs ++ ys).
Proof.
  intros Hx Hy i path so [Hin|Hin]%in_app_or.
  - destruct (Hx _ _ _ Hin) as (d & ar & ? & ? & ?). exists d, ar.
    repeat split; try done. apply in_or_app. by left.
  - destruct (Hy _ _ _ Hin) as (d & ar & ? & ? & ?). exists d, ar.
    repeat split; try done. apply in_or_app. by right.
Qed.

Lemma told_none output_path so0 xs :
  (∀ i path so, ¬ In (CallRunCritic i path so) xs) →
  told_what_was_rendered output_path so0 xs.
Proof. intros H i path so Hin. by apply H in Hin. Qed.

Lemma body_spec_told output_path aspect_ratio so0 i v s o s' :
  body_spec output_path aspect_ratio i v s o s' →
  carries so0 v →
  ∃ new, trace s' = trace s ++ new ∧ told_what_was_rendered output_path so0 new.
Proof.
  intros Hb [Hsd Hother].
  assert (∀ d inner inner' tail,
            current_description v = JStr d → quiet inner → quiet inner' →
            (∀ i' path so, ¬ In (CallRunCritic i' path so) tail) →
            told_what_was_rendered output_path so0
              (CallGenerateImage i (quality_prefix +:+ d) output_path aspect_ratio
                 :: inner ++ CallRunCritic i output_path (stylist_output v)
                 :: inner' ++ tail)) as Hpass.
  { intros d inner inner' tail Hd Q1 Q2 Htail i' path so
      [?|[Hin|[[= <- <- <-]|[Hin|Hin]%in_app_or]]%in_app_or]; try done.
    - by apply (quiet_In _ _ Q1) in Hin.
    - exists d, aspect_ratio. rewrite Hsd, Hd. split; [done|]. split; [by left|done].
    - by apply (quiet_In _ _ Q2) in Hin.
    - by apply Htail in Hin. }
  assert (∀ d inner,
            quiet inner →
            told_what_was_rendered output_path so0
              (CallGenerateImage i (quality_prefix +:+ d) output_path aspect_ratio
                 :: inner)) as Hrender.
  { intros d inner Q1. apply told_none. intros i' path so [?|Hin]; [done|].
    by apply (quiet_In _ _ Q1) in Hin. }
  destruct Hb as [e Hd|d inner o s' Hd Q1 Hf T|d inner msg s' Hd Q1 T
                 |d inner inner' o s' Hd Q1 Q2 Hf T
                 |d inner inner' verdict o s' Hd Q1 Q2 Hf Hl T
                 |d inner inner' verdict l sc s' Hd Q1 Q2 Hl Hsc T].
  - exists []. rewrite app_nil_r. split; [done|]. apply told_none. by intros ??? [].
  - eexists. split; [exact T|]. by apply Hrender.
  - eexists. split; [exact T|]. by apply Hrender.
  - eexists. split; [exact T|]. rewrite <- (app_nil_r inner').
    apply Hpass; try done. by intros ??? [].
  - eexists. split; [exact T|]. apply Hpass; try done. by intros ??? [?|[]].
  - eexists. split; [exact T|]. apply Hpass; try done. by intros ??? [?|[]].
Qed.

Lemma for_each_told methodology output_path work_dir aspect_ratio so0 n a v s o s' :
  for_each (seq a n) (loop_body svc methodology output_path work_dir aspect_ratio) v s
    = (o, s') →
  carries so0 v →
  ∃ new, trace s' = trace s ++ new ∧ told_what_was_rendered output_path so0 new.
Proof.
  revert n a v s o s'.
  apply (loop_ind svc methodology output_path work_dir aspect_ratio
    (λ a n v s o s',
       carries so0 v →
       ∃ new, trace s' = trace s ++ new
              ∧ told_what_was_rendered output_path so0 new)).
  - intros a v s _. exists []. rewrite app_nil_r. split; [done|].
    apply told_none. by intros ??? [].
  - intros a n v s v' s' Hb Hc. by eapply body_spec_told.
  - intros a n v s o s' o' Hb _ _ Hc. by eapply body_spec_told.
  - intros a n v s v1 s1 o s' Hb IH Hc.
    destruct (body_spec_told _ _ _ _ _ _ _ _ Hb Hc) as (new & T & Hn).
    apply body_spec_ret in Hb
      as [(d & inner & msg & ? & _)
         |(d & inner & inner' & w & l & sc & Hdec & _)]; [done|].
    symmetry in Hdec. apply decision_continue_stylist in Hdec as [Hso Hcd].
    destruct IH as (rest & T' & Hn').
    { destruct Hc as [_ Hother]. split.
      - rewrite Hso, Hcd. cbn. apply lookup_insert_eq.
      - intros k Hk. rewrite Hso. cbn. rewrite lookup_insert_ne by done. by apply Hother. }
    exists (new ++ rest). split; [by rewrite T', T, app_assoc|by apply told_app].
Qed.

Lemma loop_told methodology output_path work_dir results stylist_output s o s' :
  visualizer_critic_loop svc methodology output_path work_dir results stylist_output s
    = (o, s') →
  ∃ new, trace s' = trace s ++ new
    ∧ told_what_was_rendered output_path stylist_output new.
Proof.
  intros Hrun.
  apply loop_cases_ratio in Hrun
    as [(_ & -> & _)|(d0 & ar & o_loop & Hd0 & _ & Hloop & _)].
  - exists []. rewrite app_nil_r. split; [done|]. apply told_none. by intros ??? [].
  - eapply for_each_told; [exact Hloop|]. by split.
Qed.

End WithServices.
End StageFacts.

(** ** The loop, the plot pipeline and [main]: statements *)

Module PipelineTheorems.
Import GenerateImage Critic Retriever Orchestrate Run Observe StringFacts Facts RenderFacts LoopFacts HistoryFacts FileFacts DiskFacts CriticFacts StageFacts.

Section WithServices.
Variable svc : services.

(** X13: in every iteration the critic is called with a stylist output
    whose styled description is the very description the renderer was
    given in that iteration, the first one or a revision; its other
    fields, the caption among them, are those of the stylist output the
    loop started from. *)
Theorem critic_is_told_what_was_rendered methodology output_path work_dir results
    stylist_output s :
  let '(o, s') :=
    visualizer_critic_loop svc methodology output_path work_dir results
      stylist_output s in
  ∃ new, trace s' = trace s ++ new
    ∧ told_what_was_rendered output_path stylist_output new.
Proof.
  destruct (visualizer_critic_loop _ _ _ _ _ _ s) as [o s'] eqn:Hrun.
  by apply loop_told in Hrun.
Qed.

(** X14: the results the loop returns carry the caller's output path and
    working directory and the elapsed time; every field of the incoming
    results that is not one of the loop's own (the mode, the category, the
    visual intent, ...) is handed back unchanged. *)
Theorem loop_keeps_other_fields methodology output_path work_dir results
    stylist_output s :
  let '(o, s') :=
    visualizer_critic_loop svc methodology output_path work_dir results
      stylist_output s in
  match o with
  | Ret r =>
      r !! "output_path" = Some (JStr output_path)
      ∧ r !! "work_dir" = Some (JStr work_dir)
      ∧ r !! "elapsed_seconds" = Some (elapsed_seconds svc)
      ∧ ∀ k, k ∉ loop_fields → r !! k = results !! k
  | Raise _ | Exit _ => True
  end.
Proof.
  destruct (visualizer_critic_loop _ _ _ _ _ _ s) as [[r|e|c] s'] eqn:Hrun; [|done..].
  by eapply loop_fields_kept.
Qed.

Lemma run_plot_pipeline_cases data_path intent output_path work_dir s o s' :
  run_plot_pipeline svc data_path intent output_path work_dir s = (o, s') →
  match o with
  | Ret r =>
      r !! "mode" = Some (JStr "plot")
      ∧ r !! "output_path" = Some (JStr output_path)
      ∧ ((r !! "method" = Some (JStr "plot_generator")
          ∧ r !! "note" = None
          ∧ ∃ path, data_path = Some path ∧ path ≠ ""
              ∧ is_Some (fs s !! path)
              ∧ plot_main svc path output_path s = (Ret tt, s'))
         ∨ (r !! "method" = Some (JStr "manual")
            ∧ is_Some (r !! "note")
            ∧ ((∃ path e, data_path = Some path
                  ∧ plot_main svc path output_path s = (Raise e, s'))
               ∨ (s' = s
                  ∧ (data_path = None ∨ data_path = Some ""
                     ∨ ∃ path, data_path = Some path ∧ fs s !! path = None)))))
  | Raise _ => False
  | Exit code =>
      ∃ path, data_path = Some path ∧ plot_main svc path output_path s = (Exit code, s')
  end.
Proof.
  unfold run_plot_pipeline. cbn zeta. intros Hrun.
  destruct data_path as [path|].
  2:{ unfold ret in Hrun. injection Hrun as <- <-.
      do 2 (split; [by simplify_map_eq|]). right.
      split; [by simplify_map_eq|]. split; [by simplify_map_eq|]. right. eauto. }
  unfold bind at 1, read_file at 1 in Hrun.
  destruct (truthy (JStr path)) eqn:Hp; cbn [andb] in Hrun.
  2:{ unfold ret in Hrun. injection Hrun as <- <-.
      do 2 (split; [by simplify_map_eq|]). right.
      split; [by simplify_map_eq|]. split; [by simplify_map_eq|]. right.
      split; [done|]. right. left. by destruct path. }
  case_bool_decide as Hfile.
  2:{ unfold ret in Hrun. injection Hrun as <- <-.
      do 2 (split; [by simplify_map_eq|]). right.
      split; [by simplify_map_eq|]. split; [by simplify_map_eq|]. right.
      split; [done|]. right. right. exists path. split; [done|].
      destruct (fs s !! path); [|done]. destruct Hfile. eauto. }
  unfold try_except, bind, ret in Hrun.
  destruct (plot_main svc path output_path s) as [[[]|e|c] s2] eqn:Hplot;
    injection Hrun as Ho Hs; subst o s'.
  - do 2 (split; [by simplify_map_eq|]). left.
    split; [by simplify_map_eq|]. split; [by simplify_map_eq|].
    exists path. repeat split; try done. by intros ->.
  - do 2 (split; [by simplify_map_eq|]). right.
    split; [by simplify_map_eq|]. split; [by simplify_map_eq|]. left. eauto.
  - eauto.
Qed.

(** X15: [run_plot_pipeline] never raises.  It reports the method
    "plot_generator" only when the data file exists and the [main] of
    plot_generator.py returned; any exception of that [main] is swallowed
    and the result says "manual", as it does, with the state untouched,
    when there is no data file; only a [sys.exit] of plot_generator.py
    leaves the pipeline. *)
Theorem plot_pipeline_never_raises data_path intent output_path work_dir s :
  let '(o, s') := run_plot_pipeline svc data_path intent output_path work_dir s in
  match o with
  | Ret r =>
      r !! "mode" = Some (JStr "plot")
      ∧ r !! "output_path" = Some (JStr output_path)
      ∧ ((r !! "method" = Some (JStr "plot_generator")
          ∧ r !! "note" = None
          ∧ ∃ path, data_path = Some path ∧ path ≠ ""
              ∧ is_Some (fs s !! path)
              ∧ plot_main svc path output_path s = (Ret tt, s'))
         ∨ (r !! "method" = Some (JStr "manual")
            ∧ is_Some (r !! "note")
            ∧ ((∃ path e, data_path = Some path
                  ∧ plot_main svc path output_path s = (Raise e, s'))
               ∨ (s' = s
                  ∧ (data_path = None ∨ data_path = Some ""
                     ∨ ∃ path, data_path = Some path ∧ fs s !! path = None)))))
  | Raise _ => False
  | Exit code =>
      ∃ path, data_path = Some path ∧ plot_main svc path output_path s = (Exit code, s')
  end.
Proof.
  destruct (run_plot_pipeline svc data_path intent output_path work_dir s)
    as [o s'] eqn:Hrun.
  by apply run_plot_pipeline_cases in Hrun.
Qed.

Lemma run_diagram_pipeline_mode params methodology caption output_path work_dir
    references_dir s r s' :
  run_diagram_pipeline_with svc params methodology caption output_path work_dir
    references_dir s = (Ret r, s') →
  r !! "mode" = Some (JStr "diagram").
Proof.
  unfold run_diagram_pipeline_with. intros Hrun.
  repeat (apply bind_inv_ret in Hrun as (? & ? & _ & Hrun)).
  apply loop_fields_kept in Hrun as (_ & _ & _ & Hk).
  rewrite Hk by (apply (bool_decide_unpack _); by vm_compute). by simplify_map_eq.
Qed.

(** X16: when [main] returns, the results its pipeline returned are on
    disk as [pipeline_results.json] in the working directory, nothing else
    having been written after the pipeline, and their mode is the mode
    asked for.  When [main] does not return, it ends exactly as its
    pipeline or its input checks did, and no results file is written. *)
Theorem main_saves_results params args s :
  let '(o, s') := main_with svc params args s in
  match o with
  | Ret _ =>
      ∃ results s1,
        main_dispatch svc params args s = (Ret results, s1)
        ∧ fs s' = <[path_join (main_work_dir svc args) ("pipeline_results" +:+ ".json")
                    := FJson (JObj results)]> (fs s1)
        ∧ trace s' = trace s1
        ∧ results !! "mode"
          = Some (JStr match a_mode args with
                       | Diagram => "diagram"
                       | Plot => "plot"
                       end)
  | Raise e => main_dispatch svc params args s = (Raise e, s')
  | Exit code => main_dispatch svc params args s = (Exit code, s')
  end.
Proof.
  destruct (main_with svc params args s) as [o s'] eqn:Hrun.
  destruct (main_dispatch svc params args s) as [[results|e|c] s1] eqn:Hd.
  2,3: unfold main_with, bind in Hrun; rewrite Hd in Hrun; by injection Hrun as <- <-.
  assert (results !! "mode"
          = Some (JStr match a_mode args with
                       | Diagram => "diagram"
                       | Plot => "plot"
                       end)) as Hmode.
  { unfold main_dispatch in Hd. destruct (a_mode args).
    - apply bind_inv_ret in Hd as (methodology & s0 & _ & Hd).
      by eapply run_diagram_pipeline_mode.
    - destruct (negb _); [done|]. by eapply run_plot_pipeline_mode. }
  assert (summarisable results ∨ results !! "mode" = Some (JStr "plot")) as Hs.
  { unfold main_dispatch in Hd. destruct (a_mode args).
    - apply bind_inv_ret in Hd as (methodology & s0 & _ & Hd). left.
      by eapply run_diagram_pipeline_summarisable.
    - by right. }
  unfold main_with in Hrun. rewrite (bind_ret _ _ _ _ _ Hd) in Hrun.
  unfold bind at 1, save_intermediate, bind at 1, write_file at 1, ret at 1 in Hrun.
  rewrite (print_summary_ok _ _ Hs) in Hrun. injection Hrun as <- <-.
  by exists results, s1.
Qed.

(** X17: [main] checks its inputs before anything else: in diagram mode
    without a methodology text and without a methodology file, or with a
    methodology file that does not exist, and in plot mode without a data
    path, it exits with code 1, having written no file and called no
    stage. *)
Theorem main_checks_inputs params args s :
  match a_mode args with
  | Diagram =>
      (∃ path, a_methodology_file args = Some path ∧ path ≠ ""
               ∧ fs s !! path = None)
      ∨ (truthy (opt_json (a_methodology_file args)) = false
         ∧ truthy (opt_json (a_methodology args)) = false)
  | Plot => truthy (opt_json (a_data args)) = false
  end →
  main_with svc params args s = (Exit 1, s).
Proof.
  unfold main_with, main_dispatch.
  destruct (a_mode args).
  - intros [(path & Hf & Hne & Hnone)|[Hf Hm]].
    + rewrite Hf. cbn [opt_json truthy default].
      destruct path; [done|]. unfold bind, read_file. cbn [id]. by rewrite Hnone.
    + rewrite Hf, Hm. done.
  - intros ->. done.
Qed.

End WithServices.
End PipelineTheorems.

(** ** The command line of generate_image.py *)

Module CliFacts.
Import GenerateImage Critic Retriever Orchestrate Run Observe StringFacts Facts RenderFacts.

Section WithServices.
Variable svc : services.

Lemma read_text_state f s : (read_text svc f s).2 = s.
Proof. by destruct f. Qed.

Lemma read_text_no_exit f s c s' : read_text svc f s ≠ (Exit c, s').
Proof. by destruct f. Qed.



End WithServices.
End CliFacts.

(** ** retriever.py: dictionaries by id and the enrichment loop *)

Module RetrieverFacts.
Import GenerateImage Critic Retriever Orchestrate Run Observe StringFacts Facts RenderFacts.
Import PyOps RetrieverStage Enrichment CliFacts.

Lemma key_eqb_refl k : hashable k = true → key_eqb k k = true.
Proof.
  destruct k as [|[]|z|x| |]; cbn; try done; intros _.
  - apply Z.eqb_refl.
  - apply String.eqb_refl.
Qed.

Lemma key_eqb_sym a b : key_eqb a b = key_eqb b a.
Proof.
  destruct a as [|[]|x|x| |], b as [|[]|y|y| |]; cbn -[Z.eqb String.eqb]; try done;
    try apply Z.eqb_sym; apply String.eqb_sym.
Qed.

Lemma key_eqb_trans a b c :
  key_eqb a b = true → key_eqb b c = true → key_eqb a c = true.
Proof.
  destruct a as [|[]|x|x| |], b as [|[]|y|y| |], c as [|[]|z|z| |];
    cbn -[Z.eqb String.eqb]; try done;
    rewrite ?Z.eqb_eq, ?String.eqb_eq; congruence.
Qed.

Lemma key_eqb_congr k k' q :
  key_eqb k' k = true → key_eqb k q = key_eqb k' q.
Proof.
  intros H. destruct (key_eqb k' q) eqn:E.
  - eapply key_eqb_trans; [|exact E]. by rewrite key_eqb_sym.
  - destruct (key_eqb k q) eqn:E'; [|done].
    by rewrite (key_eqb_trans _ _ _ H E') in E.
Qed.

Lemma dict_get_cons k v d q :
  dict_get ((k, v) :: d) q = if key_eqb k q then Some v else dict_get d q.
Proof. unfold dict_get. cbn. by destruct (key_eqb k q). Qed.

Lemma dict_get_set d k v q :
  dict_get (dict_set d k v) q
  = if key_eqb k q then Some v else dict_get d q.
Proof.
  induction d as [|[k' v'] d IH]; cbn [dict_set].
  - rewrite dict_get_cons. unfold dict_get. cbn. by destruct (key_eqb k q).
  - destruct (key_eqb k' k) eqn:E.
    + rewrite !dict_get_cons, (key_eqb_congr _ _ q E).
      by destruct (key_eqb k' q).
    + rewrite !dict_get_cons, IH.
      destruct (key_eqb k' q) eqn:E'; [|done].
      destruct (key_eqb k q) eqn:E''; [|done].
      rewrite key_eqb_sym in E''. by rewrite (key_eqb_trans _ _ _ E' E'') in E.
Qed.

Lemma dict_get_In d q e :
  dict_get d q = Some e → ∃ k, In (k, e) d ∧ key_eqb k q = true.
Proof.
  unfold dict_get. destruct (List.find _ d) as [[k v]|] eqn:E; [|done].
  intros [= <-]. apply List.find_some in E as [Hin Hk]. by exists k.
Qed.


Lemma dict_set_In d k v k' e :
  hashable k = true →
  In (k', e) (dict_set d k v) →
  In (k', e) d ∨ (e = v ∧ key_eqb k' k = true).
Proof.
  intros Hk. induction d as [|[k0 v0] d IH]; cbn [dict_set].
  - intros [[= <- <-]|[]]. right. split; [done|]. by apply key_eqb_refl.
  - destruct (key_eqb k0 k) eqn:E.
    + intros [[= <- <-]|Hin]; [by right|]. left. by right.
    + intros [[= <- <-]|Hin]; [left; by left|].
      destruct (IH Hin) as [?|?]; [left; by right|by right].
Qed.

Lemma subscript_inr v key x :
  subscript v key = inr x → ∃ m, v = JObj m ∧ m !! key = Some x.
Proof.
  destruct v as [| | | | |m]; try done. cbn.
  destruct (m !! key) as [y|] eqn:E; [|done]. intros [= <-]. by exists m.
Qed.

Lemma build_lookup_spec entries acc lk :
  build_lookup entries acc = inr lk →
  (∀ q, is_Some (dict_get lk q)
        ↔ is_Some (dict_get acc q) ∨ in_index entries q = true)
  ∧ (∀ k e, In (k, e) lk →
       In (k, e) acc
       ∨ ∃ m id, e = JObj m ∧ e ∈ entries ∧ m !! "id" = Some id
                 ∧ key_eqb k id = true).
Proof.
  revert acc. induction entries as [|entry entries IH]; intros acc.
  - intros [= <-]. split; [|by left]. intros q. cbn. split; [by left|by intros [|]].
  - cbn [build_lookup]. unfold and_then.
    destruct (subscript entry "id") as [e|id] eqn:Hid; [done|].
    destruct (hashable id) eqn:Hh; [|done].
    intros [Hget Hin]%IH. apply subscript_inr in Hid as (m & -> & Hm).
    split.
    + intros q. rewrite Hget, dict_get_set. unfold in_index. cbn [existsb subscript].
      rewrite Hm. destruct (key_eqb id q); cbn [orb]; [|done].
      split; intros _; [by right|left; eauto].
    + intros k e [Hacc|(m' & id' & -> & He & Hm' & Hk)]%Hin.
      * apply dict_set_In in Hacc as [?|[-> Hk]]; [by left| |done].
        right. exists m, id. repeat split; try done. by left.
      * right. exists m', id'. repeat split; try done. by right.
Qed.

Lemma selected_ids_cons r refs id :
  r !! "id" = Some id → selected_ids (JObj r :: refs) = id :: selected_ids refs.
Proof. intros H. unfold selected_ids. cbn. by rewrite H. Qed.

Section WithServices.
Variable svc : services.
Variables (INDEX_PATH CATEGORIES_PATH : string).
Variable reference_path : string → string.
Variable retriever_model : list event → retriever_request → vlm_reply.

Lemma enrich_spec index_lookup refs l :
  enrich reference_path index_lookup refs = inr l →
  omap (λ d : dict, d !! "id") l
  = List.filter (λ id, bool_decide (is_Some (dict_get index_lookup id)))
      (selected_ids refs)
  ∧ Forall (λ d,
      ∃ entry ref ref_id f caption,
        JObj ref ∈ refs
        ∧ ref !! "id" = Some ref_id
        ∧ dict_get index_lookup ref_id = Some (JObj entry)
        ∧ entry !! "file" = Some (JStr f)
        ∧ entry !! "caption" = Some caption
        ∧ d = <["id" := ref_id]>
              (<["file" := JStr (reference_path f)]>
              (<["caption" := caption]>
              (<["description" := get entry "description" caption]>
              (<["reason" := get ref "reason" (JStr "")]> ∅))))) l.
Proof.
  revert l. induction refs as [|ref refs IH]; intros l.
  - by intros [= <-].
  - cbn [enrich]. unfold and_then at 1.
    destruct (enrich_ref reference_path index_lookup ref) as [e|enriched] eqn:Href;
      [done|].
    unfold and_then.
    destruct (enrich reference_path index_lookup refs) as [e|l'] eqn:Hrest; [done|].
    intros [= <-]. destruct (IH l' eq_refl) as [Hids Hall].
    assert (Forall (λ d,
      ∃ entry ref0 ref_id f caption,
        JObj ref0 ∈ ref :: refs
        ∧ ref0 !! "id" = Some ref_id
        ∧ dict_get index_lookup ref_id = Some (JObj entry)
        ∧ entry !! "file" = Some (JStr f)
        ∧ entry !! "caption" = Some caption
        ∧ d = <["id" := ref_id]>
              (<["file" := JStr (reference_path f)]>
              (<["caption" := caption]>
              (<["description" := get entry "description" caption]>
              (<["reason" := get ref0 "reason" (JStr "")]> ∅))))) l') as Hall'.
    { eapply Forall_impl; [exact Hall|].
      intros d (entry & ref0 & ref_id & f & caption & Hin & H).
      exists entry, ref0, ref_id, f, caption. split; [by right|done]. }
    unfold enrich_ref, and_then in Href.
    destruct (subscript ref "id") as [e|ref_id] eqn:Hid; [done|].
    apply subscript_inr in Hid as (r & -> & Hr).
    rewrite (selected_ids_cons _ _ _ Hr). cbn [List.filter].
    destruct (hashable ref_id); [|done].
    destruct (dict_get index_lookup ref_id) as [entry|] eqn:Hget.
    2:{ injection Href as <-. rewrite bool_decide_false by (by intros [? ?]). done. }
    rewrite bool_decide_true by eauto.
    destruct (subscript entry "file") as [e|file] eqn:Hfile; [done|].
    apply subscript_inr in Hfile as (m & -> & Hm).
    destruct file as [| | |f| |]; try done.
    cbn [subscript get_attr] in Href.
    destruct (m !! "caption") as [caption|] eqn:Hc; [|done].
    injection Href as <-. split.
    + assert (∀ (d : dict) id l0,
                d !! "id" = Some id →
                omap (λ d : dict, d !! "id") (d :: l0)
                = id :: omap (λ d : dict, d !! "id") l0) as Hcons.
      { intros d id l0 H. cbn. by rewrite H. }
      rewrite (Hcons _ ref_id) by apply lookup_insert_eq. by rewrite Hids.
    + constructor; [|done].
      exists m, r, ref_id, f, caption. repeat split; try done. by left.
Qed.


Lemma lift_run {A} (x : exn + A) s :
  lift x s = (match x with inl e => Raise e | inr a => Ret a end, s).
Proof. by destruct x. Qed.

Lemma retriever_key s :
  RetrieverStage.get_api_key svc s
  = (if api_key_set svc then Ret (default "" (GOOGLE_API_KEY svc)) else Exit 1, s).
Proof.
  unfold RetrieverStage.get_api_key, api_key_set.
  destruct (GOOGLE_API_KEY svc) as [key|]; [|done]. by destruct (truthy (JStr key)).
Qed.

Lemma load_categories_run s :
  ∃ o, load_categories svc CATEGORIES_PATH s = (o, s) ∧ ∀ c, o ≠ Exit c.
Proof.
  unfold load_categories, bind, read_file.
  destruct (fs s !! CATEGORIES_PATH) as [f|]; [|by eexists].
  pose proof (read_text_state svc f s) as Hs.
  destruct (read_text svc f s) as [o s0] eqn:Hread. cbn in Hs. subst s0.
  exists o. split; [done|]. intros c ->. by apply read_text_no_exit in Hread.
Qed.

Lemma run_retriever_cases methodology mode s o s' :
  run_retriever svc INDEX_PATH CATEGORIES_PATH reference_path retriever_model
    methodology mode s = (o, s') →
  s' = s
  ∧ match o with
    | Ret r =>
        (str_eq mode "plot" = true ∧ r = plot_sentinel)
        ∨ (str_eq mode "plot" = false
           ∧ api_key_set svc = true
           ∧ ∃ index entries candidates categories_text response refs enriched,
               fs s !! INDEX_PATH = Some (FJson index)
               ∧ iterate index = inr entries
               ∧ format_candidates index = inr candidates
               ∧ retriever_model (trace s)
                   {| rr_methodology := methodology;
                      rr_candidates := candidates;
                      rr_categories_text := categories_text |}
                 = VlmText (Some (JObj response))
               ∧ iterate (get response "selected_references" (JList [])) = inr refs
               ∧ r = <["selected_references" := JList (JObj <$> enriched)]> response
               ∧ omap (λ d : dict, d !! "id") enriched
                 = List.filter (in_index entries) (selected_ids refs)
               ∧ Forall (enriched_from reference_path entries refs) enriched)
    | Raise _ => str_eq mode "plot" = false ∧ is_Some (fs s !! INDEX_PATH)
    | Exit code =>
        code = 1 ∧ str_eq mode "plot" = false
        ∧ (fs s !! INDEX_PATH = None ∨ api_key_set svc = false)
    end.
Proof.
  unfold run_retriever. destruct (str_eq mode "plot") eqn:Hmode.
  { intros [= <- <-]. split; [done|]. by left. }
  unfold bind at 1, load_index, bind at 1, read_file at 1.
  destruct (fs s !! INDEX_PATH) as [[index|payload|text]|] eqn:Hindex;
    try (intros [= <- <-]; split; [done|]; eauto).
  unfold ret at 1.
  destruct (load_categories_run s) as (oc & Hcat & Hne).
  unfold bind at 1. rewrite Hcat.
  destruct oc as [categories_text|e|c];
    [|intros [= <- <-]; split; [done|]; eauto|by destruct (Hne c)].
  unfold bind at 1. rewrite lift_run.
  destruct (format_candidates index) as [e|candidates] eqn:Hformat;
    [intros [= <- <-]; split; [done|]; eauto|].
  unfold bind at 1. rewrite retriever_key.
  destruct (api_key_set svc) eqn:Hkey;
    [|intros [= <- <-]; split; [done|]; eauto].
  unfold bind at 1, get_trace at 1.
  destruct (retriever_model (trace s) _) as [e|[response|]] eqn:Hreply;
    try (intros [= <- <-]; split; [done|]; eauto).
  unfold bind at 1. rewrite lift_run.
  destruct (iterate index) as [e|entries] eqn:Hentries;
    [intros [= <- <-]; split; [done|]; eauto|].
  unfold bind at 1. rewrite lift_run.
  destruct (build_lookup entries []) as [e|index_lookup] eqn:Hlookup;
    [intros [= <- <-]; split; [done|]; eauto|].
  unfold bind at 1. rewrite lift_run.
  destruct (get_attr response "selected_references" (JList [])) as [e|selected]
    eqn:Hselected; [intros [= <- <-]; split; [done|]; eauto|].
  unfold bind at 1. rewrite lift_run.
  destruct (iterate selected) as [e|refs] eqn:Hrefs;
    [intros [= <- <-]; split; [done|]; eauto|].
  unfold bind at 1. rewrite lift_run.
  destruct (enrich reference_path index_lookup refs) as [e|enriched] eqn:Henrich;
    [intros [= <- <-]; split; [done|]; eauto|].
  destruct response as [| | | | |response]; try done.
  cbn [get_attr] in Hselected. injection Hselected as <-.
  unfold bind at 1. rewrite lift_run.
  destruct (print_reasons enriched) as [e|[]];
    [intros [= <- <-]; split; [done|]; eauto|].
  intros [= <- <-]. split; [done|]. right. do 2 (split; [done|]).
  exists index, entries, candidates, categories_text, response, refs, enriched.
  do 5 (split; [done|]). split; [done|].
  apply build_lookup_spec in Hlookup as [Hget Hin].
  apply enrich_spec in Henrich as [Hids Hall]. split.
  - rewrite Hids. apply List.filter_ext. intros id.
    destruct (in_index entries id) eqn:E.
    + apply bool_decide_eq_true. apply Hget. by right.
    + apply bool_decide_eq_false. intros [[? ?]|?]%Hget; [done|congruence].
  - eapply Forall_impl; [exact Hall|].
    intros d (entry & ref & ref_id & f & caption & Href & Hid & Hg & Hf & Hc & ->).
    apply dict_get_In in Hg as (k & Hk & Hkq).
    apply Hin in Hk as [[]|(m & id & [= <-] & He & Hm & Hkid)].
    exists entry, ref, ref_id, f, caption. repeat split; try done.
    exists id. split; [done|]. eapply key_eqb_trans; [|exact Hkq].
    by rewrite key_eqb_sym.
Qed.

End WithServices.
End RetrieverFacts.

(** ** retriever.py on a well-formed index and selection *)

Module RetrieverTotal.
Import GenerateImage Critic Retriever Orchestrate Run Observe StringFacts Facts RenderFacts.
Import PyOps RetrieverStage Enrichment CliFacts RetrieverFacts.

Lemma format_entries_total entries :
  Forall index_entry entries → ∃ candidates, format_entries entries = inr candidates.
Proof.
  induction 1 as [|entry entries (m & id & file & -> & Hid & [cat Hcat] & [cap Hcap] & Hf) _
                    [candidates IH]]; [by eexists|].
  cbn [format_entries subscript]. rewrite Hid, Hcat, Hcap. cbn [and_then].
  rewrite IH. by eexists.
Qed.

Lemma build_lookup_total entries acc :
  Forall index_entry entries → ∃ lk, build_lookup entries acc = inr lk.
Proof.
  intros H. revert acc.
  induction H as [|entry entries (m & id & file & -> & Hid & _) _ IH]; intros acc;
    [by eexists|].
  cbn [build_lookup subscript]. rewrite Hid. cbn [and_then hashable]. apply IH.
Qed.

Section WithServices.
Variable reference_path : string → string.

Lemma enrich_total index_lookup refs :
  (∀ id entry, dict_get index_lookup id = Some entry → index_entry entry) →
  Forall selected_reference refs →
  ∃ enriched, enrich reference_path index_lookup refs = inr enriched
              ∧ print_reasons enriched = inr tt.
Proof.
  intros Hlk.
  induction 1 as [|ref refs (r & id & reason & -> & Hid & Hreason) _ (enriched & IH & Hp)];
    [by eexists|].
  cbn [enrich]. unfold enrich_ref. cbn [subscript]. rewrite Hid.
  cbn [and_then hashable].
  destruct (dict_get index_lookup (JStr id)) as [entry|] eqn:Hget.
  - destruct (Hlk _ _ Hget) as (m & eid & file & -> & _ & _ & [cap Hcap] & Hf).
    cbn [subscript]. rewrite Hf, Hcap. cbn [and_then get_attr]. rewrite IH.
    cbn [and_then]. eexists. split; [done|].
    cbn [print_reasons]. unfold print_reason. cbn [subscript].
    rewrite !lookup_insert_ne, lookup_insert_eq by done. cbn [and_then].
    by rewrite Hreason.
  - rewrite IH. cbn [and_then]. by eexists.
Qed.


Variable svc : services.
Variables (INDEX_PATH CATEGORIES_PATH : string).
Variable retriever_model : list event → retriever_request → vlm_reply.

Lemma run_retriever_total methodology mode s entries response refs :
  str_eq mode "plot" = false →
  api_key_set svc = true →
  fs s !! INDEX_PATH = Some (FJson (JList entries)) →
  Forall index_entry entries →
  (∀ payload, fs s !! CATEGORIES_PATH ≠ Some (FPng payload)) →
  (∀ request, retriever_model (trace s) request = VlmText (Some (JObj response))) →
  get response "selected_references" (JList []) = JList refs →
  Forall selected_reference refs →
  ∃ enriched,
    run_retriever svc INDEX_PATH CATEGORIES_PATH reference_path retriever_model
      methodology mode s
    = (Ret (<["selected_references" := JList (JObj <$> enriched)]> response), s)
    ∧ omap (λ d : dict, d !! "id") enriched
      = List.filter (in_index entries) (selected_ids refs)
    ∧ Forall (enriched_from reference_path entries refs) enriched.
Proof.
  intros Hmode Hkey Hindex Hentries Hcat Hreply Hsel Hrefs.
  destruct (format_entries_total entries Hentries) as [candidates Hformat].
  destruct (build_lookup_total entries [] Hentries) as [lk Hlk].
  destruct (enrich_total lk refs) as (enriched & Henrich & Hprint); [|done|].
  { intros id entry (k & Hin & _)%dict_get_In.
    apply build_lookup_spec in Hlk as [_ Hsound].
    apply Hsound in Hin as [[]|(m & i & -> & He & _)].
    eapply Forall_forall in Hentries; [done|]. done. }
  assert (∃ categories_text,
            load_categories svc CATEGORIES_PATH s = (Ret categories_text, s))
    as [categories_text Hload].
  { unfold load_categories, bind, read_file.
    destruct (fs s !! CATEGORIES_PATH) as [[doc|payload|text]|] eqn:E;
      try (by eexists). by destruct (Hcat payload). }
  assert (run_retriever svc INDEX_PATH CATEGORIES_PATH reference_path retriever_model
            methodology mode s
          = (Ret (<["selected_references" := JList (JObj <$> enriched)]> response), s))
    as Hrun.
  { unfold run_retriever. rewrite Hmode.
    unfold bind at 1, load_index, bind at 1, read_file at 1. rewrite Hindex.
    unfold ret at 1. unfold bind at 1. rewrite Hload.
    unfold bind at 1. rewrite lift_run. unfold format_candidates. cbn [iterate and_then].
    rewrite Hformat. unfold bind at 1. rewrite retriever_key, Hkey.
    unfold bind at 1, get_trace at 1. rewrite Hreply.
    unfold bind at 1. rewrite lift_run.
    unfold bind at 1. rewrite lift_run, Hlk.
    unfold bind at 1. rewrite lift_run. cbn [get_attr]. rewrite Hsel.
    unfold bind at 1. rewrite lift_run. cbn [iterate].
    unfold bind at 1. rewrite lift_run, Henrich.
    unfold bind at 1. rewrite lift_run, Hprint. done. }
  exists enriched. split; [done|].
  apply run_retriever_cases in Hrun as [_ [[? _]|(_ & _ & Hcase)]]; [congruence|].
  destruct Hcase as (index & entries' & cands & cats & response' & refs' & enriched'
                     & Hi & He & _ & Hr & Hs & Heq & Hids & Hall).
  rewrite Hindex in Hi. injection Hi as <-. cbn in He. injection He as <-.
  rewrite Hreply in Hr. injection Hr as <-.
  rewrite Hsel in Hs. cbn in Hs. injection Hs as <-.
  apply (f_equal (λ m : dict, m !! "selected_references")) in Heq.
  rewrite !lookup_insert_eq in Heq. injection Heq as Heq.
  assert (Inj (=) (=) JObj) as HJ by (by intros ?? [=]).
  apply (inj (fmap JObj)) in Heq. by subst enriched'.
Qed.

End WithServices.
End RetrieverTotal.

(** ** planner.py and stylist.py *)

Module StagePipeline.
Import GenerateImage Critic Retriever Orchestrate Run Observe StringFacts Facts RenderFacts.
Import PyOps Enrichment CliFacts RetrieverFacts.

Lemma reference_ids_length refs ids :
  Planner.reference_ids refs = inr ids → length ids = length refs.
Proof.
  revert ids. induction refs as [|ref refs IH]; intros ids; [by intros [= <-]|].
  cbn [Planner.reference_ids]. unfold and_then.
  destruct (subscript ref "id"); [done|].
  destruct (Planner.reference_ids refs) as [|l]; [done|].
  intros [= <-]. cbn. by rewrite (IH l).
Qed.

Section WithServices.
Variable svc : services.

Section Planner.
Variable Path_suffix : string → string.
Variable planner_model : list event → Planner.planner_request → text_reply.

Lemma planner_key s :
  Planner.get_api_key svc s
  = (if api_key_set svc then Ret (default "" (GOOGLE_API_KEY svc)) else Exit 1, s).
Proof.
  unfold Planner.get_api_key, api_key_set.
  destruct (GOOGLE_API_KEY svc) as [key|]; [|done]. by destruct (truthy (JStr key)).
Qed.

Lemma load_reference_run ref s o s' :
  Planner.load_reference Path_suffix ref s = (o, s') →
  s' = s
  ∧ match o with
    | Ret loaded => Planner.ex_image <$> loaded = Planner.reference_image s ref
    | Raise _ => True
    | Exit _ => False
    end.
Proof.
  unfold Planner.load_reference, Planner.reference_image.
  unfold bind at 1. rewrite lift_run.
  destruct (get_attr ref "file" (JStr "")) as [e|ref_path] eqn:Hfile;
    [by intros [= <- <-]|].
  destruct (truthy ref_path) eqn:Htruthy.
  2:{ intros [= <- <-]. split; [done|].
      destruct ref_path; try done. by rewrite Htruthy. }
  destruct ref_path as [| | |p| |]; try (by intros [= <- <-]).
  rewrite Htruthy. unfold bind at 1, read_file at 1.
  destruct (fs s !! p) as [img|]; [|by intros [= <- <-]].
  unfold bind at 1. rewrite lift_run.
  destruct (subscript ref "id") as [e|id]; [by intros [= <- <-]|].
  unfold bind at 1. rewrite lift_run.
  destruct (subscript ref "caption") as [e|caption]; by intros [= <- <-].
Qed.

Lemma load_references_run refs s o s' :
  Planner.load_references Path_suffix refs s = (o, s') →
  s' = s
  ∧ match o with
    | Ret examples =>
        Planner.ex_image <$> examples = omap (Planner.reference_image s) refs
    | Raise _ => True
    | Exit _ => False
    end.
Proof.
  revert o s'. induction refs as [|ref refs IH]; intros o s'; [by intros [= <- <-]|].
  cbn [Planner.load_references]. unfold bind at 1.
  destruct (Planner.load_reference Path_suffix ref s) as [o1 s1] eqn:H1.
  apply load_reference_run in H1 as [-> H1].
  destruct o1 as [loaded|e|c]; [|by intros [= <- <-]|done].
  unfold bind at 1.
  destruct (Planner.load_references Path_suffix refs s) as [o2 s2] eqn:H2.
  destruct (IH _ _ eq_refl) as [-> H2'].
  destruct o2 as [l|e|c]; [|by intros [= <- <-]|done].
  intros [= <- <-]. split; [done|].
  change (omap (Planner.reference_image s) (ref :: refs))
    with (match Planner.reference_image s ref with
          | Some img => img :: omap (Planner.reference_image s) refs
          | None => omap (Planner.reference_image s) refs
          end).
  rewrite <- H1, <- H2'. by destruct loaded.
Qed.

Lemma run_planner_cases methodology caption references_data s o s' :
  Planner.run_planner svc Path_suffix planner_model methodology caption
    references_data s = (o, s') →
  s' = s
  ∧ match o with
    | Ret r =>
        api_key_set svc = true
        ∧ ∃ refs examples text ids,
            iterate (get references_data "selected_references" (JList [])) = inr refs
            ∧ planner_model (trace s)
                {| Planner.pr_examples := examples;
                   Planner.pr_methodology := methodology;
                   Planner.pr_caption := caption;
                   Planner.pr_category :=
                     get references_data "category" (JStr "Science & Applications");
                   Planner.pr_visual_intent :=
                     get references_data "visual_intent" (JStr "Pipeline/Flow") |}
              = TextReply text
            ∧ Planner.ex_image <$> examples = omap (Planner.reference_image s) refs
            ∧ Planner.reference_ids refs = inr ids
            ∧ length ids = length refs
            ∧ r = <["description" := JStr (str_strip svc text)]>
                  (<["category" :=
                       get references_data "category" (JStr "Science & Applications")]>
                  (<["visual_intent" :=
                       get references_data "visual_intent" (JStr "Pipeline/Flow")]>
                  (<["caption" := JStr caption]>
                  (<["reference_ids" := JList ids]> ∅))))
    | Raise _ => api_key_set svc = true
    | Exit code => code = 1 ∧ api_key_set svc = false
    end.
Proof.
  unfold Planner.run_planner. cbn zeta.
  unfold bind at 1. rewrite planner_key.
  destruct (api_key_set svc) eqn:Hkey; [|by intros [= <- <-]].
  unfold bind at 1. rewrite lift_run.
  destruct (iterate _) as [e|refs] eqn:Hrefs; [by intros [= <- <-]|].
  unfold bind at 1.
  destruct (Planner.load_references Path_suffix refs s) as [ol sl] eqn:Hload.
  apply load_references_run in Hload as [-> Hload].
  destruct ol as [examples|e|c]; [|by intros [= <- <-]|done].
  unfold bind at 1, get_trace at 1.
  destruct (planner_model (trace s) _) as [e|text] eqn:Hreply; [by intros [= <- <-]|].
  unfold bind at 1. rewrite lift_run.
  destruct (Planner.reference_ids refs) as [e|ids] eqn:Hids; [by intros [= <- <-]|].
  intros [= <- <-]. split; [done|]. split; [done|].
  exists refs, examples, text, ids. repeat split; try done.
  by apply reference_ids_length.
Qed.

End Planner.

Section Stylist.
Variable STYLE_GUIDE_PATH : string.
Variable stylist_model : list event → Stylist.stylist_request → text_reply.

Lemma stylist_key s :
  Stylist.get_api_key svc s
  = (if api_key_set svc then Ret (default "" (GOOGLE_API_KEY svc)) else Exit 1, s).
Proof.
  unfold Stylist.get_api_key, api_key_set.
  destruct (GOOGLE_API_KEY svc) as [key|]; [|done]. by destruct (truthy (JStr key)).
Qed.

Lemma load_style_guide_run s :
  ∃ o, Stylist.load_style_guide svc STYLE_GUIDE_PATH s = (o, s) ∧ ∀ c, o ≠ Exit c.
Proof.
  unfold Stylist.load_style_guide, bind, read_file.
  destruct (fs s !! STYLE_GUIDE_PATH) as [f|]; [|by eexists].
  pose proof (read_text_state svc f s) as Hs.
  destruct (read_text svc f s) as [o s0] eqn:Hread. cbn in Hs. subst s0.
  exists o. split; [done|]. intros c ->. by apply read_text_no_exit in Hread.
Qed.

Lemma run_stylist_cases planner_output category_override s o s' :
  Stylist.run_stylist svc STYLE_GUIDE_PATH stylist_model planner_output
    category_override s = (o, s') →
  s' = s
  ∧ match o with
    | Ret r =>
        api_key_set svc = true
        ∧ ∃ description style_guide text,
            planner_output !! "description" = Some description
            ∧ match description with
              | JStr _ | JList _ | JObj _ => True
              | JNull | JBool _ | JNum _ => False
              end
            ∧ stylist_model (trace s)
                {| Stylist.sr_description := description;
                   Stylist.sr_category :=
                     if truthy category_override then category_override
                     else get planner_output "category"
                            (JStr "Science & Applications");
                   Stylist.sr_style_guide := style_guide |}
              = TextReply text
            ∧ r = <["styled_description" := JStr (str_strip svc text)]>
                  (<["category" :=
                       if truthy category_override then category_override
                       else get planner_output "category"
                              (JStr "Science & Applications")]>
                  (<["visual_intent" := get planner_output "visual_intent" (JStr "")]>
                  (<["caption" := get planner_output "caption" (JStr "")]>
                  (<["original_description" := description]> ∅))))
    | Raise _ => True
    | Exit code =>
        code = 1 ∧ api_key_set svc = false
        ∧ is_Some (planner_output !! "description")
    end.
Proof.
  unfold Stylist.run_stylist.
  destruct (planner_output !! "description") as [description|] eqn:Hd;
    [|by intros [= <- <-]].
  cbn zeta. destruct (load_style_guide_run s) as (og & Hguide & Hne).
  unfold bind at 1. rewrite Hguide.
  destruct og as [style_guide|e|c]; [|by intros [= <- <-]|by destruct (Hne c)].
  unfold bind at 1. rewrite stylist_key.
  destruct (api_key_set svc) eqn:Hkey; [|intros [= <- <-]; eauto].
  unfold bind at 1, get_trace at 1.
  destruct (stylist_model (trace s) _) as [e|text] eqn:Hreply; [by intros [= <- <-]|].
  destruct description as [| | |d| |]; intros [= <- <-]; (split; [done|]); try done;
    (split; [done|]); eexists _, style_guide, text; by repeat split.
Qed.

End Stylist.

Variable st : Stages.stage_services.

Lemma stylist_after_planner methodology caption references_data s planner_output s1
    stylist_output s2 :
  run_planner (Stages.with_stages svc st) methodology caption references_data s
    = (Ret planner_output, s1) →
  run_stylist (Stages.with_stages svc st) planner_output s1 = (Ret stylist_output, s2) →
  s1 = s ∧ s2 = s
  ∧ (∃ d, stylist_output !! "styled_description" = Some (JStr d))
  ∧ stylist_output !! "caption" = Some (JStr caption)
  ∧ stylist_output !! "visual_intent"
    = Some (get references_data "visual_intent" (JStr "Pipeline/Flow"))
  ∧ stylist_output !! "category"
    = Some (get references_data "category" (JStr "Science & Applications"))
  ∧ stylist_output !! "original_description" = planner_output !! "description"
  ∧ ∃ original, planner_output !! "description" = Some (JStr original).
Proof.
  cbn [run_planner run_stylist Stages.with_stages].
  intros [-> (_ & refs & examples & text & ids & _ & _ & _ & _ & _ & ->)]%run_planner_cases.
  intros [-> (_ & description & guide & text' & Hd & _ & _ & ->)]%run_stylist_cases.
  rewrite lookup_insert_eq in Hd. injection Hd as <-.
  do 2 (split; [done|]). split; [by eexists|].
  cbn [truthy]. unfold get. simplify_map_eq. repeat split; try done. by eexists.
Qed.


End WithServices.
End StagePipeline.

(** ** The stages: statements *)

Module StageTheorems.
Import GenerateImage Critic Retriever Orchestrate Run Observe.
Import PyOps Enrichment RetrieverFacts RetrieverTotal StagePipeline.

Section WithServices.
Variable svc : services.


(** X20: with an API key, an index of well-formed entries and a reply
    that selects references by id, [run_retriever] returns, also when some
    of the selected ids are not in the index: those references are left
    out of the result, the others are enriched. *)
Theorem retriever_tolerates_unknown_ids INDEX_PATH CATEGORIES_PATH reference_path
    retriever_model methodology mode s entries response refs :
  str_eq mode "plot" = false →
  api_key_set svc = true →
  fs s !! INDEX_PATH = Some (FJson (JList entries)) →
  Forall index_entry entries →
  (∀ payload, fs s !! CATEGORIES_PATH ≠ Some (FPng payload)) →
  (∀ request, retriever_model (trace s) request = VlmText (Some (JObj response))) →
  get response "selected_references" (JList []) = JList refs →
  Forall selected_reference refs →
  ∃ enriched,
    RetrieverStage.run_retriever svc INDEX_PATH CATEGORIES_PATH reference_path
      retriever_model methodology mode s
    = (Ret (<["selected_references" := JList (JObj <$> enriched)]> response), s)
    ∧ omap (λ d : dict, d !! "id") enriched
      = List.filter (in_index entries) (selected_ids refs)
    ∧ Forall (enriched_from reference_path entries refs) enriched.
Proof. apply run_retriever_total. Qed.

(** X21: [run_planner] leaves the files and the trace as they are, and
    exits with code 1 exactly when the API key is not set.  When it
    returns, the images it sent to the model are those of the selected
    references whose file exists, in order, a reference without image
    being skipped; the result lists the ids of all selected references,
    carries the category and the visual intent of the retriever (with
    their defaults) and the caller's caption, and its description is the
    stripped text of the reply. *)
Theorem planner_sends_existing_references Path_suffix planner_model methodology
    caption references_data s :
  let '(o, s') :=
    Planner.run_planner svc Path_suffix planner_model methodology caption
      references_data s in
  s' = s
  ∧ match o with
    | Ret r =>
        api_key_set svc = true
        ∧ ∃ refs examples text ids,
            iterate (get references_data "selected_references" (JList [])) = inr refs
            ∧ planner_model (trace s)
                {| Planner.pr_examples := examples;
                   Planner.pr_methodology := methodology;
                   Planner.pr_caption := caption;
                   Planner.pr_category :=
                     get references_data "category" (JStr "Science & Applications");
                   Planner.pr_visual_intent :=
                     get references_data "visual_intent" (JStr "Pipeline/Flow") |}
              = TextReply text
            ∧ Planner.ex_image <$> examples = omap (Planner.reference_image s) refs
            ∧ Planner.reference_ids refs = inr ids
            ∧ length ids = length refs
            ∧ r = <["description" := JStr (str_strip svc text)]>
                  (<["category" :=
                       get references_data "category" (JStr "Science & Applications")]>
                  (<["visual_intent" :=
                       get references_data "visual_intent" (JStr "Pipeline/Flow")]>
                  (<["caption" := JStr caption]>
                  (<["reference_ids" := JList ids]> ∅))))
    | Raise _ => api_key_set svc = true
    | Exit code => code = 1 ∧ api_key_set svc = false
    end.
Proof.
  destruct (Planner.run_planner _ _ _ _ _ _ s) as [o s'] eqn:Hrun.
  by apply run_planner_cases in Hrun.
Qed.

(** X22: when the planner and then the stylist return, neither has
    written a file, and the stylist output is fit for the loop: its styled
    description is a string, its caption is the caller's caption, its
    category and visual intent are those of the retriever output (or the
    planner's defaults), and its original description is the planner's
    description, a string. *)
Theorem stylist_output_after_planner st methodology caption references_data s
    planner_output s1 stylist_output s2 :
  run_planner (Stages.with_stages svc st) methodology caption references_data s
    = (Ret planner_output, s1) →
  run_stylist (Stages.with_stages svc st) planner_output s1 = (Ret stylist_output, s2) →
  s1 = s ∧ s2 = s
  ∧ (∃ d, stylist_output !! "styled_description" = Some (JStr d))
  ∧ stylist_output !! "caption" = Some (JStr caption)
  ∧ stylist_output !! "visual_intent"
    = Some (get references_data "visual_intent" (JStr "Pipeline/Flow"))
  ∧ stylist_output !! "category"
    = Some (get references_data "category" (JStr "Science & Applications"))
  ∧ stylist_output !! "original_description" = planner_output !! "description"
  ∧ ∃ original, planner_output !! "description" = Some (JStr original).
Proof. apply stylist_after_planner. Qed.

End WithServices.
End StageTheorems.

(** ** Runs of the sample scenarios *)

Module Scenes.
Import GenerateImage Critic Retriever Orchestrate Run Sample Observe.
Import PyOps Enrichment Stages Scenarios.
Import LoopTheorems PipelineTheorems StageTheorems.

Ltac run := vm_compute; reflexivity.

Lemma returned_run (p : outcome dict * state) :
  is_ret p.1 = true → p = (Ret (returned p.1), p.2).
Proof. by destruct p as [[] ?]. Qed.

Ltac returns := apply returned_run; run.

Lemma index_entry_of_ok id category caption file :
  index_entry (JObj (index_entry_of id category caption file)).
Proof.
  exists (index_entry_of id category caption file), id, file.
  unfold index_entry_of. split; [done|]. by simplify_map_eq.
Qed.

Lemma selected_ok id reason : selected_reference (JObj (selected id reason)).
Proof.
  exists (selected id reason), id, reason.
  unfold selected, get. split; [done|]. by simplify_map_eq.
Qed.

Lemma history_lists_every_verdict_witness :
  ∃ new, trace run_two_iterations.2 = trace initial ++ new
    ∧ returned run_two_iterations.1 !! "iterations"
      = Some (JList ([] ++ (JObj <$> verdicts new))).
Proof.
  apply (history_lists_every_verdict
           (world images_ok
              (λ k, match k with
                    | O => says (fail_with_revision 0)
                    | S _ => says pass_with_high_scores
                    end))
           "An autoencoder." "out.png" "work" initial_results (styled "A") initial
           run_two_iterations.1 run_two_iterations.2 [] (returned run_two_iterations.1)).
  - apply surjective_pairing.
  - run.
  - apply Examples.returned_ret. run.
Defined.

Lemma critic_judges_latest_render_witness :
  ∃ new, trace run_two_iterations.2 = trace initial ++ new
    ∧ judged_fresh
        (world images_ok
           (λ k, match k with
                 | O => says (fail_with_revision 0)
                 | S _ => says pass_with_high_scores
                 end))
        "out.png" new.
Proof.
  apply (critic_judges_latest_render
           (world images_ok
              (λ k, match k with
                    | O => says (fail_with_revision 0)
                    | S _ => says pass_with_high_scores
                    end))
           "An autoencoder." "out.png" "work" initial_results (styled "A") initial
           run_two_iterations.1 run_two_iterations.2).
  - run.
  - apply surjective_pairing.
Defined.

Lemma output_path_without_png_suffix_witness :
  ∃ new, trace run_without_suffix.2 = trace initial ++ new
    ∧ count is_api_critic new = 0%nat
    ∧ verdicts new = []
    ∧ (count is_render new ≤ 1)%nat
    ∧ ((fs run_without_suffix.2 = fs initial
        ∧ match run_without_suffix.1 with
          | Ret r => ∃ message, r !! "error" = Some (JStr message)
          | Raise _ => True
          | Exit code => code = 1
          end)
       ∨ (run_without_suffix.1 = Exit 1
          ∧ ∃ payload,
              fs run_without_suffix.2
              = <["figure" +:+ ".png" := FPng payload]> (fs initial))).
Proof.
  apply (output_path_without_png_suffix
           (world images_ok (λ _, says pass_with_high_scores))
           "An autoencoder." "figure" "work" initial_results (styled "A") initial
           run_without_suffix.1 run_without_suffix.2).
  - run.
  - run.
  - apply surjective_pairing.
Defined.

Lemma critic_judges_file_at_output_path_witness :
  ∃ new, trace run_with_old_figure.2 = trace with_old_figure ++ new
    ∧ fs run_with_old_figure.2 !! "figure" = fs with_old_figure !! "figure"
    ∧ ∀ request reply, In (ApiCritic request reply) new →
        fs with_old_figure !! "figure" = Some (cr_image request).
Proof.
  apply (critic_judges_file_at_output_path
           (world images_ok (λ _, says pass_with_high_scores))
           "An autoencoder." "figure" "work" initial_results (styled "A") with_old_figure
           run_with_old_figure.1 run_with_old_figure.2).
  - run.
  - intros i. unfold critic_output_path, revised_stylist_path, path_join.
    split; intros E; by rewrite !StringFacts.app_cons in E.
  - apply surjective_pairing.
Defined.

(** The render goes to "figure.png"; the critic is shown the older file
    and passes it, and the run is recorded as accepted. *)
Example old_figure_is_judged :
  images_shown (trace run_with_old_figure.2) = [FPng "old figure"]
  ∧ fs run_with_old_figure.2 !! "figure.png" = Some (FPng "image 0")
  ∧ returned run_with_old_figure.1 !! "accepted" = Some (JBool true).
Proof. repeat split; run. Qed.

Lemma render_failure_is_recorded_witness :
  ∃ r0 r1 r2 last_error,
    visualizer_critic_loop (world images_down (λ _, says pass_with_high_scores))
      "An autoencoder." "out.png" "work" initial_results (styled "A") initial
    = (Ret (summary (world images_down (λ _, says pass_with_high_scores))
              "out.png" "work"
              (<["error" := JStr ("Image generation failed after 3 attempts. Last error: "
                                  +:+ exn_str last_error)]> initial_results)),
       {| fs := fs initial;
          trace := trace initial
            ++ [CallGenerateImage 1 (quality_prefix +:+ "A") "out.png"
                  (default "16:9" (aspect_mapping !! "Pipeline/Flow"));
                ApiImage DEFAULT_MODEL (quality_prefix +:+ "A") r0; Sleep 2;
                ApiImage DEFAULT_MODEL (quality_prefix +:+ "A") r1; Sleep 4;
                ApiImage DEFAULT_MODEL (quality_prefix +:+ "A") r2] |})
    ∧ attempt_error (world images_down (λ _, says pass_with_high_scores)) r2
      = Some last_error.
Proof.
  apply (render_failure_is_recorded
           (world images_down (λ _, says pass_with_high_scores))
           "An autoencoder." "out.png" "work" initial_results (styled "A") initial
           "A" "Pipeline/Flow").
  - intros history model prompt. by eexists.
  - reflexivity.
  - run.
  - run.
Defined.

Lemma main_checks_inputs_witness :
  main_with (world images_ok (λ _, says pass_with_high_scores)) run_retriever_params
    no_methodology_args initial = (Exit 1, initial).
Proof.
  apply (main_checks_inputs (world images_ok (λ _, says pass_with_high_scores))
           run_retriever_params no_methodology_args initial).
  right. split; reflexivity.
Defined.

Lemma retriever_tolerates_unknown_ids_witness :
  ∃ enriched,
    RetrieverStage.run_retriever (world images_ok (λ _, says pass_with_high_scores))
      (INDEX_PATH sample_stages) (CATEGORIES_PATH sample_stages)
      (reference_path sample_stages) (retriever_model sample_stages)
      "An autoencoder." (JStr "diagram") with_index
    = (Ret (<["selected_references" := JList (JObj <$> enriched)]> sample_response),
       with_index)
    ∧ omap (λ d : dict, d !! "id") enriched
      = List.filter (in_index sample_entries) (selected_ids sample_selection)
    ∧ Forall (enriched_from (reference_path sample_stages) sample_entries
                sample_selection) enriched.
Proof.
  apply (retriever_tolerates_unknown_ids
           (world images_ok (λ _, says pass_with_high_scores))
           (INDEX_PATH sample_stages) (CATEGORIES_PATH sample_stages)
           (reference_path sample_stages) (retriever_model sample_stages)
           "An autoencoder." (JStr "diagram") with_index
           sample_entries sample_response sample_selection).
  - run.
  - reflexivity.
  - run.
  - repeat constructor; apply index_entry_of_ok.
  - intros payload. by vm_compute.
  - reflexivity.
  - run.
  - repeat constructor; apply selected_ok.
Defined.

Lemma stylist_output_after_planner_witness :
  planner_run.2 = with_index ∧ stylist_run.2 = with_index
  ∧ (∃ d, returned stylist_run.1 !! "styled_description" = Some (JStr d))
  ∧ returned stylist_run.1 !! "caption" = Some (JStr "Figure 1: Autoencoder overview")
  ∧ returned stylist_run.1 !! "visual_intent"
    = Some (get (returned retriever_run.1) "visual_intent" (JStr "Pipeline/Flow"))
  ∧ returned stylist_run.1 !! "category"
    = Some (get (returned retriever_run.1) "category" (JStr "Science & Applications"))
  ∧ returned stylist_run.1 !! "original_description"
    = returned planner_run.1 !! "description"
  ∧ ∃ original, returned planner_run.1 !! "description" = Some (JStr original).
Proof.
  apply (stylist_output_after_planner
           (world images_ok (λ _, says pass_with_high_scores)) sample_stages
           "An autoencoder." "Figure 1: Autoencoder overview"
           (returned retriever_run.1) with_index
           (returned planner_run.1) planner_run.2
           (returned stylist_run.1) stylist_run.2).
  - apply (returned_run planner_run). run.
  - apply (returned_run stylist_run). run.
Defined.

End Scenes.
